(** * fairward: the price-file downloader (download_prices.py)

    A shallow embedding of [src/download_prices.py] and the properties of
    its four components: the filename sanitizer, the extension resolver,
    the fetcher with its retry loop, and the orchestrator [main].

    Python strings are sequences of Unicode code points, so a [str] is a
    [list N] here.  What the script takes from the Python runtime and its
    libraries (the Unicode tables behind [\w], [\s] and [str.lower], and
    the URL parser) is an interface, [Runtime]; the network is an oracle
    that answers the k-th call of [requests.get]. *)

From Stdlib Require Import NArith QArith Ascii String.
From stdpp Require Import base gmap list strings pretty.

Local Open Scope N_scope.

(** ** Strings *)

(** A source literal, as code points. *)
Definition lit (s : string) : list N := N_of_ascii <$> list_ascii_of_string s.

(** The quotes and the line feed, written by their code points. *)
Definition dquote : N := 34.
Definition squote : N := 39.
Definition newline : N := 10.

(** [c in chars] for a character. *)
Definition char_in (c : N) (chars : list N) : bool := existsb (N.eqb c) chars.

(** [s.startswith(p)]. *)
Fixpoint startswith (p s : list N) : bool :=
  match p, s with
  | [], _ => true
  | _ :: _, [] => false
  | a :: p', b :: s' => (a =? b) && startswith p' s'
  end.

(** [s.endswith(p)]. *)
Definition endswith (s p : list N) : bool := startswith (rev p) (rev s).

(** [needle in s] for strings. *)
Fixpoint contains (needle s : list N) : bool :=
  startswith needle s ||
  match s with
  | [] => false
  | _ :: s' => contains needle s'
  end.

(** [s.split('.')[-1]]: what follows the last occurrence of [sep]. *)
Fixpoint after_last (sep : N) (s : list N) : list N :=
  match s with
  | [] => []
  | c :: s' => if char_in sep s' then after_last sep s'
               else if c =? sep then s' else c :: s'
  end.

(** [str(n)] and [f"{n}"] for a non-negative integer. *)
Definition str_of_nat (n : nat) : list N := lit (pretty n).
Definition str_of_N (n : N) : list N := lit (pretty n).

(** ** What the script takes from Python *)

(** The exceptions that leave [download_file] or [main] uncaught. *)
Inductive pyexc :=
  | KeyError (key : list N)
  | TypeError
  | AttributeError
  | ValueError
  | FileExistsError
  | NotADirectoryError
  | IsADirectoryError.

(** How a call ends: it returns, it raises, or a loop ran out of the
    iterations the model grants it. *)
Inductive outcome (A : Type) :=
  | Return (a : A)
  | Raises (e : pyexc)
  | OutOfFuel.
Arguments Return {A} a.
Arguments Raises {A} e.
Arguments OutOfFuel {A}.

(** What the URL library makes of an argument: a path, or an exception. *)
Inductive parse :=
  | Parsed (path : list N)
  | Rejected (e : pyexc).

(** The Unicode database and the URL library of the running interpreter.
    - [uni_isalnum c]: [chr(c).isalnum()]; [\w] is this or the underscore;
    - [uni_isspace c]: [chr(c).isspace()], the class [\s];
    - [str_lower s]: [s.lower()], on whole strings since lowering is
      neither per character nor length preserving in Unicode;
    - [url_path u]: [unquote(urlparse(u).path)], for a string or [None];
      [urlparse] raises [ValueError] on some strings. *)
Class Runtime := {
  uni_isalnum : N → bool;
  uni_isspace : N → bool;
  str_lower : list N → list N;
  url_path : option (list N) → parse;
}.

(** The ASCII rows of the tables. *)
Definition ascii_isalnum (c : N) : bool :=
  ((48 <=? c) && (c <=? 57)) || ((65 <=? c) && (c <=? 90)) || ((97 <=? c) && (c <=? 122)).

Definition ascii_isspace (c : N) : bool :=
  ((9 <=? c) && (c <=? 13)) || ((28 <=? c) && (c <=? 32)).

Definition ascii_lower (c : N) : N :=
  if (65 <=? c) && (c <=? 90) then c + 32 else c.

Definition is_ascii (s : list N) : Prop := Forall (λ c, c < 128) s.

(** A runtime agrees with Python on ASCII text. *)
Record ascii_faithful (rt : Runtime) : Prop := {
  af_isalnum : ∀ c, c < 128 → uni_isalnum c = ascii_isalnum c;
  af_isspace : ∀ c, c < 128 → uni_isspace c = ascii_isspace c;
  af_lower : ∀ s, is_ascii s → str_lower s = ascii_lower <$> s;
}.

(** ** Configuration *)

Definition OUTPUT_DIR : list N := lit "public_prices".
Definition TIMEOUT : nat := 120.
Definition RETRY_ATTEMPTS : nat := 3.
Definition DELAY_BETWEEN_REQUESTS : Q := (1 # 2)%Q.

(** ** Paths and the file system *)

(** A [pathlib] path is its sequence of parts.  Paths are compared as
    they are written: a part of two dots is not resolved. *)
Fixpoint split_on (sep : N) (s : list N) : list (list N) :=
  match s with
  | [] => [[]]
  | c :: s' =>
      if c =? sep then [] :: split_on sep s'
      else match split_on sep s' with
           | [] => [[c]]
           | w :: ws => (c :: w) :: ws
           end
  end.

(** The parts that a relative segment adds: empty parts and single dots
    are dropped, as [pathlib] does. *)
Definition parts (s : list N) : list (list N) :=
  filter (λ w, w ≠ [] ∧ w ≠ lit ".") (split_on 47 s).

(** [p / s].  The segments joined by the script never start with a
    slash: [sanitize_filename] deletes slashes and every extension starts
    with a dot. *)
Definition path_div (p : list (list N)) (s : list N) : list (list N) := p ++ parts s.

(** [p.parent] *)
Definition parent (p : list (list N)) : list (list N) := removelast p.

(** [p.relative_to(other)]; [None] stands for [ValueError]. *)
Fixpoint relative_to (p other : list (list N)) : option (list (list N)) :=
  match other, p with
  | [], _ => Some p
  | _ :: _, [] => None
  | o :: other', c :: p' => if decide (o = c) then relative_to p' other' else None
  end.

(** [str(p)] *)
Definition path_str (p : list (list N)) : list N :=
  match p with
  | [] => lit "."
  | c :: p' => foldl (λ acc w, acc ++ lit "/" ++ w) c p'
  end.

(** What a path leads to: a file of bytes, a directory, or a file that
    [csv.DictWriter] wrote, kept by its records (its bytes are these
    records in the writer's dialect, which nothing in the script reads). *)
Inductive node :=
  | File (content : list Byte.byte)
  | Dir
  | Sheet (records : list (list (list N))).

(** ** The network *)

(** What the [try] block of one attempt can raise, by the [except]
    clause that catches it; [msg] is [str(e)]. *)
Inductive raised :=
  | Timeout
  | HTTPError (status_code : N) (reason : list N)
  | RequestException (msg : list N)
  | Exception (msg : list N).

(** Writing the body: [open] fails with an [OSError], or the file is
    created and receives the chunks that [iter_content] yields until the
    body ends or the stream (or a write) fails with [fault]. *)
Inductive transfer :=
  | OpenFails (msg : list N)
  | Stream (chunks : list (list Byte.byte)) (fault : option raised).

(** The answer to one call of [requests.get]. *)
Inductive exchange :=
  | GetRaises (e : raised)
  | Response (status_code : N) (reason : list N)
      (headers : gmap (list N) (list N)) (body : transfer).

(** ** Results, console and state *)

Module Result.
Record t := mk {
  hospital : option (list N);
  url : option (list N);
  success : bool;
  filename : option (list N);
  error : option (list N);
  size : N;
}.
Definition set_success (b : bool) (r : t) : t :=
  mk (hospital r) (url r) b (filename r) (error r) (size r).
Definition set_filename (f : option (list N)) (r : t) : t :=
  mk (hospital r) (url r) (success r) f (error r) (size r).
Definition set_error (e : option (list N)) (r : t) : t :=
  mk (hospital r) (url r) (success r) (filename r) e (size r).
Definition set_size (n : N) (r : t) : t :=
  mk (hospital r) (url r) (success r) (filename r) (error r) n.
End Result.

(** The lines that the script prints, by their variable parts. *)
Inductive line :=
  | Banner
  | ManifestNotFound
  | OutputDirectory (output_dir : list (list N))
  | FoundHospitals (n : nat)
  | StartingDownloads
  | Downloading (i n : nat) (hospital_name : option (list N))
  | OkLine (hospital_name : option (list N)) (filename : list N) (total_size : N)
  | FailLine (hospital_name : option (list N)) (error : option (list N))
  | Summary (total successful failed : nat) (total_bytes : N)
  | FailedDownloads (items : list (option (list N) * option (list N)))
  | LogSaved (log_path : list (list N))
  | FilesByRegion (files : gmap (list (list N)) node).

Inductive event :=
  | Get (url : option (list N))
  | Sleep (seconds : Q)
  | Print (l : line).

(** The world of a run: the file system, the number of requests made so
    far, and what happened in order. *)
Record state := State {
  fs : gmap (list (list N)) node;
  calls : nat;
  trace : list event;
}.

Definition set_fs (f : gmap (list (list N)) node) (st : state) : state :=
  State f (calls st) (trace st).
Definition emit (e : event) (st : state) : state :=
  State (fs st) (calls st) (trace st ++ [e]).
Definition count_call (st : state) : state :=
  State (fs st) (S (calls st)) (trace st).

(** [p.exists()] *)
Definition exists_ (st : state) (p : list (list N)) : bool := bool_decide (is_Some (fs st !! p)).

(** [time.sleep(seconds)] *)
Definition sleep (seconds : Q) (st : state) : state := emit (Sleep seconds) st.

(** ** Calls that may raise, in a world *)

Definition M (A : Type) : Type := state → outcome A * state.

Global Instance M_ret : MRet M := λ A a st, (Return a, st).
Global Instance M_bind : MBind M := λ A B k m st,
  match m st with
  | (Return a, st') => k a st'
  | (Raises e, st') => (Raises e, st')
  | (OutOfFuel, st') => (OutOfFuel, st')
  end.

(** A pure step that may raise, and a step that only changes the world. *)
Definition lift {A} (o : outcome A) : M A := λ st, (o, st).
Definition act (f : state → state) : M unit := λ st, (Return tt, f st).

(** ** Directories and the log file *)

(** The paths above [p], from the first part down to the parent. *)
Definition ancestors (p : list (list N)) : list (list (list N)) :=
  (λ n, take n p) <$> seq 1 (length p - 1).

Definition is_dir (n : option node) : bool :=
  match n with Some Dir => true | _ => false end.

(** A path that leads to something that is not a directory. *)
Definition is_file (n : option node) : bool :=
  match n with Some (File _) | Some (Sheet _) => true | _ => false end.

(** What [p.mkdir(parents=True, exist_ok=True)] raises, if anything:
    nothing when [p] is a directory already, [FileExistsError] when a
    file is at [p], and [NotADirectoryError] when [p] is missing and a
    file is at a path above it. *)
Definition mkdir_error (p : list (list N)) (st : state) : option pyexc :=
  match fs st !! p with
  | Some Dir => None
  | Some _ => Some FileExistsError
  | None =>
      if existsb (λ q, is_file (fs st !! q)) (ancestors p)
      then Some NotADirectoryError else None
  end.

(** What it does otherwise: a missing [p] becomes a directory, with the
    paths above it that are missing. *)
Definition makedirs (p : list (list N)) (st : state) : state :=
  if exists_ st p then st
  else set_fs (fs st ∪ list_to_map ((λ q, (q, Dir)) <$> p :: ancestors p)) st.

(** [p.mkdir(parents=True, exist_ok=True)] *)
Definition mkdir (p : list (list N)) : M unit := λ st,
  match mkdir_error p st with
  | Some e => (Raises e, st)
  | None => (Return tt, makedirs p st)
  end.

(** [open(log_path, 'w')] and the writing of the records: a directory
    at the path is an [IsADirectoryError]; a file there is replaced.
    (The directory of the log exists: [main] has made it.) *)
Definition write_log (log_path : list (list N)) (records : list (list (list N)))
  : M unit := λ st,
  match fs st !! log_path with
  | Some Dir => (Raises IsADirectoryError, st)
  | _ => (Return tt, set_fs (<[log_path := Sheet records]> (fs st)) st)
  end.

(** The files in the world that a [csv.DictWriter] wrote. *)
Definition is_sheet (n : node) : bool :=
  match n with Sheet _ => true | _ => false end.

Definition logs (st : state) : gmap (list (list N)) node :=
  filter (λ kv, is_sheet kv.2 = true) (fs st).

(** ** The manifest *)

(** [csv.DictReader] over the rows of the manifest file: the first row
    gives the field names, blank rows are skipped, and a row shorter than
    the header gets [None] for the fields it lacks.  (The values in
    excess of a longer row go under the key [None], which the script
    never reads.) *)
Definition mk_row (fieldnames row : list (list N)) : gmap (list N) (option (list N)) :=
  let d := foldl (λ d kv, <[kv.1 := Some kv.2]> d) ∅ (zip fieldnames row) in
  foldl (λ d key, <[key := None]> d) d (drop (length row) fieldnames).

Definition DictReader (rows : list (list (list N))) : list (gmap (list N) (option (list N))) :=
  match rows with
  | [] => []
  | fieldnames :: rows => mk_row fieldnames <$> filter (λ row, row ≠ []) rows
  end.

(** [hospital[key]] *)
Definition getitem (hospital : gmap (list N) (option (list N))) (key : list N)
  : outcome (option (list N)) :=
  match hospital !! key with
  | Some v => Return v
  | None => Raises (KeyError key)
  end.

(** ** The log *)

Definition log_fieldnames : list (list N) :=
  [lit "hospital"; lit "url"; lit "success"; lit "filename"; lit "size"; lit "error"].

(** A record of [csv.DictWriter]: the fields in the order of the field
    names, [None] written as the empty string. *)
Definition log_row (r : Result.t) : list (list N) :=
  [ default [] (Result.hospital r); default [] (Result.url r);
    (if Result.success r then lit "True" else lit "False");
    default [] (Result.filename r); str_of_N (Result.size r);
    default [] (Result.error r) ].

(** The counters of [main]. *)
Record tally := Tally {
  results : list Result.t;
  successful : nat;
  failed : nat;
  total_bytes : N;
}.

Definition record_result (result : Result.t) (t : tally) : tally :=
  if Result.success result
  then Tally (results t ++ [result]) (S (successful t)) (failed t)
         (total_bytes t + Result.size result)
  else Tally (results t ++ [result]) (successful t) (S (failed t)) (total_bytes t).

Section Downloader.
Context {rt : Runtime}.

(** ** Filename sanitizer *)

(** [\w] *)
Definition is_word (c : N) : bool := uni_isalnum c || (c =? 95).

(** [re.sub(r'\s+', '_', name)]: each maximal run of whitespace becomes
    one underscore; [in_run] says that the previous character was
    whitespace. *)
Fixpoint sub_spaces (in_run : bool) (name : list N) : list N :=
  match name with
  | [] => []
  | c :: name' =>
      if uni_isspace c
      then (if in_run then sub_spaces true name' else 95 :: sub_spaces true name')
      else c :: sub_spaces false name'
  end.

Definition sanitize_filename (name : list N) : list N :=
  let name := filter (λ c, ¬ char_in c (dquote :: lit "<>:/\|?*")) name in
  let name := sub_spaces false name in
  let name := filter (λ c, is_word c || char_in c (lit "-_.")) name in
  take 100 (str_lower name).

(** ** Extension resolver *)

(** [get_extension_from_url(url, file_type)].  Either argument may be
    [None] when the manifest row was short; [None.lower()] raises
    [AttributeError], but only once the URL path has decided nothing. *)
Definition get_extension_from_url (url file_type : option (list N)) : outcome (list N) :=
  match url_path url with
  | Parsed path =>
      if endswith path (lit ".csv") then Return (lit ".csv")
      else if endswith path (lit ".json") then Return (lit ".json")
      else if endswith path (lit ".zip") then Return (lit ".zip")
      else if endswith path (lit ".xlsx") then Return (lit ".xlsx")
      else if endswith path (lit ".xml") then Return (lit ".xml")
      else
        match file_type with
        | None => Raises AttributeError
        | Some file_type =>
            let file_type_lower := str_lower file_type in
            if contains (lit "csv") file_type_lower then Return (lit ".csv")
            else if contains (lit "json") file_type_lower then Return (lit ".json")
            else if contains (lit "zip") file_type_lower then Return (lit ".zip")
            else if contains (lit "api") file_type_lower then Return (lit ".json")
            else Return (lit ".json")
        end
  | Rejected e => Raises e
  end.

(** [response.headers.get(name, fallback)].  The headers of a response are
    a case-insensitive dictionary, kept here under the lowercased field
    names. *)
Definition headers_get (headers : gmap (list N) (list N)) (name fallback : list N) : list N :=
  default fallback (headers !! (ascii_lower <$> name)).

(** The regular expressions of the script, with backtracking as [re]
    does it: a literal, a greedy star over a negated character class,
    a capturing group around an optional character of a class, a
    capturing group around a greedy star over a negated class, and a
    back-reference (groups are counted from 1). *)
Inductive re_item :=
  | Lit (s : list N)
  | StarNot (excl : list N)
  | GroupOpt (chars : list N)
  | GroupStarNot (excl : list N)
  | Backref (g : nat).

(** The length of the longest prefix of [s] without a character of [excl]. *)
Fixpoint run_not (excl s : list N) : nat :=
  match s with
  | [] => 0%nat
  | c :: s' => if char_in c excl then 0%nat else S (run_not excl s')
  end.

(** The first of [f n], [f (n-1)], ..., [f 0] that succeeds. *)
Fixpoint first_down {A} (f : nat → option A) (n : nat) : option A :=
  match f n with
  | Some r => Some r
  | None => match n with
            | O => None
            | S n' => first_down f n'
            end
  end.

Fixpoint match_here (pat : list re_item) (s : list N) (groups : list (list N))
  : option (list (list N)) :=
  match pat with
  | [] => Some groups
  | Lit l :: pat' =>
      if startswith l s then match_here pat' (drop (length l) s) groups else None
  | StarNot excl :: pat' =>
      first_down (λ k, match_here pat' (drop k s) groups) (run_not excl s)
  | GroupOpt chars :: pat' =>
      match s with
      | c :: s' =>
          if char_in c chars then
            match match_here pat' s' (groups ++ [[c]]) with
            | Some r => Some r
            | None => match_here pat' s (groups ++ [[]])
            end
          else match_here pat' s (groups ++ [[]])
      | [] => match_here pat' s (groups ++ [[]])
      end
  | GroupStarNot excl :: pat' =>
      first_down (λ k, match_here pat' (drop k s) (groups ++ [take k s])) (run_not excl s)
  | Backref g :: pat' =>
      match groups !! pred g with
      | Some t => if startswith t s then match_here pat' (drop (length t) s) groups else None
      | None => None
      end
  end.

(** [re.search(pat, s)]: the match at the leftmost position that has one. *)
Fixpoint re_search (pat : list re_item) (s : list N) : option (list (list N)) :=
  match match_here pat s [] with
  | Some groups => Some groups
  | None => match s with
            | [] => None
            | _ :: s' => re_search pat s'
            end
  end.

(** The expression that [get_extension_from_response] searches for: the
    word filename, any characters but semicolon, equals sign and line
    feed, an equals sign, an optional quote of either kind (group 1),
    any characters but quotes and line feed (group 2), and group 1 again. *)
Definition filename_re : list re_item :=
  [ Lit (lit "filename"); StarNot (lit ";=" ++ [newline]); Lit (lit "=");
    GroupOpt [squote; dquote]; GroupStarNot [squote; dquote; newline]; Backref 1 ].

(** The filename that the script reads in a [Content-Disposition] header:
    [match.group(2)], when the header has ['filename='] and the
    expression matches. *)
Definition disposition_filename (content_disp : list N) : option (list N) :=
  if contains (lit "filename=") content_disp then
    groups ← re_search filename_re content_disp; groups !! 1%nat
  else None.

Definition get_extension_from_response (headers : gmap (list N) (list N))
    (default_ext : list N) : list N :=
  let content_type := str_lower (headers_get headers (lit "Content-Type") []) in
  if contains (lit "csv") content_type || contains (lit "text/csv") content_type
  then lit ".csv"
  else if contains (lit "json") content_type then lit ".json"
  else if contains (lit "zip") content_type || contains (lit "application/zip") content_type
  then lit ".zip"
  else if contains (lit "excel") content_type || contains (lit "spreadsheet") content_type
  then lit ".xlsx"
  else if contains (lit "xml") content_type then lit ".xml"
  else
    let content_disp := headers_get headers (lit "Content-Disposition") [] in
    match disposition_filename content_disp with
    | Some filename =>
        if char_in 46 filename
        then lit "." ++ str_lower (after_last 46 filename)
        else default_ext
    | None => default_ext
    end.

(** ** Fetcher *)

(** The network answers the k-th call of [requests.get] with [net k]. *)
Context (net : nat → exchange).

Definition timeout_message (attempt : nat) : list N :=
  lit "Timeout after " ++ str_of_nat TIMEOUT ++ lit "s (attempt "
    ++ str_of_nat (attempt + 1) ++ lit "/" ++ str_of_nat RETRY_ATTEMPTS ++ lit ")".

Definition http_message (status_code : N) (reason : list N) : list N :=
  lit "HTTP " ++ str_of_N status_code ++ lit ": " ++ reason.

Definition unexpected_message (msg : list N) : list N := lit "Unexpected error: " ++ msg.

(** [response.raise_for_status()] raises for the codes 400 to 599. *)
Definition is_error_status (status_code : N) : bool :=
  (400 <=? status_code) && (status_code <? 600).

(** The loop that handles duplicate filenames; it enters with the plain
    name and [counter = 1].  [None]: the iterations granted were not
    enough. *)
Fixpoint while_exists (fuel : nat) (st : state) (region_dir : list (list N))
    (base_name actual_ext filename : list N) (counter : nat) : option (list N) :=
  match fuel with
  | O => None
  | S fuel' =>
      if exists_ st (path_div region_dir filename)
      then while_exists fuel' st region_dir base_name actual_ext
             (base_name ++ lit "_" ++ str_of_nat counter ++ actual_ext) (S counter)
      else Some filename
  end.

(** How one pass through the [try] block ends. *)
Inductive try_end :=
  | Returned
  | Raised (e : raised)
  | Spinning.

(** The [try] block of [download_file]: one request, and on a good
    status the choice of the name and the transfer of the body. *)
Definition try_download (url : option (list N)) (region_dir output_dir : list (list N))
    (base_name expected_ext : list N) (result : Result.t) (st : state)
  : try_end * Result.t * state :=
  let response := net (calls st) in
  let st := emit (Get url) (count_call st) in
  match response with
  | GetRaises e => (Raised e, result, st)
  | Response status_code reason headers body =>
      if is_error_status status_code
      then (Raised (HTTPError status_code reason), result, st)
      else
        let actual_ext := get_extension_from_response headers expected_ext in
        (* the loop is granted two iterations more than there are nodes,
           which is enough: see [while_exists_terminates] *)
        match while_exists (S (S (size (fs st)))) st region_dir base_name actual_ext
                (base_name ++ actual_ext) 1 with
        | None => (Spinning, result, st)
        | Some filename =>
            let filepath := path_div region_dir filename in
            match body with
            | OpenFails msg => (Raised (Exception msg), result, st)
            | Stream chunks fault =>
                let written := filter (λ chunk, chunk ≠ []) chunks in
                let total_size := N.of_nat (length (concat written)) in
                let st := set_fs (<[filepath := File (concat written)]> (fs st)) st in
                match fault with
                | Some e => (Raised e, result, st)
                | None =>
                    let result := Result.set_success true result in
                    match relative_to filepath (parent output_dir) with
                    | None =>
                        (* never taken: the destination is under the parent
                           of the output directory, see [relative_to_filepath] *)
                        (Raised (Exception (lit "ValueError")), result, st)
                    | Some relative =>
                        let result := Result.set_filename (Some (path_str relative)) result in
                        let result := Result.set_size total_size result in
                        let st := emit (Print (OkLine (Result.hospital result) filename total_size)) st in
                        (Returned, result, st)
                    end
                end
            end
        end
  end.

(** How the [for] loop over the attempts ends: by the [return] in its
    body, or past its end (after a [break] or the last attempt). *)
Inductive loop_end :=
  | ReturnedResult
  | FellThrough
  | Stuck.

(** [time.sleep(2 ** attempt)] when an attempt remains. *)
Definition backoff (attempt : nat) (st : state) : state :=
  if (attempt <? RETRY_ATTEMPTS - 1)%nat
  then sleep (inject_Z (2 ^ Z.of_nat attempt)) st
  else st.

(** [for attempt in range(RETRY_ATTEMPTS)], with its [except] clauses. *)
Fixpoint for_attempts (attempts : list nat) (url : option (list N))
    (region_dir output_dir : list (list N)) (base_name expected_ext : list N)
    (result : Result.t) (st : state) : loop_end * Result.t * state :=
  match attempts with
  | [] => (FellThrough, result, st)
  | attempt :: rest =>
      match try_download url region_dir output_dir base_name expected_ext result st with
      | (Returned, result, st) => (ReturnedResult, result, st)
      | (Spinning, result, st) => (Stuck, result, st)
      | (Raised Timeout, result, st) =>
          let result := Result.set_error (Some (timeout_message attempt)) result in
          for_attempts rest url region_dir output_dir base_name expected_ext
            result (backoff attempt st)
      | (Raised (HTTPError status_code reason), result, st) =>
          (FellThrough, Result.set_error (Some (http_message status_code reason)) result, st)
      | (Raised (RequestException msg), result, st) =>
          let result := Result.set_error (Some msg) result in
          for_attempts rest url region_dir output_dir base_name expected_ext
            result (backoff attempt st)
      | (Raised (Exception msg), result, st) =>
          (FellThrough, Result.set_error (Some (unexpected_message msg)) result, st)
      end
  end.

(** What [download_file] computes before its loop: the region directory
    (created, unless [mkdir] raises), the base name and the expected
    extension.  A [None] where [re.sub] wants a string is a [TypeError]. *)
Definition prepare (hospital_name url file_type region : option (list N))
    (output_dir : list (list N)) (st : state)
  : outcome (list (list N) * list N * list N) * state :=
  match region with
  | None => (Raises TypeError, st)
  | Some region =>
      let region_dir := path_div output_dir (sanitize_filename region) in
      match mkdir region_dir st with
      | (Return _, st) =>
          match hospital_name with
          | None => (Raises TypeError, st)
          | Some hospital_name =>
              let base_name := sanitize_filename hospital_name in
              match get_extension_from_url url file_type with
              | Return expected_ext => (Return (region_dir, base_name, expected_ext), st)
              | Raises e => (Raises e, st)
              | OutOfFuel => (OutOfFuel, st)
              end
          end
      | (Raises e, st) => (Raises e, st)
      | (OutOfFuel, st) => (OutOfFuel, st)
      end
  end.

Definition download_file (hospital_name url file_type region : option (list N))
    (output_dir : list (list N)) (st : state) : outcome Result.t * state :=
  let result := Result.mk hospital_name url false None None 0 in
  match prepare hospital_name url file_type region output_dir st with
  | (Return (region_dir, base_name, expected_ext), st) =>
      match for_attempts (seq 0 RETRY_ATTEMPTS) url region_dir output_dir
              base_name expected_ext result st with
      | (ReturnedResult, result, st) => (Return result, st)
      | (FellThrough, result, st) =>
          (Return result, emit (Print (FailLine hospital_name (Result.error result))) st)
      | (Stuck, result, st) => (OutOfFuel, st)
      end
  | (Raises e, st) => (Raises e, st)
  | (OutOfFuel, st) => (OutOfFuel, st)
  end.

(** ** Orchestrator *)

(** [for i, hospital in enumerate(hospitals, 1)] *)
Fixpoint for_hospitals (i n : nat) (hospitals : list (gmap (list N) (option (list N))))
    (output_dir : list (list N)) (t : tally) : M tally :=
  match hospitals with
  | [] => mret t
  | hospital :: rest =>
      name ← lift (getitem hospital (lit "hospital_name"));
      act (emit (Print (Downloading i n name)));;
      hospital_name ← lift (getitem hospital (lit "hospital_name"));
      url ← lift (getitem hospital (lit "mrf_download_url"));
      file_type ← lift (getitem hospital (lit "file_type"));
      region ← lift (getitem hospital (lit "region"));
      result ← download_file hospital_name url file_type region output_dir;
      let t := record_result result t in
      (if (i <? n)%nat then act (sleep DELAY_BETWEEN_REQUESTS) else mret tt);;
      for_hospitals (S i) n rest output_dir t
  end.

(** [main()]: [manifest] is the content of the manifest file, [None]
    when the file does not exist; the value is the exit status. *)
Definition main (manifest : option (list (list (list N)))) (script_dir : list (list N))
  : M nat :=
  act (emit (Print Banner));;
  let output_dir := path_div script_dir OUTPUT_DIR in
  match manifest with
  | None => act (emit (Print ManifestNotFound));; mret 1%nat
  | Some rows =>
      mkdir output_dir;;
      act (emit (Print (OutputDirectory output_dir)));;
      let hospitals := DictReader rows in
      act (emit (Print (FoundHospitals (length hospitals))));;
      act (emit (Print StartingDownloads));;
      t ← for_hospitals 1 (length hospitals) hospitals output_dir (Tally [] 0 0 0);
      act (emit (Print (Summary (length hospitals) (successful t) (failed t) (total_bytes t))));;
      (if (0 <? failed t)%nat
       then act (emit (Print (FailedDownloads
              ((λ r, (Result.hospital r, Result.error r)) <$>
                 filter (λ r, ¬ Result.success r) (results t)))))
       else mret tt);;
      let log_path := path_div output_dir (lit "download_log.csv") in
      write_log log_path (log_fieldnames :: (log_row <$> results t));;
      act (emit (Print (LogSaved log_path)));;
      act (λ st, emit (Print (FilesByRegion (fs st))) st);;
      mret (if (failed t =? 0)%nat then 0%nat else 1%nat)
  end.

End Downloader.

(** ** A fragment of CPython's runtime

    The ASCII rows of the Unicode tables and the two rows for U+0130
    (LATIN CAPITAL LETTER I WITH DOT ABOVE, alphanumeric, whose lowercase
    is U+0069 U+0307) and U+0307 (COMBINING DOT ABOVE, not alphanumeric);
    every other code point is left without a class and without case. *)
Definition fragment_isalnum (c : N) : bool := ascii_isalnum c || (c =? 304).

Definition fragment_lower (s : list N) : list N :=
  s ≫= λ c, if c =? 304 then [105; 775] else [ascii_lower c].


(** [unquote(urlparse(url).path)] on the URLs of this development: an
    optional scheme, an authority after two slashes, the path, then the
    parameters, query and fragment that [urlparse] cuts off, and the
    percent escapes of ASCII characters decoded.  [urlparse] raises
    [ValueError] when the authority has one square bracket without the
    other, and gives [None] the empty path. *)
Definition uses_params : list (list N) :=
  [ []; lit "ftp"; lit "hdl"; lit "prospero"; lit "http"; lit "imap"; lit "https";
    lit "shttp"; lit "rtsp"; lit "rtspu"; lit "sip"; lit "sips"; lit "mms";
    lit "sftp"; lit "tel" ].

Definition is_alpha (c : N) : bool :=
  ((65 <=? c) && (c <=? 90)) || ((97 <=? c) && (c <=? 122)).

Definition split_scheme (url : list N) : list N * list N :=
  let i := run_not (lit ":") url in
  if (0 <? i)%nat && (i <? length url)%nat
     && forallb is_alpha (take 1 url)
     && forallb (λ c, ascii_isalnum c || char_in c (lit "+-.")) (take i url)
  then (ascii_lower <$> take i url, drop (S i) url)
  else ([], url).

Definition split_netloc (url : list N) : list N * list N :=
  if startswith (lit "//") url
  then let rest := drop 2 url in
       let n := run_not (lit "/?#") rest in (take n rest, drop n rest)
  else ([], url).

(** The index of the last slash of the path, if it has one. *)
Fixpoint rfind_slash (s : list N) : option nat :=
  match s with
  | [] => None
  | c :: s' =>
      match rfind_slash s' with
      | Some i => Some (S i)
      | None => if c =? 47 then Some 0%nat else None
      end
  end.

Definition split_params (scheme path : list N) : list N :=
  if bool_decide (scheme ∈ uses_params) && char_in 59 path then
    match rfind_slash path with
    | Some i => take (i + run_not (lit ";") (drop i path)) path
    | None => take (run_not (lit ";") path) path
    end
  else path.

Definition hex_digit (c : N) : option N :=
  if (48 <=? c) && (c <=? 57) then Some (c - 48)
  else if (65 <=? c) && (c <=? 70) then Some (c - 55)
  else if (97 <=? c) && (c <=? 102) then Some (c - 87)
  else None.

Fixpoint unquote (s : list N) : list N :=
  match s with
  | 37 :: ((h :: l :: rest) as s') =>
      match hex_digit h, hex_digit l with
      | Some a, Some b => if 16 * a + b <? 128 then (16 * a + b) :: unquote rest
                          else 37 :: unquote s'
      | _, _ => 37 :: unquote s'
      end
  | c :: s' => c :: unquote s'
  | [] => []
  end.

Definition fragment_url_path (url : option (list N)) : parse :=
  match url with
  | None => Parsed []
  | Some url =>
      let '(scheme, rest) := split_scheme url in
      let '(netloc, rest) := split_netloc rest in
      if xorb (char_in 91 netloc) (char_in 93 netloc) then Rejected ValueError
      else
        let rest := take (run_not (lit "#") rest) rest in
        let rest := take (run_not (lit "?") rest) rest in
        Parsed (unquote (split_params scheme rest))
  end.

Definition cpython_fragment : Runtime :=
  {| uni_isalnum := fragment_isalnum; uni_isspace := ascii_isspace;
     str_lower := fragment_lower; url_path := fragment_url_path |}.


(** ** Vocabulary of the properties *)

(** The characters of a sanitized ASCII name. *)
Definition safe_char (c : N) : bool :=
  ((97 <=? c) && (c <=? 122)) || ((48 <=? c) && (c <=? 57)) || char_in c (lit "-_.").

(** A character that the sanitizer deletes: one of the reserved ones,
    or one that is neither whitespace nor kept. *)
Definition invalid_char `{Runtime} (c : N) : bool :=
  char_in c (dquote :: lit "<>:/\|?*")
  || (negb (uni_isspace c) && negb (is_word c || char_in c (lit "-_."))).

(** The names that the loop over duplicate filenames tries, in order:
    the plain one, then those numbered from 1. *)
Definition candidate (base_name actual_ext : list N) (k : nat) : list N :=
  match k with
  | O => base_name ++ actual_ext
  | S _ => base_name ++ lit "_" ++ str_of_nat k ++ actual_ext
  end.

(** What the [try] block raises on an exchange, if anything. *)
Definition raised_by (x : exchange) : option raised :=
  match x with
  | GetRaises e => Some e
  | Response status_code reason _ body =>
      if is_error_status status_code then Some (HTTPError status_code reason)
      else match body with
           | OpenFails msg => Some (Exception msg)
           | Stream _ fault => fault
           end
  end.

(** An attempt that fails at the transport level: a timeout, or another
    exception of [requests] that is not an HTTP error. *)
Definition transport_failure (x : exchange) : bool :=
  match raised_by x with
  | Some Timeout | Some (RequestException _) => true
  | _ => false
  end.

(** The error that the script records for an exception of an attempt. *)
Definition error_message (attempt : nat) (e : raised) : list N :=
  match e with
  | Timeout => timeout_message attempt
  | HTTPError status_code reason => http_message status_code reason
  | RequestException msg => msg
  | Exception msg => unexpected_message msg
  end.

(** The bytes that a transfer leaves in the file. *)
Definition written (chunks : list (list Byte.byte)) : list Byte.byte :=
  concat (filter (λ chunk, chunk ≠ []) chunks).

(** The suffixes of a URL path that decide the extension. *)
Definition recognized_suffixes : list (list N) :=
  [lit ".csv"; lit ".json"; lit ".zip"; lit ".xlsx"; lit ".xml"].

(** A decimal digit. *)
Definition is_digit (c : N) : Prop := 48 ≤ c ∧ c ≤ 57.

(** The body of the loop of [main] for one row, up to the result of
    [download_file]. *)
Definition process_row `{Runtime} (net : nat → exchange) (i n : nat)
    (hospital : gmap (list N) (option (list N))) (output_dir : list (list N))
  : M Result.t :=
  name ← lift (getitem hospital (lit "hospital_name"));
  act (emit (Print (Downloading i n name)));;
  hospital_name ← lift (getitem hospital (lit "hospital_name"));
  url ← lift (getitem hospital (lit "mrf_download_url"));
  file_type ← lift (getitem hospital (lit "file_type"));
  region ← lift (getitem hospital (lit "region"));
  download_file net hospital_name url file_type region output_dir.

(** The exception, if any, that a row raises before a request is made
    for it, in the world where the loop reaches it: a [KeyError] for a
    column that the header lacks, a [TypeError] for a missing region,
    what [mkdir] raises for the region directory, a [TypeError] for a
    missing name, and what the extension resolver raises, in the order
    of the source. *)
Definition fatal_row `{Runtime} (output_dir : list (list N)) (st : state)
    (hospital : gmap (list N) (option (list N))) : option pyexc :=
  match hospital !! lit "hospital_name", hospital !! lit "mrf_download_url",
        hospital !! lit "file_type", hospital !! lit "region" with
  | None, _, _, _ => Some (KeyError (lit "hospital_name"))
  | _, None, _, _ => Some (KeyError (lit "mrf_download_url"))
  | _, _, None, _ => Some (KeyError (lit "file_type"))
  | _, _, _, None => Some (KeyError (lit "region"))
  | Some name, Some url, Some file_type, Some region =>
      match region with
      | None => Some TypeError
      | Some reg =>
          match mkdir_error (path_div output_dir (sanitize_filename reg)) st with
          | Some e => Some e
          | None =>
              match name with
              | None => Some TypeError
              | Some _ =>
                  match get_extension_from_url url file_type with
                  | Raises e => Some e
                  | _ => None
                  end
              end
          end
      end
  end.


(** The counters agree with the results. *)
Definition tally_ok (t : tally) : Prop :=
  successful t = length (filter (λ r, Result.success r = true) (results t))
  ∧ failed t = length (filter (λ r, Result.success r = false) (results t)).

(** The number of attempts in a row, from the k-th request on and among
    [budget] of them, that fail at the transport level. *)
Fixpoint leading_failures (net : nat → exchange) (k budget : nat) : nat :=
  match budget with
  | O => 0%nat
  | S budget' =>
      if transport_failure (net k) then S (leading_failures net (S k) budget') else 0%nat
  end.

(** What a call of [download_file] for [url] can add to the trace. *)
Definition fetch_event (url : option (list N)) (ev : event) : Prop :=
  match ev with
  | Get u => u = url
  | Sleep seconds => seconds = inject_Z 1 ∨ seconds = inject_Z 2
  | Print (OkLine _ _ _) | Print (FailLine _ _) => True
  | _ => False
  end.

(** The requests of a trace. *)
Definition is_get (ev : event) : bool :=
  match ev with Get _ => true | _ => false end.

(** The delay between two rows. *)
Definition is_delay (ev : event) : bool :=
  match ev with Sleep seconds => Qeq_bool seconds DELAY_BETWEEN_REQUESTS | _ => false end.

(** How many events of a trace satisfy [p]. *)
Definition count_events (p : event → bool) (tr : list event) : nat :=
  length (List.filter p tr).

(** The sum of the sizes of the results. *)
Definition total_size (rs : list Result.t) : N :=
  foldr (λ r n, Result.size r + n) 0 rs.

(** The progress line of a row. *)
Definition progress_of (ev : event) : option (nat * nat * option (list N)) :=
  match ev with
  | Print (Downloading i n name) => Some (i, n, name)
  | _ => None
  end.

(** A result agrees with the files: a success names, relative to the
    parent of the output directory, a file of the size that it gives; a
    failure names no file and has size 0. *)
Definition result_on_disk (output_dir : list (list N))
    (files : gmap (list (list N)) node) (r : Result.t) : Prop :=
  if Result.success r
  then ∃ l rel content,
         output_dir = parent output_dir ++ l
         ∧ Result.filename r = Some (path_str (l ++ rel))
         ∧ files !! (output_dir ++ rel) = Some (File content)
         ∧ Result.size r = N.of_nat (length content)
  else Result.filename r = None ∧ Result.size r = 0.

(** The columns of the manifest that [main] reads. *)
Definition required_columns : list (list N) :=
  [lit "hospital_name"; lit "mrf_download_url"; lit "file_type"; lit "region"].

(** ** Worlds and manifests of the examples *)

Definition empty_world : state := State ∅ 0 [].

Definition ok_response (body : transfer) : exchange := Response 200 (lit "OK") ∅ body.

Definition not_found : exchange := Response 404 (lit "Not Found") ∅ (Stream [] None).

(** A network that times out once and then delivers a two-byte body. *)
Definition timeout_then_ok (k : nat) : exchange :=
  match k with
  | O => GetRaises Timeout
  | S _ => ok_response (Stream [[Byte.x7b; Byte.x7d]] None)
  end.

(** A network that always delivers a two-byte body. *)
Definition always_ok (k : nat) : exchange :=
  ok_response (Stream [[Byte.x7b; Byte.x7d]] None).

(** A manifest of two well-formed rows. *)
Definition two_row_manifest : list (list (list N)) :=
  [ [lit "hospital_name"; lit "mrf_download_url"; lit "file_type"; lit "region"];
    [lit "Foo Clinic"; lit "https://example.org/foo.csv"; lit "CSV"; lit "A"];
    [lit "Bar Clinic"; lit "https://example.org/bar"; lit "API"; lit "B"] ].





(** * Properties *)

(** ** Characters and strings *)

(** Comparisons of code points, as propositions. *)
Ltac chars :=
  repeat match goal with
  | H : _ ∧ _ |- _ => destruct H
  | H : (_ || _)%bool = true |- _ => apply orb_true_iff in H; destruct H
  | H : (_ && _)%bool = true |- _ => apply andb_true_iff in H; destruct H
  | H : (_ || _)%bool = false |- _ => apply orb_false_iff in H; destruct H
  | H : (_ && _)%bool = false |- _ => apply andb_false_iff in H; destruct H
  | H : negb _ = true |- _ => apply negb_true_iff in H
  | H : negb _ = false |- _ => apply negb_false_iff in H
  | H : (_ =? _) = true |- _ => apply N.eqb_eq in H
  | H : (_ =? _) = false |- _ => apply N.eqb_neq in H
  | H : (_ <=? _) = true |- _ => apply N.leb_le in H
  | H : (_ <=? _) = false |- _ => apply N.leb_gt in H
  | H : (_ <? _) = true |- _ => apply N.ltb_lt in H
  | H : (_ <? _) = false |- _ => apply N.ltb_ge in H
  | H : false = true |- _ => discriminate H
  | H : true = false |- _ => discriminate H
  end.

(** Decides a comparison of code points from the hypotheses. *)
Ltac char_cases :=
  repeat (match goal with
  | |- context [?a =? ?b] => destruct (N.eqb_spec a b)
  | |- context [?a <=? ?b] => destruct (N.leb_spec a b)
  | |- context [?a <? ?b] => destruct (N.ltb_spec a b)
  | H : context [?a =? ?b] |- _ => destruct (N.eqb_spec a b)
  | H : context [?a <=? ?b] |- _ => destruct (N.leb_spec a b)
  | H : context [?a <? ?b] |- _ => destruct (N.ltb_spec a b)
  end; simpl in *); try reflexivity; try lia.

Section Sanitizer.
Context {rt : Runtime}.

Lemma sub_spaces_forall (P : N → Prop) b s :
  P 95 → Forall P s → Forall P (sub_spaces b s).
Proof.
  intros H95 Hs. revert b. induction Hs as [|c s Hc Hs IH]; intros b; simpl.
  - constructor.
  - destruct (uni_isspace c); [destruct b|]; auto.
Qed.

Lemma sub_spaces_id b s :
  Forall (λ c, uni_isspace c = false) s → sub_spaces b s = s.
Proof.
  intros Hs. revert b. induction Hs as [|c s Hc Hs IH]; intros b; simpl; [done|].
  rewrite Hc. by rewrite IH.
Qed.

Lemma filter_id {A} (P : A → Prop) `{∀ x, Decision (P x)} (l : list A) :
  Forall P l → filter P l = l.
Proof.
  induction 1 as [|x l Hx Hl IH]; [done|].
  rewrite filter_cons_True by done. by rewrite IH.
Qed.

Lemma Forall_filter_keep {A} (P Q : A → Prop) `{∀ x, Decision (Q x)} (l : list A) :
  Forall P l → Forall P (filter Q l).
Proof.
  rewrite !Forall_forall. intros Hl x Hx. apply list_elem_of_filter in Hx as [_ Hx]. auto.
Qed.

Lemma filter_none {A} (P : A → Prop) `{∀ x, Decision (P x)} (l : list A) :
  Forall (λ x, ¬ P x) l → filter P l = [].
Proof.
  induction 1 as [|x l Hx Hl IH]; [done|].
  by rewrite filter_cons_False.
Qed.

Lemma sanitize_filename_length name : (length (sanitize_filename name) ≤ 100)%nat.
Proof. unfold sanitize_filename. rewrite length_take. lia. Qed.

Hypothesis faithful : ascii_faithful rt.

Lemma kept_lower_safe c :
  c < 128 → is_word c || char_in c (lit "-_.") = true → safe_char (ascii_lower c) = true.
Proof.
  intros Hc. unfold is_word. rewrite (af_isalnum rt faithful c Hc).
  unfold safe_char, ascii_isalnum, ascii_lower, char_in.
  change (lit "-_.") with [45; 95; 46]. simpl.
  intros H. chars; subst; char_cases.
Qed.

Lemma safe_char_facts c :
  safe_char c = true →
  c < 128 ∧ char_in c (dquote :: lit "<>:/\|?*") = false ∧ uni_isspace c = false
  ∧ is_word c || char_in c (lit "-_.") = true ∧ ascii_lower c = c.
Proof.
  intros H.
  assert (Hc : c < 128).
  { revert H. unfold safe_char, char_in. change (lit "-_.") with [45; 95; 46]. simpl.
    intros H. chars; subst; lia. }
  unfold is_word. rewrite (af_isalnum rt faithful c Hc), (af_isspace rt faithful c Hc).
  revert H. unfold safe_char, ascii_isalnum, ascii_isspace, ascii_lower, char_in, dquote.
  change (lit "-_.") with [45; 95; 46].
  change (lit "<>:/\|?*") with [60; 62; 58; 47; 92; 124; 63; 42]. simpl.
  intros H. split; [done|]. chars; subst; repeat split; char_cases.
Qed.

(** On ASCII input the result is made of lowercase letters, digits,
    dashes, underscores and dots. *)
Lemma sanitize_filename_safe name :
  is_ascii name → Forall (λ c, safe_char c = true) (sanitize_filename name).
Proof.
  intros Hname. unfold sanitize_filename.
  set (a := filter _ name).
  assert (Ha : is_ascii a) by (by apply Forall_filter_keep).
  set (b := sub_spaces false a).
  assert (Hb : is_ascii b) by (apply sub_spaces_forall; [lia|done]).
  set (c := filter _ b).
  assert (Hc : Forall (λ c, c < 128 ∧ is_word c || char_in c (lit "-_.") = true) c).
  { apply Forall_forall. intros x Hx. apply list_elem_of_filter in Hx as [Hx Hin].
    split; [by eapply Forall_forall in Hb|]. by apply Is_true_true. }
  rewrite (af_lower rt faithful c).
  - apply Forall_take, Forall_fmap. eapply Forall_impl; [exact Hc|].
    intros x [Hx Hk]; simpl. by apply kept_lower_safe.
  - eapply Forall_impl; [exact Hc|]. by intros x [Hx _].
Qed.

(** A name that is already safe and short is left as it is. *)
Lemma sanitize_filename_fixed name :
  Forall (λ c, safe_char c = true) name → (length name ≤ 100)%nat →
  sanitize_filename name = name.
Proof.
  intros Hsafe Hlen. unfold sanitize_filename.
  assert (E1 : filter (λ c, ¬ char_in c (dquote :: lit "<>:/\|?*")) name = name).
  { apply filter_id. eapply Forall_impl; [exact Hsafe|]. intros c Hc; cbv beta.
    apply safe_char_facts in Hc as (_ & -> & _). by intros []. }
  rewrite E1.
  assert (E2 : sub_spaces false name = name).
  { apply sub_spaces_id. eapply Forall_impl; [exact Hsafe|]. intros c Hc; cbv beta.
    by apply safe_char_facts in Hc as (_ & _ & -> & _). }
  rewrite E2.
  assert (E3 : filter (λ c, is_word c || char_in c (lit "-_.")) name = name).
  { apply filter_id. eapply Forall_impl; [exact Hsafe|]. intros c Hc; cbv beta.
    apply safe_char_facts in Hc as (_ & _ & _ & Hk & _). by apply Is_true_true. }
  rewrite E3.
  rewrite (af_lower rt faithful).
  2:{ eapply Forall_impl; [exact Hsafe|]. intros c Hc; cbv beta.
      by apply safe_char_facts in Hc as (? & _). }
  rewrite take_ge by (by rewrite length_fmap).
  rewrite <- (list_fmap_id name) at 2. apply list_fmap_ext.
  intros i c Hc. apply (Forall_lookup_1 _ _ _ _ Hsafe) in Hc.
  by apply safe_char_facts in Hc as (_ & _ & _ & _ & ->).
Qed.

(** A name made of deleted characters only becomes the empty string. *)
Lemma sanitize_filename_invalid name :
  Forall (λ c, invalid_char c = true) name → sanitize_filename name = [].
Proof.
  intros Hinv. unfold sanitize_filename.
  set (a := filter _ name).
  assert (Ha : Forall (λ c, uni_isspace c = false
                            ∧ is_word c || char_in c (lit "-_.") = false) a).
  { apply Forall_forall. intros x Hx. apply list_elem_of_filter in Hx as [Hx Hin].
    eapply Forall_forall in Hinv; [|exact Hin]. simpl in Hinv.
    unfold invalid_char in Hinv. apply orb_true_iff in Hinv as [Hr|Hk].
    - rewrite Hr in Hx. by destruct Hx.
    - apply andb_true_iff in Hk as [H1 H2].
      by apply negb_true_iff in H1; apply negb_true_iff in H2. }
  rewrite sub_spaces_id by (eapply Forall_impl; [exact Ha|]; by intros c [? _]).
  rewrite filter_none.
  2:{ eapply Forall_impl; [exact Ha|]. intros c [_ Hk]; cbv beta. rewrite Hk. by intros []. }
  by rewrite (af_lower rt faithful []) by constructor.
Qed.

End Sanitizer.

(** ** Names and paths *)

Lemma lit_inj s1 s2 : lit s1 = lit s2 → s1 = s2.
Proof.
  unfold lit. intros H.
  rewrite <- (string_of_list_ascii_of_string s1), <- (string_of_list_ascii_of_string s2).
  f_equal. revert H. generalize (list_ascii_of_string s2).
  induction (list_ascii_of_string s1) as [|a l IH]; intros [|b l'] H;
    simpl in H; try discriminate; [done|].
  injection H as Hab Hl. f_equal; [|by apply IH].
  by rewrite <- (ascii_N_embedding a), <- (ascii_N_embedding b), Hab.
Qed.

Lemma pretty_N_go_digits x s :
  Forall is_digit (lit s) → Forall is_digit (lit (pretty_N_go x s)).
Proof.
  revert s. induction (N.lt_wf_0 x) as [x _ IH]; intros s Hs.
  assert (x = 0 ∨ 0 < x) as [->|Hx] by lia; [by rewrite pretty_N_go_0|].
  rewrite pretty_N_go_step by done. apply IH; [by apply N.div_lt|].
  change (lit (String ?c s)) with (N_of_ascii c :: lit s).
  constructor; [|done].
  unfold pretty_N_char, is_digit. repeat case_match; compute; split; congruence.
Qed.

Lemma str_of_nat_digits k : Forall is_digit (str_of_nat k).
Proof.
  unfold str_of_nat, pretty, pretty_nat, pretty, pretty_N.
  case_decide.
  - repeat constructor; compute; congruence.
  - apply pretty_N_go_digits. constructor.
Qed.

Lemma str_of_nat_inj j k : str_of_nat j = str_of_nat k → j = k.
Proof. unfold str_of_nat. intros H. apply lit_inj in H. by apply (inj pretty) in H. Qed.

Lemma split_on_app sep a :
  ∃ ia la, ∀ b hb tb, split_on sep b = hb :: tb →
    split_on sep (a ++ b) = ia ++ (la ++ hb) :: tb.
Proof.
  induction a as [|c a (ia & la & IH)].
  - exists [], []. intros b hb tb Hb. simpl. by rewrite Hb.
  - destruct (c =? sep) eqn:Hc.
    + exists ([] :: ia), la. intros b hb tb Hb. simpl. by rewrite Hc, (IH b hb tb Hb).
    + destruct ia as [|w ws].
      * exists [], (c :: la). intros b hb tb Hb. simpl. by rewrite Hc, (IH b hb tb Hb).
      * exists ((c :: w) :: ws), la. intros b hb tb Hb. simpl.
        by rewrite Hc, (IH b hb tb Hb).
Qed.

Lemma split_on_no_sep sep m b hb tb :
  Forall (λ c, c ≠ sep) m → split_on sep b = hb :: tb →
  split_on sep (m ++ b) = (m ++ hb) :: tb.
Proof.
  intros Hm Hb. induction Hm as [|c m Hc Hm IH]; [done|].
  simpl. apply N.eqb_neq in Hc. by rewrite Hc, IH.
Qed.

Lemma split_on_cons sep s : ∃ h t, split_on sep s = h :: t.
Proof.
  induction s as [|c s (h & t & IH)]; simpl; [by eauto|].
  destruct (c =? sep); [by eauto|]. rewrite IH. eauto.
Qed.

(** The paths of the numbered candidates differ in one part only, which
    holds the number; the path of the plain name has that part without
    a number, or lacks it. *)
Lemma candidate_path region_dir base_name actual_ext :
  ∃ pre la he post,
    (∀ k, path_div region_dir (candidate base_name actual_ext (S k))
          = pre ++ (la ++ lit "_" ++ str_of_nat (S k) ++ he) :: post)
    ∧ path_div region_dir (candidate base_name actual_ext 0)
      = pre ++ filter (λ w, w ≠ [] ∧ w ≠ lit ".") [la ++ he] ++ post.
Proof.
  destruct (split_on_app 47 base_name) as (ia & la & Hbase).
  destruct (split_on_cons 47 actual_ext) as (he & te & Hext).
  exists (region_dir ++ filter (λ w, w ≠ [] ∧ w ≠ lit ".") ia), la, he,
    (filter (λ w, w ≠ [] ∧ w ≠ lit ".") te).
  split.
  - intros k. unfold path_div, parts, candidate.
    rewrite (Hbase _ ((lit "_" ++ str_of_nat (S k)) ++ he) te).
    2:{ rewrite (app_assoc (lit "_") (str_of_nat (S k)) actual_ext).
        apply split_on_no_sep; [|done].
        apply Forall_app. split; [repeat constructor; compute; congruence|].
        eapply Forall_impl; [apply str_of_nat_digits|].
        intros c [H1 H2] ->. lia. }
    rewrite filter_app, filter_cons_True.
    + by rewrite <- !app_assoc.
    + split.
      * intros H. apply (f_equal length) in H. rewrite !length_app in H. simpl in H. lia.
      * intros H. apply (f_equal length) in H as Hlen. rewrite !length_app in Hlen.
        simpl in Hlen. destruct la; [|simpl in Hlen; lia]. simpl in H. discriminate H.
  - unfold path_div, parts, candidate. rewrite (Hbase _ he te Hext).
    rewrite filter_app, (filter_cons _ (la ++ he)), (filter_cons _ (la ++ he) []).
    rewrite filter_nil. rewrite <- !app_assoc. by destruct (decide _).
Qed.

Lemma candidate_path_inj region_dir base_name actual_ext j k :
  path_div region_dir (candidate base_name actual_ext (S j))
  = path_div region_dir (candidate base_name actual_ext (S k)) → j = k.
Proof.
  destruct (candidate_path region_dir base_name actual_ext)
    as (pre & la & he & post & H & _).
  rewrite !H. intros E. apply app_inv_head in E. injection E as E.
  apply app_inv_head in E. injection E as E. apply app_inv_tail in E.
  apply str_of_nat_inj in E. lia.
Qed.

Lemma candidate_path_plain region_dir base_name actual_ext k :
  path_div region_dir (candidate base_name actual_ext 0)
  ≠ path_div region_dir (candidate base_name actual_ext (S k)).
Proof.
  destruct (candidate_path region_dir base_name actual_ext)
    as (pre & la & he & post & H & H0).
  rewrite H, H0. intros E. apply app_inv_head in E.
  rewrite filter_cons, filter_nil in E. destruct (decide _) as [_|_].
  - injection E as E. apply app_inv_head in E.
    apply (f_equal length) in E. simpl in E. rewrite ?length_app in E. lia.
  - apply (f_equal length) in E. simpl in E. lia.
Qed.

(** ** The loop over duplicate filenames *)

Lemma exists_false st p : exists_ st p = false → fs st !! p = None.
Proof.
  unfold exists_. intros H. apply bool_decide_eq_false in H.
  by apply eq_None_not_Some.
Qed.

Lemma exists_true st p : exists_ st p = true ↔ is_Some (fs st !! p).
Proof. unfold exists_. apply bool_decide_eq_true. Qed.

Lemma while_exists_spec fuel st region_dir base_name actual_ext k filename :
  while_exists fuel st region_dir base_name actual_ext
    (candidate base_name actual_ext k) (S k) = Some filename →
  ∃ j, (k ≤ j)%nat ∧ filename = candidate base_name actual_ext j
    ∧ exists_ st (path_div region_dir filename) = false
    ∧ ∀ i, (k ≤ i < j)%nat →
        exists_ st (path_div region_dir (candidate base_name actual_ext i)) = true.
Proof.
  revert k. induction fuel as [|fuel IH]; intros k; cbn [while_exists]; [done|].
  destruct (exists_ st (path_div region_dir (candidate base_name actual_ext k))) eqn:Hk.
  - change (base_name ++ lit "_" ++ str_of_nat (S k) ++ actual_ext)
      with (candidate base_name actual_ext (S k)).
    intros H. apply IH in H as (j & Hj & -> & Hfree & Hbelow).
    exists j. repeat split; [lia|done|].
    intros i Hi. destruct (decide (i = k)) as [->|]; [done|]. apply Hbelow. lia.
  - intros [= <-]. exists k. repeat split; [lia|done|]. intros i Hi. lia.
Qed.

Lemma while_exists_enough fuel st region_dir base_name actual_ext k j :
  (k ≤ j < k + fuel)%nat →
  exists_ st (path_div region_dir (candidate base_name actual_ext j)) = false →
  is_Some (while_exists fuel st region_dir base_name actual_ext
             (candidate base_name actual_ext k) (S k)).
Proof.
  revert k. induction fuel as [|fuel IH]; intros k Hj Hfree; cbn [while_exists]; [lia|].
  destruct (exists_ st (path_div region_dir (candidate base_name actual_ext k))) eqn:Hk;
    [|by eauto].
  change (base_name ++ lit "_" ++ str_of_nat (S k) ++ actual_ext)
    with (candidate base_name actual_ext (S k)).
  apply IH; [|done]. destruct (decide (j = k)) as [->|]; [congruence|lia].
Qed.

(** A directory cannot hold all of the first [size + 1] numbered names. *)
Lemma free_candidate st region_dir base_name actual_ext :
  ∃ j, (1 ≤ j ≤ S (size (fs st)))%nat
    ∧ exists_ st (path_div region_dir (candidate base_name actual_ext j)) = false.
Proof.
  set (name := λ j, path_div region_dir (candidate base_name actual_ext (S j))).
  set (l := name <$> seq 0 (S (size (fs st)))).
  destruct (decide (Forall (λ p, exists_ st p = true) l)) as [Hall|Hsome].
  - exfalso.
    assert (Hnd : NoDup l).
    { apply NoDup_fmap_2_strong; [|apply NoDup_seq].
      intros i j _ _. apply candidate_path_inj. }
    assert (Hsub : list_to_set (C:=gset (list (list N))) l ⊆ dom (fs st)).
    { intros p Hp. apply elem_of_list_to_set in Hp. apply elem_of_dom.
      apply exists_true. by eapply Forall_forall in Hall. }
    apply subseteq_size in Hsub.
    rewrite size_list_to_set, size_dom in Hsub by done.
    unfold l in Hsub. rewrite length_fmap, length_seq in Hsub. lia.
  - apply not_Forall_Exists in Hsome; [|apply _].
    apply Exists_exists in Hsome as (p & Hin & Hp).
    apply list_elem_of_fmap in Hin as (j & -> & Hj). apply elem_of_seq in Hj.
    exists (S j). split; [lia|]. by apply not_true_is_false.
Qed.

Lemma while_exists_terminates st region_dir base_name actual_ext :
  ∃ j filename,
    while_exists (S (S (size (fs st)))) st region_dir base_name actual_ext
      (base_name ++ actual_ext) 1 = Some filename
    ∧ filename = candidate base_name actual_ext j
    ∧ exists_ st (path_div region_dir filename) = false
    ∧ ∀ i, (i < j)%nat →
        exists_ st (path_div region_dir (candidate base_name actual_ext i)) = true.
Proof.
  destruct (free_candidate st region_dir base_name actual_ext) as (j & Hj & Hfree).
  destruct (while_exists_enough (S (S (size (fs st)))) st region_dir base_name
              actual_ext 0 j) as [filename Hw]; [lia|done|].
  destruct (while_exists_spec _ _ _ _ _ _ _ Hw) as (j' & _ & -> & Hfree' & Hbelow).
  exists j', (candidate base_name actual_ext j'). repeat split; [done..|].
  intros i Hi. apply Hbelow. lia.
Qed.

(** ** Directories and logs *)

(** A node that is put at a free path, and is not a log, leaves the
    logs as they are. *)
Lemma logs_insert p n st :
  fs st !! p = None → is_sheet n = false →
  logs (set_fs (<[p := n]> (fs st)) st) = logs st.
Proof.
  intros Hp Hn. unfold logs. cbn [fs set_fs].
  rewrite map_filter_insert_False by (simpl; congruence). by rewrite delete_id.
Qed.

Lemma logs_fs st st' : fs st' = fs st → logs st' = logs st.
Proof. unfold logs. by intros ->. Qed.

Lemma makedirs_fs p st : fs st ⊆ fs (makedirs p st).
Proof.
  unfold makedirs. destruct (exists_ st p); [done|]. cbn [fs set_fs].
  apply map_union_subseteq_l.
Qed.

Lemma makedirs_exists p st : exists_ (makedirs p st) p = true.
Proof.
  unfold makedirs. destruct (exists_ st p) eqn:Hp; [done|].
  apply bool_decide_eq_true. cbn [fs set_fs]. apply lookup_union_is_Some. right.
  rewrite fmap_cons. cbn [list_to_map foldr]. rewrite lookup_insert_eq. by eexists.
Qed.

Lemma makedirs_dirs p st q n :
  fs (makedirs p st) !! q = Some n → fs st !! q = Some n ∨ n = Dir.
Proof.
  unfold makedirs. destruct (exists_ st p); [by left|]. cbn [fs set_fs].
  intros [H|[_ H]]%lookup_union_Some_raw; [by left|]. right.
  apply elem_of_list_to_map_2, list_elem_of_fmap in H as (q' & [= _ ->] & _). done.
Qed.

Lemma makedirs_same p st :
  calls (makedirs p st) = calls st ∧ trace (makedirs p st) = trace st
  ∧ logs (makedirs p st) = logs st.
Proof.
  split; [|split]; [unfold makedirs; by destruct (exists_ st p)..|].
  unfold logs. apply map_eq. intros q. rewrite !map_lookup_filter.
  pose proof (makedirs_fs p st) as Hsub.
  destruct (fs (makedirs p st) !! q) as [n|] eqn:E.
  - destruct (makedirs_dirs p st q n E) as [H| ->].
    + by rewrite H.
    + destruct (fs st !! q) as [n'|] eqn:E'.
      * rewrite (lookup_weaken _ _ _ _ E' Hsub) in E. by injection E as ->.
      * by cbn.
  - by rewrite (lookup_weaken_None _ _ _ E Hsub).
Qed.

Lemma makedirs_noop p st : exists_ st p = true → makedirs p st = st.
Proof. unfold makedirs. by intros ->. Qed.

(** [mkdir] does what [makedirs] does, unless it raises. *)
Lemma mkdir_ok p st : mkdir_error p st = None → mkdir p st = (Return tt, makedirs p st).
Proof. unfold mkdir. by intros ->. Qed.

Lemma mkdir_raises p st e : mkdir_error p st = Some e → mkdir p st = (Raises e, st).
Proof. unfold mkdir. by intros ->. Qed.


(** Once made, a directory can be made again, also after files have
    been added. *)
Lemma mkdir_error_dir p st : fs st !! p = Some Dir → mkdir_error p st = None.
Proof. unfold mkdir_error. by intros ->. Qed.

Lemma makedirs_dir p st : mkdir_error p st = None → fs (makedirs p st) !! p = Some Dir.
Proof.
  unfold mkdir_error, makedirs, exists_. destruct (fs st !! p) as [n|] eqn:E.
  - rewrite bool_decide_eq_true_2 by (by eexists). by destruct n.
  - rewrite bool_decide_eq_false_2 by (by intros [? ?]). intros _. cbn [fs set_fs].
    rewrite lookup_union_r by done. rewrite fmap_cons. cbn [list_to_map foldr].
    by rewrite lookup_insert_eq.
Qed.

(** ** One attempt *)

Lemma relative_to_app p r : relative_to (p ++ r) p = Some r.
Proof.
  induction p as [|c p IH]; simpl; [by destruct r|]. by rewrite decide_True.
Qed.

(** The destination is always under the parent of the output directory:
    [relative_to] does not raise. *)
Lemma relative_to_filepath output_dir mid filename :
  ∃ l, output_dir = parent output_dir ++ l
    ∧ relative_to (path_div (output_dir ++ mid) filename) (parent output_dir)
      = Some (l ++ mid ++ parts filename).
Proof.
  assert (∃ l, output_dir = parent output_dir ++ l) as [l Hl].
  { unfold parent. destruct output_dir as [|c p]; [by exists []|].
    exists [List.last (c :: p) []]. by apply app_removelast_last. }
  exists l. split; [done|]. unfold path_div.
  rewrite Hl at 1. rewrite <- !app_assoc. apply relative_to_app.
Qed.

Section Attempt.
Context {rt : Runtime} (net : nat → exchange).

(** An attempt that raises leaves the result as it was. *)
Lemma try_download_raised url region_dir output_dir base_name expected_ext result st e :
  raised_by (net (calls st)) = Some e →
  ∃ st', try_download net url region_dir output_dir base_name expected_ext result st
         = (Raised e, result, st')
    ∧ calls st' = S (calls st) ∧ trace st' = trace st ++ [Get url]
    ∧ logs st' = logs st ∧ fs st ⊆ fs st'.
Proof.
  unfold try_download, raised_by.
  destruct (net (calls st)) as [x|status_code reason headers body].
  - intros [= ->]. eexists. by repeat split.
  - destruct (is_error_status status_code).
    { intros [= <-]. eexists. by repeat split. }
    set (st1 := emit (Get url) (count_call st)).
    destruct (while_exists_terminates st1 region_dir base_name
                (get_extension_from_response headers expected_ext))
      as (j & filename & -> & _ & Hfree & _).
    destruct body as [msg|chunks fault].
    { intros [= <-]. eexists. by repeat split. }
    intros ->. apply exists_false in Hfree. eexists. split; [reflexivity|].
    split; [done|]. split; [done|]. split.
    + exact (logs_insert _ (File _) st1 Hfree eq_refl).
    + simpl. by apply insert_subseteq.
Qed.

(** An attempt that raises nothing returns the filled-in result, having
    written the body under the first free name. *)
Lemma try_download_returned url output_dir mid base_name expected_ext result st :
  raised_by (net (calls st)) = None →
  ∃ status_code reason headers chunks j l,
    net (calls st) = Response status_code reason headers (Stream chunks None)
    ∧ is_error_status status_code = false
    ∧ output_dir = parent output_dir ++ l
    ∧ let actual_ext := get_extension_from_response headers expected_ext in
      let region_dir := output_dir ++ mid in
      let filename := candidate base_name actual_ext j in
      let filepath := path_div region_dir filename in
      let total_size := N.of_nat (length (written chunks)) in
      fs st !! filepath = None
      ∧ (∀ i, (i < j)%nat →
           is_Some (fs st !! path_div region_dir (candidate base_name actual_ext i)))
      ∧ try_download net url region_dir output_dir base_name expected_ext result st
        = (Returned,
           Result.mk (Result.hospital result) (Result.url result) true
             (Some (path_str (l ++ mid ++ parts filename))) (Result.error result)
             total_size,
           State (<[filepath := File (written chunks)]> (fs st)) (S (calls st))
             (trace st ++ [Get url; Print (OkLine (Result.hospital result) filename total_size)])).
Proof.
  unfold try_download, raised_by.
  destruct (net (calls st)) as [x|status_code reason headers body]; [done|].
  destruct (is_error_status status_code) eqn:Hstatus; [done|].
  destruct body as [msg|chunks fault]; [done|]. intros ->.
  set (st1 := emit (Get url) (count_call st)).
  destruct (while_exists_terminates st1 (output_dir ++ mid) base_name
              (get_extension_from_response headers expected_ext))
    as (j & filename & Hw & -> & Hfree & Hbelow).
  destruct (relative_to_filepath output_dir mid
              (candidate base_name (get_extension_from_response headers expected_ext) j))
    as (l & Hl & Hrel).
  exists status_code, reason, headers, chunks, j, l.
  split; [done|]. split; [done|]. split; [done|]. cbv zeta.
  split; [by apply exists_false in Hfree|]. split.
  - intros i Hi. apply Hbelow in Hi. by apply exists_true in Hi.
  - rewrite Hw, Hrel. unfold emit, set_fs; simpl. by rewrite <- app_assoc.
Qed.

End Attempt.

(** ** The retry loop *)

Section Loop.
Context {rt : Runtime} (net : nat → exchange).

Lemma for_attempts_cons attempt rest url region_dir output_dir base_name expected_ext
    result st :
  for_attempts net (attempt :: rest) url region_dir output_dir base_name expected_ext
    result st
  = match try_download net url region_dir output_dir base_name expected_ext result st with
    | (Returned, result, st) => (ReturnedResult, result, st)
    | (Spinning, result, st) => (Stuck, result, st)
    | (Raised e, result, st) =>
        let result := Result.set_error (Some (error_message attempt e)) result in
        match e with
        | Timeout | RequestException _ =>
            for_attempts net rest url region_dir output_dir base_name expected_ext
              result (backoff attempt st)
        | HTTPError _ _ | Exception _ => (FellThrough, result, st)
        end
    end.
Proof.
  cbn [for_attempts].
  destruct (try_download _ _ _ _ _ _ _ _) as [[[|e|] r] st']; [done| |done].
  by destruct e.
Qed.

(** What the [except] clauses do with an exception: two of them leave
    the loop, two go on after the backoff. *)
Lemma for_attempts_raised attempt rest url region_dir output_dir base_name expected_ext
    result st e :
  raised_by (net (calls st)) = Some e →
  ∃ st', calls st' = S (calls st) ∧ trace st' = trace st ++ [Get url]
    ∧ logs st' = logs st ∧ fs st ⊆ fs st'
    ∧ for_attempts net (attempt :: rest) url region_dir output_dir base_name
        expected_ext result st
      = let result' := Result.set_error (Some (error_message attempt e)) result in
        match e with
        | Timeout | RequestException _ =>
            for_attempts net rest url region_dir output_dir base_name expected_ext
              result' (backoff attempt st')
        | HTTPError _ _ | Exception _ => (FellThrough, result', st')
        end.
Proof.
  intros He.
  destruct (try_download_raised net url region_dir output_dir base_name expected_ext
              result st e He) as (st' & Htry & Hcalls & Htrace & Hlog & Hfs).
  exists st'. repeat split; [done..|].
  cbn [for_attempts]. rewrite Htry. by destruct e.
Qed.

Lemma backoff_fs attempt st : fs (backoff attempt st) = fs st.
Proof. unfold backoff. by destruct (_ <? _)%nat. Qed.

Lemma backoff_calls attempt st : calls (backoff attempt st) = calls st.
Proof. unfold backoff. by destruct (_ <? _)%nat. Qed.

Lemma backoff_logs attempt st : logs (backoff attempt st) = logs st.
Proof. unfold backoff. by destruct (_ <? _)%nat. Qed.

(** The loop always ends, keeps every file that was there, and ends by
    its [return] exactly when it marks the result as a success. *)
Lemma for_attempts_inv attempts url output_dir mid base_name expected_ext result st :
  ∃ e r st',
    for_attempts net attempts url (output_dir ++ mid) output_dir base_name
      expected_ext result st = (e, r, st')
    ∧ fs st ⊆ fs st' ∧ logs st' = logs st ∧ (calls st ≤ calls st')%nat
    ∧ Result.hospital r = Result.hospital result ∧ Result.url r = Result.url result
    ∧ match e with
      | ReturnedResult =>
          Result.success r = true ∧ is_Some (Result.filename r)
      | FellThrough =>
          Result.success r = Result.success result
          ∧ Result.filename r = Result.filename result
          ∧ Result.size r = Result.size result
          ∧ (attempts ≠ [] → is_Some (Result.error r))
      | Stuck => False
      end.
Proof.
  revert result st. induction attempts as [|attempt rest IH]; intros result st.
  { exists FellThrough, result, st. by repeat split. }
  destruct (raised_by (net (calls st))) as [e|] eqn:He.
  - destruct (for_attempts_raised attempt rest url (output_dir ++ mid) output_dir
                base_name expected_ext result st e He)
      as (st' & Hcalls & Htrace & Hlog & Hfs & ->).
    cbv zeta.
    set (result' := Result.set_error (Some (error_message attempt e)) result).
    assert (Hgo : ∃ e0 r st'',
      for_attempts net rest url (output_dir ++ mid) output_dir base_name expected_ext
        result' (backoff attempt st') = (e0, r, st'')
      ∧ fs st ⊆ fs st'' ∧ logs st'' = logs st ∧ (calls st ≤ calls st'')%nat
      ∧ Result.hospital r = Result.hospital result ∧ Result.url r = Result.url result
      ∧ match e0 with
        | ReturnedResult => Result.success r = true ∧ is_Some (Result.filename r)
        | FellThrough =>
            Result.success r = Result.success result
            ∧ Result.filename r = Result.filename result
            ∧ Result.size r = Result.size result
            ∧ (attempt :: rest ≠ [] → is_Some (Result.error r))
        | Stuck => False
        end).
    { destruct (IH result' (backoff attempt st'))
        as (e0 & r & st'' & Hrun & Hfs' & Hlog' & Hcalls' & Hh & Hu & Hend).
      rewrite backoff_fs in Hfs'. rewrite backoff_logs in Hlog'.
      rewrite backoff_calls in Hcalls'.
      exists e0, r, st''. split; [done|]. split; [by etrans|].
      split; [congruence|]. split; [lia|]. split; [done|]. split; [done|].
      destruct e0; [done| |done].
      destruct Hend as (Hs & Hf & Hz & Herr). repeat split; [done..|].
      intros _. destruct rest as [|a rest']; [|by apply Herr].
      cbn [for_attempts] in Hrun. injection Hrun as <- _. by eexists. }
    destruct e; [exact Hgo| |exact Hgo|].
    + exists FellThrough, result', st'. repeat split; [done..|lia|by eexists].
    + exists FellThrough, result', st'. repeat split; [done..|lia|by eexists].
  - destruct (try_download_returned net url output_dir mid base_name expected_ext
                result st He)
      as (status_code & reason & headers & chunks & j & l & _ & _ & _ & Hfree & _ & Htry).
    cbn [for_attempts]. rewrite Htry. eexists _, _, _. split; [done|].
    split; [simpl; by apply insert_subseteq|].
    split; [exact (logs_insert _ (File _) st Hfree eq_refl)|].
    simpl. repeat split; [lia|by eexists].
Qed.

End Loop.

(** ** The fetcher *)

Section Fetcher.
Context {rt : Runtime} (net : nat → exchange).

Lemma get_extension_from_url_fuel url file_type :
  get_extension_from_url url file_type ≠ OutOfFuel.
Proof.
  unfold get_extension_from_url.
  destruct (url_path url); [|done]. repeat case_match; done.
Qed.

(** What [download_file] does before its loop. *)
Lemma prepare_inv hospital_name url file_type region output_dir st :
  match prepare hospital_name url file_type region output_dir st with
  | (Return (region_dir, base_name, expected_ext), st0) =>
      ∃ name reg, hospital_name = Some name ∧ region = Some reg
        ∧ region_dir = output_dir ++ parts (sanitize_filename reg)
        ∧ base_name = sanitize_filename name
        ∧ get_extension_from_url url file_type = Return expected_ext
        ∧ st0 = makedirs region_dir st
        ∧ mkdir_error region_dir st = None
  | (Raises e, st0) =>
      calls st0 = calls st ∧ trace st0 = trace st ∧ logs st0 = logs st
      ∧ fs st ⊆ fs st0
      ∧ (region = None ∧ e = TypeError
         ∨ (∃ reg, region = Some reg
              ∧ mkdir_error (output_dir ++ parts (sanitize_filename reg)) st = Some e)
         ∨ hospital_name = None ∧ e = TypeError
         ∨ get_extension_from_url url file_type = Raises e)
  | (OutOfFuel, _) => False
  end.
Proof.
  unfold prepare. destruct region as [reg|]; [|by repeat split; auto].
  change (path_div output_dir (sanitize_filename reg))
    with (output_dir ++ parts (sanitize_filename reg)).
  unfold mkdir.
  destruct (mkdir_error (output_dir ++ parts (sanitize_filename reg)) st) as [e|] eqn:Hmk.
  { split_and!; [done..|]. right. left. by exists reg. }
  destruct (makedirs_same (output_dir ++ parts (sanitize_filename reg)) st) as (? & ? & ?).
  pose proof (makedirs_fs (output_dir ++ parts (sanitize_filename reg)) st).
  destruct hospital_name as [name|]; [|by split_and!; auto].
  destruct (get_extension_from_url url file_type) as [ext|e|] eqn:Hext.
  - by exists name, reg.
  - split_and!; auto.
  - by apply get_extension_from_url_fuel in Hext.
Qed.

(** The fetcher never spins, keeps the files that were there, and
    returns either a success with its path or a failure with its error,
    no path and size 0; when it raises, no request was made. *)
Lemma download_file_inv hospital_name url file_type region output_dir st :
  ∃ o st', download_file net hospital_name url file_type region output_dir st = (o, st')
    ∧ logs st' = logs st ∧ fs st ⊆ fs st'
    ∧ match o with
      | Return r =>
          Result.hospital r = hospital_name ∧ Result.url r = url
          ∧ (Result.success r = true ∧ is_Some (Result.filename r)
             ∨ Result.success r = false ∧ Result.filename r = None
               ∧ Result.size r = 0 ∧ is_Some (Result.error r))
      | Raises e =>
          calls st' = calls st ∧ trace st' = trace st
          ∧ prepare hospital_name url file_type region output_dir st = (Raises e, st')
      | OutOfFuel => False
      end.
Proof.
  unfold download_file.
  pose proof (prepare_inv hospital_name url file_type region output_dir st) as Hprep.
  destruct (prepare hospital_name url file_type region output_dir st)
    as [[[[region_dir base_name] expected_ext]|e|] st0]; [| |done].
  - destruct Hprep as (name & reg & -> & -> & -> & -> & Hext & -> & _).
    destruct (makedirs_same (output_dir ++ parts (sanitize_filename reg)) st)
      as (Hc & Ht & Hl).
    destruct (for_attempts_inv net (seq 0 RETRY_ATTEMPTS) url output_dir
                (parts (sanitize_filename reg)) (sanitize_filename name) expected_ext
                (Result.mk (Some name) url false None None 0)
                (makedirs (output_dir ++ parts (sanitize_filename reg)) st))
      as (e & r & st' & -> & Hfs & Hlog & Hcalls & Hh & Hu & Hend).
    assert (Hfs' : fs st ⊆ fs st') by (etrans; [apply makedirs_fs|done]).
    destruct e; [| |done].
    + eexists _, _. split; [done|]. split; [exact (eq_trans Hlog Hl)|]. split; [done|].
      repeat split; [done..|]. by left.
    + eexists _, _. split; [done|]. split; [exact (eq_trans Hlog Hl)|]. split; [done|].
      destruct Hend as (Hs & Hf & Hz & Herr).
      repeat split; [done..|]. right. repeat split; [done..|]. by apply Herr.
  - destruct Hprep as (Hc & Ht & Hl & Hfs & _). eexists _, _. by repeat split.
Qed.

(** A step of the loop that is retried. *)
Lemma for_attempts_retry attempt rest url region_dir output_dir base_name expected_ext
    result st :
  transport_failure (net (calls st)) = true →
  ∃ e st', raised_by (net (calls st)) = Some e
    ∧ calls st' = S (calls st) ∧ trace st' = trace st ++ [Get url]
    ∧ for_attempts net (attempt :: rest) url region_dir output_dir base_name
        expected_ext result st
      = for_attempts net rest url region_dir output_dir base_name expected_ext
          (Result.set_error (Some (error_message attempt e)) result)
          (backoff attempt st').
Proof.
  unfold transport_failure. destruct (raised_by (net (calls st))) as [e|] eqn:He; [|done].
  intros Ht.
  destruct (for_attempts_raised net attempt rest url region_dir output_dir base_name
              expected_ext result st e He) as (st' & Hc & Htr & _ & _ & Hrun).
  exists e, st'. repeat split; [done..|]. rewrite Hrun. by destruct e.
Qed.

End Fetcher.

Section FetcherClaims.
Context {rt : Runtime} (net : nat → exchange).

Lemma get_extension_from_url_parsed u file_type path :
  url_path (Some u) = Parsed path →
  ∃ ext, get_extension_from_url (Some u) (Some file_type) = Return ext.
Proof.
  intros Hp. unfold get_extension_from_url. rewrite Hp. repeat case_match; by eexists.
Qed.

Lemma prepare_strings name u file_type region path output_dir st :
  url_path (Some u) = Parsed path →
  mkdir_error (path_div output_dir (sanitize_filename region)) st = None →
  ∃ ext, get_extension_from_url (Some u) (Some file_type) = Return ext
    ∧ prepare (Some name) (Some u) (Some file_type) (Some region) output_dir st
      = (Return (output_dir ++ parts (sanitize_filename region),
                 sanitize_filename name, ext),
         makedirs (output_dir ++ parts (sanitize_filename region)) st).
Proof.
  intros Hp Hmk. destruct (get_extension_from_url_parsed u file_type path Hp) as [ext Hext].
  exists ext. split; [done|]. unfold prepare. by rewrite (mkdir_ok _ _ Hmk), Hext.
Qed.

(** What the loop does with three failures at the transport level, and
    with an HTTP error status on the first attempt. *)
Lemma download_file_retries (name u file_type region path : list N)
    (output_dir : list (list N)) (st : state) :
  url_path (Some u) = Parsed path →
  mkdir_error (path_div output_dir (sanitize_filename region)) st = None →
  let k := calls st in
  let run := download_file net (Some name) (Some u) (Some file_type) (Some region)
               output_dir st in
  (transport_failure (net k) = true → transport_failure (net (S k)) = true →
   transport_failure (net (S (S k))) = true →
   ∃ e r st', raised_by (net (S (S k))) = Some e ∧ run = (Return r, st')
     ∧ Result.success r = false ∧ Result.filename r = None
     ∧ Result.error r = Some (error_message 2 e)
     ∧ calls st' = (k + 3)%nat
     ∧ trace st' = trace st ++
         [ Get (Some u); Sleep (inject_Z (2 ^ 0));
           Get (Some u); Sleep (inject_Z (2 ^ 1));
           Get (Some u); Print (FailLine (Some name) (Result.error r)) ])
  ∧ (∀ status_code reason headers body,
       net k = Response status_code reason headers body →
       is_error_status status_code = true →
       ∃ st',
         run = (Return (Result.mk (Some name) (Some u) false None
                          (Some (http_message status_code reason)) 0), st')
         ∧ calls st' = S k
         ∧ trace st' = trace st ++
             [ Get (Some u);
               Print (FailLine (Some name) (Some (http_message status_code reason))) ]).
Proof.
  intros Hp Hmk k run.
  destruct (prepare_strings name u file_type region path output_dir st Hp Hmk)
    as (ext & _ & Hprep).
  set (region_dir := output_dir ++ parts (sanitize_filename region)) in *.
  destruct (makedirs_same region_dir st) as (Hc0 & Ht0 & _).
  split.
  - intros H1 H2 H3. subst run. unfold download_file. rewrite Hprep.
    change (seq 0 RETRY_ATTEMPTS) with [0; 1; 2]%nat.
    fold k in Hc0. rewrite <- Hc0 in H1.
    set (r0 := Result.mk (Some name) (Some u) false None None 0).
    destruct (for_attempts_retry net 0%nat [1; 2]%nat (Some u) region_dir output_dir
                (sanitize_filename name) ext r0 (makedirs region_dir st) H1)
      as (e1 & st1 & _ & Hc1 & Ht1 & ->).
    set (r1 := Result.set_error (Some (error_message 0 e1)) r0).
    assert (H2' : transport_failure (net (calls (backoff 0 st1))) = true)
      by (rewrite backoff_calls, Hc1, Hc0; exact H2).
    destruct (for_attempts_retry net 1%nat [2]%nat (Some u) region_dir output_dir
                (sanitize_filename name) ext r1 (backoff 0 st1) H2')
      as (e2 & st2 & _ & Hc2 & Ht2 & ->).
    set (r2 := Result.set_error (Some (error_message 1 e2)) r1).
    assert (H3' : transport_failure (net (calls (backoff 1 st2))) = true)
      by (rewrite backoff_calls, Hc2, backoff_calls, Hc1, Hc0; exact H3).
    destruct (for_attempts_retry net 2%nat []%nat (Some u) region_dir output_dir
                (sanitize_filename name) ext r2 (backoff 1 st2) H3')
      as (e3 & st3 & He3 & Hc3 & Ht3 & ->).
    rewrite backoff_calls, Hc2, backoff_calls, Hc1, Hc0 in He3, Hc3.
    exists e3. eexists _, _. split; [exact He3|]. split; [reflexivity|].
    cbn [for_attempts]. repeat split.
    + change (backoff 2 st3) with st3. unfold emit; cbn [calls].
      rewrite Hc3. unfold k. lia.
    + change (backoff 2 st3) with st3. unfold emit at 1; cbn [trace]. rewrite Ht3.
      change (backoff 1 st2) with (sleep (inject_Z (2 ^ 1)) st2).
      unfold sleep, emit at 1; cbn [trace]. rewrite Ht2.
      change (backoff 0 st1) with (sleep (inject_Z (2 ^ 0)) st1).
      unfold sleep, emit at 1; cbn [trace]. rewrite Ht1, Ht0.
      by rewrite <- !app_assoc.
  - intros status_code reason headers body Hnet Hstatus. subst run.
    unfold download_file. rewrite Hprep.
    change (seq 0 RETRY_ATTEMPTS) with [0; 1; 2]%nat.
    assert (He : raised_by (net (calls (makedirs region_dir st)))
                 = Some (HTTPError status_code reason)).
    { rewrite Hc0. fold k. rewrite Hnet. unfold raised_by. by rewrite Hstatus. }
    destruct (for_attempts_raised net 0%nat [1; 2]%nat (Some u) region_dir output_dir
                (sanitize_filename name) ext
                (Result.mk (Some name) (Some u) false None None 0)
                (makedirs region_dir st) _ He)
      as (st1 & Hc1 & Ht1 & _ & _ & ->).
    cbv zeta. eexists. split; [reflexivity|]. unfold emit; cbn [calls trace].
    rewrite Hc1, Ht1, Hc0, Ht0. split; [done|]. by rewrite <- app_assoc.
Qed.

(** C1: a row whose three attempts fail at the transport level, each
    with a timeout or another exception of [requests] that is not an
    HTTP error, is requested exactly 3 times, with waits of 2^0 and 2^1
    seconds between the attempts and none after the last, and gives a
    failed result whose error is that of the third failure (for a
    timeout the text with the attempt number 3/3); a row whose first
    attempt is answered with a status code from 400 to 599 is requested
    once, without a wait, and gives a failed result whose error is the
    text HTTP, the status code and the reason. *)
Theorem retry_state_machine (name u file_type region path : list N)
    (output_dir : list (list N)) (st : state) :
  url_path (Some u) = Parsed path →
  mkdir_error (path_div output_dir (sanitize_filename region)) st = None →
  let k := calls st in
  let run := download_file net (Some name) (Some u) (Some file_type) (Some region)
               output_dir st in
  (∀ e0 e1 e2,
     raised_by (net k) = Some e0 → raised_by (net (S k)) = Some e1 →
     raised_by (net (S (S k))) = Some e2 →
     (e0 = Timeout ∨ ∃ msg, e0 = RequestException msg) →
     (e1 = Timeout ∨ ∃ msg, e1 = RequestException msg) →
     (e2 = Timeout ∨ ∃ msg, e2 = RequestException msg) →
     ∃ r st', run = (Return r, st')
       ∧ Result.success r = false ∧ Result.filename r = None ∧ Result.size r = 0
       ∧ (e2 = Timeout → Result.error r = Some (lit "Timeout after 120s (attempt 3/3)"))
       ∧ (∀ msg, e2 = RequestException msg → Result.error r = Some msg)
       ∧ calls st' = (k + 3)%nat
       ∧ trace st' = trace st ++
           [ Get (Some u); Sleep (inject_Z (2 ^ 0));
             Get (Some u); Sleep (inject_Z (2 ^ 1));
             Get (Some u); Print (FailLine (Some name) (Result.error r)) ])
  ∧ (∀ status_code reason headers body,
       net k = Response status_code reason headers body →
       400 ≤ status_code → status_code < 600 →
       let error := lit "HTTP " ++ str_of_N status_code ++ lit ": " ++ reason in
       ∃ st',
         run = (Return (Result.mk (Some name) (Some u) false None (Some error) 0), st')
         ∧ calls st' = S k
         ∧ trace st' = trace st ++
             [ Get (Some u); Print (FailLine (Some name) (Some error)) ]).
Proof.
  intros Hp Hmk k run.
  destruct (download_file_retries name u file_type region path output_dir st Hp Hmk)
    as [Hretry Hhttp].
  assert (Htransport : ∀ x e, raised_by x = Some e →
            (e = Timeout ∨ ∃ msg, e = RequestException msg) → transport_failure x = true).
  { intros x e He Hshape. unfold transport_failure. rewrite He.
    by destruct Hshape as [->|[msg ->]]. }
  split.
  - intros e0 e1 e2 H0 H1 H2 S0 S1 S2.
    destruct (Hretry (Htransport _ _ H0 S0) (Htransport _ _ H1 S1) (Htransport _ _ H2 S2))
      as (e & r & st' & He & Hrun & Hs & Hf & Herr & Hc & Ht).
    fold k in He. rewrite H2 in He. injection He as <-.
    assert (Hz : Result.size r = 0).
    { destruct (download_file_inv net (Some name) (Some u) (Some file_type) (Some region)
                  output_dir st) as (o & st'' & Hrun' & _ & _ & Hinv).
      pose proof (eq_trans (eq_sym Hrun') Hrun) as E. injection E as -> ->.
      destruct Hinv as (_ & _ & [[Hs' _]|(_ & _ & Hz & _)]); [congruence|done]. }
    exists r, st'. split; [exact Hrun|]. split; [done|]. split; [done|]. split; [done|].
    split; [|split; [|by split]].
    + intros ->. by rewrite Herr.
    + intros msg ->. by rewrite Herr.
  - intros status_code reason headers body Hnet Hlo Hhi error.
    apply (Hhttp status_code reason headers body Hnet).
    unfold is_error_status. apply andb_true_intro. split.
    + by apply N.leb_le.
    + by apply N.ltb_lt.
Qed.

End FetcherClaims.

Section Destination.
Context {rt : Runtime} (net : nat → exchange).

(** A stream that fails leaves what it wrote under the name chosen for
    it, a name that was free. *)
Lemma try_download_stream_fault url region_dir output_dir base_name expected_ext result st
    status_code reason headers chunks e :
  net (calls st) = Response status_code reason headers (Stream chunks (Some e)) →
  is_error_status status_code = false →
  ∃ j st',
    let filepath := path_div region_dir
      (candidate base_name (get_extension_from_response headers expected_ext) j) in
    try_download net url region_dir output_dir base_name expected_ext result st
      = (Raised e, result, st')
    ∧ fs st !! filepath = None
    ∧ fs st' = <[filepath := File (written chunks)]> (fs st).
Proof.
  intros Hnet Hstatus. unfold try_download. rewrite Hnet, Hstatus.
  set (st1 := emit (Get url) (count_call st)).
  destruct (while_exists_terminates st1 region_dir base_name
              (get_extension_from_response headers expected_ext))
    as (j & filename & -> & -> & Hfree & _).
  exists j. eexists. split; [reflexivity|]. split; [|done].
  by apply exists_false in Hfree.
Qed.

(** A row whose first attempt succeeds. *)
Lemma download_file_first_success name u file_type region output_dir st
    expected_ext status_code reason headers chunks :
  mkdir_error (path_div output_dir (sanitize_filename region)) st = None →
  get_extension_from_url (Some u) (Some file_type) = Return expected_ext →
  net (calls st) = Response status_code reason headers (Stream chunks None) →
  is_error_status status_code = false →
  ∃ j l,
    let region_dir := output_dir ++ parts (sanitize_filename region) in
    let st0 := makedirs region_dir st in
    let actual_ext := get_extension_from_response headers expected_ext in
    let filename := candidate (sanitize_filename name) actual_ext j in
    let filepath := path_div region_dir filename in
    let total_size := N.of_nat (length (written chunks)) in
    output_dir = parent output_dir ++ l
    ∧ fs st0 !! filepath = None
    ∧ (∀ i, (i < j)%nat →
         is_Some (fs st0 !! path_div region_dir
                    (candidate (sanitize_filename name) actual_ext i)))
    ∧ download_file net (Some name) (Some u) (Some file_type) (Some region) output_dir st
      = (Return (Result.mk (Some name) (Some u) true
                   (Some (path_str (l ++ parts (sanitize_filename region) ++ parts filename)))
                   None total_size),
         State (<[filepath := File (written chunks)]> (fs st0)) (S (calls st))
           (trace st ++ [Get (Some u); Print (OkLine (Some name) filename total_size)])).
Proof.
  intros Hmk Hext Hnet Hstatus.
  destruct (makedirs_same (output_dir ++ parts (sanitize_filename region)) st)
    as (Hc & Ht & Hl).
  assert (He : raised_by (net (calls (makedirs (output_dir ++ parts (sanitize_filename region))
                                        st))) = None).
  { rewrite Hc, Hnet. unfold raised_by. by rewrite Hstatus. }
  destruct (try_download_returned net (Some u) output_dir
              (parts (sanitize_filename region)) (sanitize_filename name) expected_ext
              (Result.mk (Some name) (Some u) false None None 0)
              (makedirs (output_dir ++ parts (sanitize_filename region)) st) He)
    as (sc & rs & hs & cs & j & l & Hnet' & _ & Hl' & Htry).
  rewrite Hc, Hnet in Hnet'. injection Hnet' as <- <- <- <-.
  cbv zeta in Htry. destruct Htry as (Hfree & Hbelow & Htry).
  exists j, l. cbv zeta. split; [done|]. split; [done|]. split; [done|].
  unfold download_file, prepare. rewrite (mkdir_ok _ _ Hmk), Hext.
  change (seq 0 RETRY_ATTEMPTS) with [0; 1; 2]%nat. cbn [for_attempts].
  change (path_div output_dir (sanitize_filename region))
    with (output_dir ++ parts (sanitize_filename region)).
  rewrite Htry. by rewrite Hc, Ht.
Qed.

End Destination.

Section DestinationClaims.
Context {rt : Runtime} (net : nat → exchange).

(** C10: a failed result has size 0, also when the body had begun to
    arrive: the bytes written before the stream failed stay in the
    destination file, and the counter of the attempt is dropped. *)
Theorem failed_result_size_zero :
  (∀ hospital_name url file_type region output_dir st r st',
     download_file net hospital_name url file_type region output_dir st = (Return r, st') →
     Result.success r = false → Result.size r = 0)
  ∧ (∀ name u file_type region path output_dir st status_code reason headers chunks e,
       url_path (Some u) = Parsed path →
       mkdir_error (path_div output_dir (sanitize_filename region)) st = None →
       net (calls st) = Response status_code reason headers (Stream chunks (Some e)) →
       is_error_status status_code = false →
       ∃ filepath r st',
         download_file net (Some name) (Some u) (Some file_type) (Some region) output_dir st
           = (Return r, st')
         ∧ fs st !! filepath = None
         ∧ fs st' !! filepath = Some (File (written chunks))
         ∧ (transport_failure (net (calls st)) = false → Result.success r = false)
         ∧ (Result.success r = false → Result.size r = 0)).
Proof.
  split.
  - intros hospital_name url file_type region output_dir st r st' Hrun Hfail.
    destruct (download_file_inv net hospital_name url file_type region output_dir st)
      as (o & st'' & Hrun' & _ & _ & Hinv).
    rewrite Hrun in Hrun'. injection Hrun' as <- <-.
    destruct Hinv as (_ & _ & [[Hs _]|(_ & _ & Hz & _)]); [congruence|done].
  - intros name u file_type region path output_dir st status_code reason headers chunks e
      Hp Hmkdir Hnet Hstatus.
    destruct (prepare_strings name u file_type region path output_dir st Hp Hmkdir)
      as (ext & _ & Hprep).
    destruct (makedirs_same (output_dir ++ parts (sanitize_filename region)) st)
      as (Hc & _ & _).
    pose proof (makedirs_fs (output_dir ++ parts (sanitize_filename region)) st) as Hmk.
    rewrite <- Hc in Hnet.
    destruct (try_download_stream_fault net (Some u)
                (output_dir ++ parts (sanitize_filename region)) output_dir
                (sanitize_filename name) ext
                (Result.mk (Some name) (Some u) false None None 0)
                (makedirs (output_dir ++ parts (sanitize_filename region)) st)
                status_code reason headers chunks e Hnet Hstatus)
      as (j & st1 & Htry & Hfree & Hfs1).
    exists (path_div (output_dir ++ parts (sanitize_filename region))
              (candidate (sanitize_filename name)
                 (get_extension_from_response headers ext) j)).
    assert (Hraised : raised_by (net (calls st)) = Some e).
    { rewrite <- Hc, Hnet. unfold raised_by. by rewrite Hstatus. }
    unfold download_file. rewrite Hprep.
    change (seq 0 RETRY_ATTEMPTS) with [0; 1; 2]%nat.
    rewrite for_attempts_cons, Htry. cbv zeta.
    assert (Hretry : ∀ r1, Result.success r1 = false → Result.size r1 = 0 →
      ∃ r st',
        match for_attempts net [1; 2]%nat (Some u)
                (output_dir ++ parts (sanitize_filename region)) output_dir
                (sanitize_filename name) ext r1 (backoff 0 st1) with
        | (ReturnedResult, result, st) => (Return result, st)
        | (FellThrough, result, st) =>
            (Return result, emit (Print (FailLine (Some name) (Result.error result))) st)
        | (Stuck, _, st) => (OutOfFuel, st)
        end = (Return r, st')
        ∧ fs st1 ⊆ fs st' ∧ (Result.success r = false → Result.size r = 0)).
    { intros r1 Hs1 Hz1.
      destruct (for_attempts_inv net [1; 2]%nat (Some u) output_dir
                  (parts (sanitize_filename region)) (sanitize_filename name) ext r1
                  (backoff 0 st1))
        as (e0 & r & st' & -> & Hfs & _ & _ & _ & _ & Hend).
      rewrite backoff_fs in Hfs.
      destruct e0; [| |done].
      - exists r, st'. split; [done|]. split; [done|]. destruct Hend; congruence.
      - eexists r, _. split; [done|]. split; [done|].
        destruct Hend as (_ & _ & Hz & _). intros _. congruence. }
    assert (Hthere : ∀ m, fs st1 ⊆ m →
      m !! path_div (output_dir ++ parts (sanitize_filename region))
             (candidate (sanitize_filename name)
                (get_extension_from_response headers ext) j)
      = Some (File (written chunks))).
    { intros m Hm. eapply lookup_weaken; [|exact Hm].
      rewrite Hfs1. apply lookup_insert_eq. }
    assert (Hnone : fs st !! path_div (output_dir ++ parts (sanitize_filename region))
             (candidate (sanitize_filename name)
                (get_extension_from_response headers ext) j) = None).
    { eapply lookup_weaken_None; [exact Hfree|exact Hmk]. }
    unfold transport_failure. rewrite Hraised.
    destruct e as [|sc rs|msg|msg].
    + destruct (Hretry (Result.set_error (Some (error_message 0 Timeout))
                  (Result.mk (Some name) (Some u) false None None 0)) eq_refl eq_refl)
        as (r & st' & -> & Hsub & Hsz).
      exists r, st'. split; [done|]. split; [done|]. split; [by apply Hthere|].
      split; [done|exact Hsz].
    + eexists _, _. split; [reflexivity|]. split; [done|].
      split; [by apply Hthere|]. by split.
    + destruct (Hretry (Result.set_error (Some (error_message 0 (RequestException msg)))
                  (Result.mk (Some name) (Some u) false None None 0)) eq_refl eq_refl)
        as (r & st' & -> & Hsub & Hsz).
      exists r, st'. split; [done|]. split; [done|]. split; [by apply Hthere|].
      split; [done|exact Hsz].
    + eexists _, _. split; [reflexivity|]. split; [done|].
      split; [by apply Hthere|]. by split.
Qed.

End DestinationClaims.

Section FilenameClaims.
Context {rt : Runtime} (net : nat → exchange).


Lemma candidate_1 base_name actual_ext :
  candidate base_name actual_ext 1 = base_name ++ lit "_1" ++ actual_ext.
Proof. unfold candidate. by change (str_of_nat 1) with (lit "1"). Qed.

(** C3: a successful attempt writes to the plain name when no file has
    it and otherwise to the first numbered name that no file has, as the
    directory is when the attempt looks; so the fetcher leaves every
    file that was there as it was, and two rows of one region with the
    same sanitized name and extension give the plain name and the name
    with _1. *)
Theorem destination_filename :
  (∀ url output_dir mid base_name expected_ext result st,
     raised_by (net (calls st)) = None →
     ∃ status_code reason headers chunks j r st',
       net (calls st) = Response status_code reason headers (Stream chunks None)
       ∧ let region_dir := output_dir ++ mid in
         let actual_ext := get_extension_from_response headers expected_ext in
         let filepath := path_div region_dir (candidate base_name actual_ext j) in
         try_download net url region_dir output_dir base_name expected_ext result st
           = (Returned, r, st')
         ∧ fs st !! filepath = None
         ∧ (∀ i, (i < j)%nat →
              is_Some (fs st !! path_div region_dir (candidate base_name actual_ext i)))
         ∧ fs st' = <[filepath := File (written chunks)]> (fs st))
  ∧ (∀ hospital_name url file_type region output_dir st o st',
       download_file net hospital_name url file_type region output_dir st = (o, st') →
       ∀ p node, fs st !! p = Some node → fs st' !! p = Some node)
  ∧ (∀ name1 name2 u1 u2 file_type1 file_type2 region1 region2 output_dir st
       expected1 expected2 status1 status2 reason1 reason2 headers1 headers2
       chunks1 chunks2,
       sanitize_filename name1 = sanitize_filename name2 →
       sanitize_filename region1 = sanitize_filename region2 →
       get_extension_from_url (Some u1) (Some file_type1) = Return expected1 →
       get_extension_from_url (Some u2) (Some file_type2) = Return expected2 →
       net (calls st) = Response status1 reason1 headers1 (Stream chunks1 None) →
       is_error_status status1 = false →
       net (S (calls st)) = Response status2 reason2 headers2 (Stream chunks2 None) →
       is_error_status status2 = false →
       get_extension_from_response headers1 expected1
         = get_extension_from_response headers2 expected2 →
       let base_name := sanitize_filename name1 in
       let ext := get_extension_from_response headers1 expected1 in
       let region_dir := output_dir ++ parts (sanitize_filename region1) in
       let plain := path_div region_dir (base_name ++ ext) in
       let numbered := path_div region_dir (base_name ++ lit "_1" ++ ext) in
       mkdir_error region_dir st = None →
       fs (makedirs region_dir st) !! plain = None →
       fs (makedirs region_dir st) !! numbered = None →
       ∃ l r1 st1 r2 st2,
         download_file net (Some name1) (Some u1) (Some file_type1) (Some region1)
           output_dir st = (Return r1, st1)
         ∧ download_file net (Some name2) (Some u2) (Some file_type2) (Some region2)
             output_dir st1 = (Return r2, st2)
         ∧ output_dir = parent output_dir ++ l
         ∧ Result.filename r1
           = Some (path_str (l ++ parts (sanitize_filename region1)
                               ++ parts (base_name ++ ext)))
         ∧ Result.filename r2
           = Some (path_str (l ++ parts (sanitize_filename region1)
                               ++ parts (base_name ++ lit "_1" ++ ext)))
         ∧ plain ≠ numbered
         ∧ fs st2 !! plain = Some (File (written chunks1))
         ∧ fs st2 !! numbered = Some (File (written chunks2))).
Proof.
  split; [|split].
  - intros url output_dir mid base_name expected_ext result st He.
    destruct (try_download_returned net url output_dir mid base_name expected_ext
                result st He)
      as (status_code & reason & headers & chunks & j & l & Hnet & _ & _ & Htry).
    cbv zeta in Htry. destruct Htry as (Hfree & Hbelow & Htry).
    exists status_code, reason, headers, chunks, j. eexists _, _.
    split; [done|]. cbv zeta. split; [exact Htry|]. by repeat split.
  - intros hospital_name url file_type region output_dir st o st' Hrun p node Hp.
    destruct (download_file_inv net hospital_name url file_type region output_dir st)
      as (o' & st'' & Hrun' & _ & Hfs & _).
    rewrite Hrun in Hrun'. injection Hrun' as <- <-.
    by eapply lookup_weaken.
  - intros name1 name2 u1 u2 file_type1 file_type2 region1 region2 output_dir st
      expected1 expected2 status1 status2 reason1 reason2 headers1 headers2
      chunks1 chunks2 Hname Hregion Hext1 Hext2 Hnet1 Hstatus1 Hnet2 Hstatus2 Hsame
      base_name ext region_dir plain numbered Hmk Hplain Hnumbered.
    destruct (download_file_first_success net name1 u1 file_type1 region1 output_dir st
                expected1 status1 reason1 headers1 chunks1 Hmk Hext1 Hnet1 Hstatus1)
      as (j1 & l & Hrun1).
    cbv zeta in Hrun1. destruct Hrun1 as (Hl & Hfree1 & Hbelow1 & Hrun1).
    fold base_name ext region_dir in Hfree1, Hbelow1, Hrun1.
    assert (j1 = 0%nat) as ->.
    { destruct j1 as [|j1]; [done|]. destruct (Hbelow1 0%nat) as [x Hx]; [lia|].
      change (candidate base_name ext 0) with (base_name ++ ext) in Hx.
      fold plain in Hx. congruence. }
    change (candidate base_name ext 0) with (base_name ++ ext) in Hrun1.
    fold plain in Hrun1.
    set (st1 := State (<[plain := File (written chunks1)]> (fs (makedirs region_dir st)))
                  (S (calls st))
                  (trace st ++ [Get (Some u1);
                     Print (OkLine (Some name1) (base_name ++ ext)
                              (N.of_nat (length (written chunks1))))])) in *.
    assert (Hdir : makedirs region_dir st1 = st1).
    { apply makedirs_noop, exists_true. pose proof (makedirs_exists region_dir st) as Hex.
      apply exists_true in Hex as [x Hx]. simpl.
      destruct (decide (plain = region_dir)) as [->|Hne].
      - rewrite lookup_insert_eq. by eexists.
      - rewrite lookup_insert_ne by done. by eexists. }
    assert (Hmk2 : mkdir_error (path_div output_dir (sanitize_filename region2)) st1 = None).
    { apply mkdir_error_dir. rewrite <- Hregion.
      change (path_div output_dir (sanitize_filename region1)) with region_dir.
      pose proof (makedirs_dir region_dir st Hmk) as Hd. simpl.
      rewrite lookup_insert_ne; [done|]. intros E. rewrite E in Hplain. congruence. }
    destruct (download_file_first_success net name2 u2 file_type2 region2 output_dir st1
                expected2 status2 reason2 headers2 chunks2 Hmk2 Hext2 Hnet2 Hstatus2)
      as (j2 & l2 & Hrun2).
    cbv zeta in Hrun2. rewrite <- Hname, <- Hregion, <- Hsame in Hrun2.
    fold base_name ext region_dir in Hrun2. rewrite Hdir in Hrun2.
    destruct Hrun2 as (Hl2 & Hfree2 & Hbelow2 & Hrun2).
    assert (l2 = l) as -> by (eapply app_inv_head; rewrite <- Hl2; exact Hl).
    assert (Hne : plain ≠ numbered).
    { unfold numbered. rewrite <- candidate_1. apply candidate_path_plain. }
    assert (j2 = 1%nat) as ->.
    { destruct j2 as [|[|j2]]; [|done|].
      - change (candidate base_name ext 0) with (base_name ++ ext) in Hfree2.
        fold plain in Hfree2. simpl in Hfree2. by rewrite lookup_insert_eq in Hfree2.
      - destruct (Hbelow2 1%nat) as [x Hx]; [lia|]. rewrite candidate_1 in Hx.
        fold numbered in Hx. simpl in Hx.
        rewrite lookup_insert_ne in Hx by done. congruence. }
    rewrite candidate_1 in Hrun2. fold numbered in Hrun2.
    exists l. eexists _, _, _, _. split; [exact Hrun1|]. split; [exact Hrun2|].
    split; [done|]. split; [done|]. split; [done|]. split; [exact Hne|]. simpl. split.
    + rewrite lookup_insert_ne by (intros E; by apply Hne). apply lookup_insert_eq.
    + apply lookup_insert_eq.
Qed.

End FilenameClaims.

(** ** The runtime fragment *)

Lemma cpython_fragment_faithful : ascii_faithful cpython_fragment.
Proof.
  split; simpl.
  - intros c Hc. unfold fragment_isalnum.
    destruct (N.eqb_spec c 304); [lia|]. by rewrite orb_false_r.
  - done.
  - intros s Hs. unfold fragment_lower.
    induction Hs as [|c s Hc Hs IH]; [done|].
    cbn [mbind list_bind]. rewrite IH.
    destruct (N.eqb_spec c 304); [lia|done].
Qed.

(** ** The claims on the sanitizer *)

(** C4 (as amended): the sanitizer is a function whose result has at
    most 100 characters, and a name made of deleted characters only
    gives the empty string; on ASCII input its result is made of
    lowercase letters, digits, dashes, underscores and dots, and
    sanitizing it again changes nothing. *)
Theorem sanitize_filename_ascii `{rt : Runtime} :
  (∀ name, (length (sanitize_filename name) ≤ 100)%nat)
  ∧ (ascii_faithful rt →
       (∀ name, Forall (λ c, invalid_char c = true) name → sanitize_filename name = [])
       ∧ (∀ name, is_ascii name →
            Forall (λ c, safe_char c = true) (sanitize_filename name)
            ∧ sanitize_filename (sanitize_filename name) = sanitize_filename name)).
Proof.
  split; [apply sanitize_filename_length|].
  intros faithful. split; [by apply sanitize_filename_invalid|].
  intros name Hname.
  pose proof (sanitize_filename_safe faithful name Hname) as Hsafe.
  split; [done|].
  apply sanitize_filename_fixed; [done..|apply sanitize_filename_length].
Qed.

Lemma sanitize_filename_ascii_witness :
  ascii_faithful cpython_fragment
  ∧ is_ascii (lit "St. Mary's Hospital") ∧ is_ascii (lit "<?>")
  ∧ Forall (λ c, invalid_char (H:=cpython_fragment) c = true) (lit "<?>")
  ∧ sanitize_filename (rt:=cpython_fragment)
      (sanitize_filename (rt:=cpython_fragment) (lit "St. Mary's Hospital"))
    = sanitize_filename (rt:=cpython_fragment) (lit "St. Mary's Hospital")
  ∧ sanitize_filename (rt:=cpython_fragment) (lit "<?>") = [].
Proof.
  assert (H1 : is_ascii (lit "St. Mary's Hospital")) by (repeat constructor).
  assert (H2 : is_ascii (lit "<?>")) by (repeat constructor).
  assert (H3 : Forall (λ c, invalid_char (H:=cpython_fragment) c = true) (lit "<?>"))
    by (repeat constructor).
  split; [exact cpython_fragment_faithful|]. split; [exact H1|]. split; [exact H2|].
  split; [exact H3|]. split.
  - exact (proj2 (proj2 (proj2 (sanitize_filename_ascii (rt:=cpython_fragment))
             cpython_fragment_faithful) _ H1)).
  - exact (proj1 (proj2 (sanitize_filename_ascii (rt:=cpython_fragment))
             cpython_fragment_faithful) _ H3).
Defined.

(** C4, as stated, fails on U+0130: its lowercase has a combining dot
    above, which is not a word character, so that the result is not made
    of the safe characters and a second pass changes it. *)
Lemma sanitize_filename_not_idempotent :
  sanitize_filename (rt:=cpython_fragment) [304] = [105; 775]
  ∧ sanitize_filename (rt:=cpython_fragment) (sanitize_filename (rt:=cpython_fragment) [304])
    ≠ sanitize_filename (rt:=cpython_fragment) [304]
  ∧ ¬ Forall (λ c, safe_char c = true) (sanitize_filename (rt:=cpython_fragment) [304]).
Proof.
  split; [by vm_compute|]. split.
  - by vm_compute.
  - intros H. apply Forall_cons in H as [_ H]. apply Forall_cons in H as [H _].
    by vm_compute in H.
Qed.

(** ** The claims on the extension resolver *)

Lemma endswith_last s p : endswith s p = true → p = [] ∨ last s = last p.
Proof.
  unfold endswith. intros H. destruct p as [|c p _] using rev_ind; [by left|]. right.
  rewrite rev_unit in H. destruct s as [|d s _] using rev_ind; [done|].
  rewrite rev_unit in H. simpl in H. apply andb_true_iff in H as [H _].
  apply N.eqb_eq in H as ->. by rewrite !last_snoc.
Qed.

Lemma startswith_app a b s : startswith (a ++ b) s = true → startswith a s = true.
Proof.
  revert s. induction a as [|c a IH]; intros [|d s]; simpl; try done.
  intros H. apply andb_true_iff in H as [-> H]. by apply IH.
Qed.

Lemma endswith_app s a b : endswith s (a ++ b) = true → endswith s b = true.
Proof. unfold endswith. rewrite rev_app_distr. apply startswith_app. Qed.

(** At most one of the recognized suffixes ends a path. *)
Lemma recognized_suffix_unique path s1 s2 :
  s1 ∈ recognized_suffixes → s2 ∈ recognized_suffixes →
  endswith path s1 = true → endswith path s2 = true → s1 = s2.
Proof.
  intros H1 H2 E1 E2.
  apply endswith_last in E1. apply endswith_last in E2.
  unfold recognized_suffixes in *.
  repeat (apply elem_of_cons in H1 as [->|H1]); [..|by apply elem_of_nil in H1];
    (destruct E1 as [E1|E1]; [discriminate E1|]);
    (repeat (apply elem_of_cons in H2 as [->|H2]); [..|by apply elem_of_nil in H2]);
    (destruct E2 as [E2|E2]; [discriminate E2|]);
    try reflexivity; rewrite E1 in E2; discriminate E2.
Qed.

Section ResolverClaims.
Context {rt : Runtime}.

(** C5 (as amended): for a URL that the URL parser accepts, the
    resolver returns an extension: the recognized suffix that ends the
    URL path if there is one, whatever the declared type; otherwise the
    first of csv, json, zip and api that the lowercased declared type
    contains (api giving .json); otherwise .json.  So a path that ends
    with data.csv resolves to .csv under the declared type API, and a
    path without a recognized suffix resolves to .json under it. *)
Theorem get_extension_from_url_precedence (url file_type path : list N) :
  url_path (Some url) = Parsed path →
  (∃ ext, get_extension_from_url (Some url) (Some file_type) = Return ext
     ∧ (∀ suffix, suffix ∈ recognized_suffixes → endswith path suffix = true →
          ext = suffix)
     ∧ ((∀ suffix, suffix ∈ recognized_suffixes → endswith path suffix = false) →
          let declared := str_lower file_type in
          (contains (lit "csv") declared = true → ext = lit ".csv")
          ∧ (contains (lit "csv") declared = false →
             contains (lit "json") declared = true → ext = lit ".json")
          ∧ (contains (lit "csv") declared = false →
             contains (lit "json") declared = false →
             contains (lit "zip") declared = true → ext = lit ".zip")
          ∧ (contains (lit "csv") declared = false →
             contains (lit "json") declared = false →
             contains (lit "zip") declared = false →
             contains (lit "api") declared = true → ext = lit ".json")
          ∧ (contains (lit "csv") declared = false →
             contains (lit "json") declared = false →
             contains (lit "zip") declared = false →
             contains (lit "api") declared = false → ext = lit ".json")))
  ∧ (endswith path (lit "data.csv") = true →
       get_extension_from_url (Some url) (Some (lit "API")) = Return (lit ".csv"))
  ∧ (ascii_faithful rt →
       (∀ suffix, suffix ∈ recognized_suffixes → endswith path suffix = false) →
       get_extension_from_url (Some url) (Some (lit "API")) = Return (lit ".json")).
Proof.
  intros Hp.
  assert (Hsuffix : ∀ declared suffix, suffix ∈ recognized_suffixes →
            endswith path suffix = true →
            get_extension_from_url (Some url) declared = Return suffix).
  { intros declared suffix Hin Hend. unfold get_extension_from_url. rewrite Hp.
    assert (Hother : ∀ s, s ∈ recognized_suffixes → s ≠ suffix → endswith path s = false).
    { intros s Hs Hne. destruct (endswith path s) eqn:E; [|done].
      destruct Hne. by eapply recognized_suffix_unique. }
    unfold recognized_suffixes in Hin, Hother.
    repeat (apply elem_of_cons in Hin as [->|Hin]); [..|by apply elem_of_nil in Hin];
      rewrite ?Hend;
      repeat (rewrite Hother by (first [set_solver | done | by vm_compute]));
      rewrite ?Hend; reflexivity. }
  assert (Hnone : (∀ suffix, suffix ∈ recognized_suffixes → endswith path suffix = false) →
            ∀ declared,
            get_extension_from_url (Some url) (Some declared)
            = let d := str_lower declared in
              Return (if contains (lit "csv") d then lit ".csv"
                      else if contains (lit "json") d then lit ".json"
                      else if contains (lit "zip") d then lit ".zip"
                      else if contains (lit "api") d then lit ".json"
                      else lit ".json")).
  { intros Hno declared. unfold get_extension_from_url. rewrite Hp.
    rewrite !Hno by (unfold recognized_suffixes; set_solver).
    cbv zeta. by repeat case_match. }
  split; [|split].
  - destruct (get_extension_from_url_parsed url file_type path Hp) as [ext Hext].
    exists ext. split; [done|]. split.
    + intros suffix Hin Hend. rewrite (Hsuffix _ suffix Hin Hend) in Hext. congruence.
    + intros Hno. rewrite (Hnone Hno) in Hext. cbv zeta in *. injection Hext as <-.
      repeat split; intros; repeat case_match; congruence.
  - intros Hend. apply Hsuffix; [unfold recognized_suffixes; set_solver|].
    apply (endswith_app path (lit "data") (lit ".csv") Hend).
  - intros faithful Hno. rewrite (Hnone Hno).
    rewrite (af_lower rt faithful (lit "API")) by (repeat constructor). reflexivity.
Qed.

End ResolverClaims.

Lemma get_extension_from_url_precedence_witness :
  url_path (Runtime:=cpython_fragment) (Some (lit "https://example.org/files/data.csv"))
    = Parsed (lit "/files/data.csv")
  ∧ endswith (lit "/files/data.csv") (lit "data.csv") = true
  ∧ get_extension_from_url (rt:=cpython_fragment)
      (Some (lit "https://example.org/files/data.csv")) (Some (lit "API"))
    = Return (lit ".csv").
Proof.
  split; [reflexivity|]. split; [reflexivity|].
  exact (proj1 (proj2 (get_extension_from_url_precedence (rt:=cpython_fragment)
           (lit "https://example.org/files/data.csv") (lit "API")
           (lit "/files/data.csv") eq_refl)) eq_refl).
Defined.

(** C5, as stated, fails on a string that the URL parser rejects: the
    resolver raises [ValueError] instead of returning an extension. *)
Lemma get_extension_from_url_not_total :
  get_extension_from_url (rt:=cpython_fragment) (Some (lit "http://[")) (Some (lit "CSV"))
    = Raises ValueError
  ∧ ¬ ∃ ext, get_extension_from_url (rt:=cpython_fragment)
               (Some (lit "http://[")) (Some (lit "CSV")) = Return ext.
Proof.
  split; [by vm_compute|]. intros [ext H]. vm_compute in H. discriminate H.
Qed.

(** ** The filename of a [Content-Disposition] header *)

Lemma first_down_hit {A} (f : nat → option A) n r : f n = Some r → first_down f n = Some r.
Proof. intros H. destruct n; simpl; by rewrite H. Qed.



Lemma contains_here needle s : startswith needle s = true → contains needle s = true.
Proof. intros H. destruct s; simpl in *; by rewrite H. Qed.

Lemma startswith_refl needle s : startswith needle (needle ++ s) = true.
Proof. induction needle as [|c n IH]; simpl; [done|]. by rewrite N.eqb_refl. Qed.

Lemma contains_app needle pre s : contains needle s = true → contains needle (pre ++ s) = true.
Proof.
  intros H. induction pre as [|c pre IH]; simpl; [done|]. rewrite IH. apply orb_true_r.
Qed.

Lemma re_search_here pat s groups :
  match_here pat s [] = Some groups → re_search pat s = Some groups.
Proof. intros H. destruct s; simpl; by rewrite H. Qed.


Lemma startswith_spec needle s :
  startswith needle s = true ↔ ∃ post, s = needle ++ post.
Proof.
  split.
  - revert s. induction needle as [|c n IH]; intros s H; [by exists s|].
    destruct s as [|d s]; [done|]. simpl in H.
    apply andb_true_iff in H as [Hc H]. apply N.eqb_eq in Hc as ->.
    destruct (IH s H) as [post ->]. by exists post.
  - intros [post ->]. apply startswith_refl.
Qed.



Lemma after_last_no_sep sep s : char_in sep (after_last sep s) = false.
Proof.
  induction s as [|c s IH]; [done|]. cbn [after_last].
  destruct (char_in sep s) eqn:Hs; [done|].
  destruct (N.eqb_spec c sep) as [->|Hne]; [done|].
  change (char_in sep (c :: s)) with ((sep =? c) || char_in sep s).
  rewrite Hs. apply N.eqb_neq in Hne. rewrite N.eqb_sym in Hne. by rewrite Hne.
Qed.

Lemma after_last_split sep s :
  char_in sep s = true → ∃ pre, s = pre ++ sep :: after_last sep s.
Proof.
  induction s as [|c s IH]; [done|]. cbn [after_last]. intros Hin.
  destruct (char_in sep s) eqn:Hs.
  - destruct (IH eq_refl) as [pre Hpre]. exists (c :: pre). simpl. by rewrite <- Hpre.
  - change (char_in sep (c :: s)) with ((sep =? c) || char_in sep s) in Hin.
    rewrite Hs, orb_false_r in Hin. apply N.eqb_eq in Hin as <-.
    rewrite N.eqb_refl. by exists [].
Qed.


Section ResponseClaims.
Context {rt : Runtime}.


End ResponseClaims.


(** ** The orchestrator *)

Section Orchestrator.
Context {rt : Runtime} (net : nat → exchange).

Lemma for_hospitals_cons i n hospital rest output_dir t st :
  for_hospitals net i n (hospital :: rest) output_dir t st
  = match process_row net i n hospital output_dir st with
    | (Return result, st') =>
        for_hospitals net (S i) n rest output_dir (record_result result t)
          (if (i <? n)%nat then sleep DELAY_BETWEEN_REQUESTS st' else st')
    | (Raises e, st') => (Raises e, st')
    | (OutOfFuel, st') => (OutOfFuel, st')
    end.
Proof.
  cbn [for_hospitals]. unfold process_row, mbind, M_bind, lift, act, mret, M_ret.
  destruct (getitem hospital (lit "hospital_name")); [|done..].
  destruct (getitem hospital (lit "mrf_download_url")); [|done..].
  destruct (getitem hospital (lit "file_type")); [|done..].
  destruct (getitem hospital (lit "region")); [|done..].
  destruct (download_file _ _ _ _ _ _ _) as [[r|e|] st']; [|done..].
  by destruct (i <? n)%nat.
Qed.

(** What [prepare] raises is what [fatal_row] says. *)
Lemma prepare_fatal hospital name url file_type region output_dir st ev :
  hospital !! lit "hospital_name" = Some name →
  hospital !! lit "mrf_download_url" = Some url →
  hospital !! lit "file_type" = Some file_type →
  hospital !! lit "region" = Some region →
  match fatal_row output_dir st hospital with
  | Some e => ∃ st', prepare name url file_type region output_dir (emit ev st)
                     = (Raises e, st')
  | None => ∃ x st', prepare name url file_type region output_dir (emit ev st)
                     = (Return x, st')
  end.
Proof.
  intros H1 H2 H3 H4. unfold fatal_row, prepare, mkdir. rewrite H1, H2, H3, H4.
  destruct region as [reg|]; [|by eexists].
  change (mkdir_error (path_div output_dir (sanitize_filename reg)) (emit ev st))
    with (mkdir_error (path_div output_dir (sanitize_filename reg)) st).
  destruct (mkdir_error (path_div output_dir (sanitize_filename reg)) st); [by eexists|].
  destruct name as [name|]; [|by eexists].
  destruct (get_extension_from_url url file_type) as [ext|e|] eqn:Hext.
  - by eexists _, _.
  - by eexists.
  - by apply get_extension_from_url_fuel in Hext.
Qed.

(** A row that is fatal where the loop reaches it raises before any
    request, with its progress line as the last thing printed. *)
Lemma process_row_fatal i n hospital output_dir st e :
  fatal_row output_dir st hospital = Some e →
  ∃ st', process_row net i n hospital output_dir st = (Raises e, st')
    ∧ calls st' = calls st ∧ logs st' = logs st ∧ fs st ⊆ fs st'
    ∧ (∀ name, hospital !! lit "hospital_name" = Some name →
         trace st' = trace st ++ [Print (Downloading i n name)]).
Proof.
  intros Hfatal.
  destruct (hospital !! lit "hospital_name") as [name|] eqn:H1.
  2:{ unfold fatal_row in Hfatal. rewrite H1 in Hfatal. injection Hfatal as <-.
      unfold process_row, mbind, M_bind, lift, act, getitem. rewrite H1.
      by eexists. }
  destruct (hospital !! lit "mrf_download_url") as [url|] eqn:H2.
  2:{ unfold fatal_row in Hfatal. rewrite H1, H2 in Hfatal. injection Hfatal as <-.
      unfold process_row, mbind, M_bind, lift, act, getitem. rewrite H1, H2.
      eexists. split; [done|]. split_and!; [done..|]. by intros ? [= <-]. }
  destruct (hospital !! lit "file_type") as [file_type|] eqn:H3.
  2:{ unfold fatal_row in Hfatal. rewrite H1, H2, H3 in Hfatal. injection Hfatal as <-.
      unfold process_row, mbind, M_bind, lift, act, getitem. rewrite H1, H2, H3.
      eexists. split; [done|]. split_and!; [done..|]. by intros ? [= <-]. }
  destruct (hospital !! lit "region") as [region|] eqn:H4.
  2:{ unfold fatal_row in Hfatal. rewrite H1, H2, H3, H4 in Hfatal.
      injection Hfatal as <-.
      unfold process_row, mbind, M_bind, lift, act, getitem. rewrite H1, H2, H3, H4.
      eexists. split; [done|]. split_and!; [done..|]. by intros ? [= <-]. }
  pose proof (prepare_fatal hospital name url file_type region output_dir st
                (Print (Downloading i n name)) H1 H2 H3 H4) as Hprep.
  rewrite Hfatal in Hprep. destruct Hprep as [st0 Hprep].
  destruct (download_file_inv net name url file_type region output_dir
              (emit (Print (Downloading i n name)) st))
    as (o & st' & Hrun & Hlog & Hfs & Hinv).
  assert (Hraise : o = Raises e ∧ st' = st0).
  { unfold download_file in Hrun. rewrite Hprep in Hrun. by injection Hrun as <- <-. }
  destruct Hraise as [-> ->]. destruct Hinv as (Hc & Ht & _).
  unfold process_row, mbind, M_bind, lift, act, getitem. rewrite H1, H2, H3, H4, Hrun.
  exists st0. split; [done|]. split_and!; [done..|]. by intros ? [= <-].
Qed.

(** A row that is not fatal gives a result. *)
Lemma process_row_ok i n hospital output_dir st :
  fatal_row output_dir st hospital = None →
  ∃ r st', process_row net i n hospital output_dir st = (Return r, st')
    ∧ hospital !! lit "hospital_name" = Some (Result.hospital r)
    ∧ hospital !! lit "mrf_download_url" = Some (Result.url r)
    ∧ logs st' = logs st ∧ fs st ⊆ fs st'.
Proof.
  intros Hfatal.
  destruct (hospital !! lit "hospital_name") as [name|] eqn:H1;
    [|by unfold fatal_row in Hfatal; rewrite H1 in Hfatal].
  destruct (hospital !! lit "mrf_download_url") as [url|] eqn:H2;
    [|by unfold fatal_row in Hfatal; rewrite H1, H2 in Hfatal].
  destruct (hospital !! lit "file_type") as [file_type|] eqn:H3;
    [|by unfold fatal_row in Hfatal; rewrite H1, H2, H3 in Hfatal].
  destruct (hospital !! lit "region") as [region|] eqn:H4;
    [|by unfold fatal_row in Hfatal; rewrite H1, H2, H3, H4 in Hfatal].
  pose proof (prepare_fatal hospital name url file_type region output_dir st
                (Print (Downloading i n name)) H1 H2 H3 H4) as Hprep.
  rewrite Hfatal in Hprep. destruct Hprep as (x & st0 & Hprep).
  destruct (download_file_inv net name url file_type region output_dir
              (emit (Print (Downloading i n name)) st))
    as (o & st' & Hrun & Hlog & Hfs & Hinv).
  unfold process_row, mbind, M_bind, lift, act, getitem. rewrite H1, H2, H3, H4, Hrun.
  destruct o as [r|e|]; [| |done].
  - destruct Hinv as (<- & <- & _). by exists r, st'.
  - destruct Hinv as (_ & _ & Hprep'). rewrite Hprep in Hprep'. discriminate Hprep'.
Qed.


Lemma record_result_ok result t : tally_ok t → tally_ok (record_result result t).
Proof.
  unfold tally_ok, record_result. intros [Hs Hf].
  destruct (Result.success result) eqn:E; simpl; rewrite !filter_app, !length_app.
  - rewrite filter_cons_True, filter_cons_False by (by rewrite ?E). simpl. lia.
  - rewrite filter_cons_False, filter_cons_True by (by rewrite ?E). simpl. lia.
Qed.

Lemma record_result_results result t :
  results (record_result result t) = results t ++ [result].
Proof. unfold record_result. by destruct (Result.success result). Qed.

(** The loop processes the rows in order, one result each, until a row
    is fatal where the loop reaches it. *)
Lemma for_hospitals_run i n hospitals output_dir t st :
  tally_ok t →
  ∃ o st', for_hospitals net i n hospitals output_dir t st = (o, st')
    ∧ logs st' = logs st ∧ fs st ⊆ fs st'
    ∧ match o with
      | Return t' =>
          ∃ rs, tally_ok t' ∧ results t' = results t ++ rs
            ∧ Forall2 (λ h r, h !! lit "hospital_name" = Some (Result.hospital r)
                              ∧ h !! lit "mrf_download_url" = Some (Result.url r))
                hospitals rs
            ∧ Forall (λ h, ∃ st1, fatal_row output_dir st1 h = None) hospitals
      | Raises e =>
          ∃ pre row rest st1, hospitals = pre ++ row :: rest
            ∧ fatal_row output_dir st1 row = Some e
            ∧ (∀ name, row !! lit "hospital_name" = Some name →
                 last (trace st') = Some (Print (Downloading (i + length pre) n name)))
      | OutOfFuel => False
      end.
Proof.
  revert i t st. induction hospitals as [|h hospitals IH]; intros i t st Ht.
  { exists (Return t), st. split; [done|]. split; [done|]. split; [done|].
    exists []. rewrite app_nil_r. split_and!; [done|done|constructor|constructor]. }
  rewrite for_hospitals_cons.
  destruct (fatal_row output_dir st h) as [e|] eqn:Hh.
  - destruct (process_row_fatal i n h output_dir st e Hh)
      as (st' & -> & _ & Hlog & Hfs & Htr).
    exists (Raises e), st'. split; [done|]. split; [done|]. split; [done|].
    exists [], h, hospitals, st. split; [done|]. split; [done|].
    intros name Hname. rewrite (Htr name Hname), last_snoc. by rewrite Nat.add_0_r.
  - destruct (process_row_ok i n h output_dir st Hh)
      as (r & st1 & -> & Hn & Hu & Hlog & Hfs).
    destruct (IH (S i) (record_result r t)
                (if (i <? n)%nat then sleep DELAY_BETWEEN_REQUESTS st1 else st1)
                (record_result_ok r t Ht))
      as (o & st' & -> & Hlog' & Hfs' & Hend).
    assert (Hst : logs (if (i <? n)%nat then sleep DELAY_BETWEEN_REQUESTS st1 else st1)
                  = logs st1
                  ∧ fs (if (i <? n)%nat then sleep DELAY_BETWEEN_REQUESTS st1 else st1)
                    = fs st1) by (by destruct (i <? n)%nat).
    destruct Hst as [Hs1 Hs2]. rewrite Hs1 in Hlog'. rewrite Hs2 in Hfs'.
    exists o, st'. split; [done|]. split; [congruence|]. split; [by etrans|].
    destruct o as [t'|e|]; [| |done].
    + destruct Hend as (rs & Ht' & Hrs & Hord & Hall). exists (r :: rs).
      split; [done|]. split; [by rewrite Hrs, record_result_results, <- app_assoc|].
      split; [by constructor|]. constructor; [by exists st|done].
    + destruct Hend as (pre & row & rest & st2 & -> & Hrow & Htr).
      exists (h :: pre), row, rest, st2. split; [done|]. split; [done|].
      intros name Hname. rewrite (Htr name Hname). cbn [length]. do 3 f_equal. lia.
Qed.

Lemma main_missing script_dir st :
  main net None script_dir st
  = (Return 1%nat, emit (Print ManifestNotFound) (emit (Print Banner) st)).
Proof. reflexivity. Qed.

(** [main] on a manifest: the output directory, the loop, the summary,
    the log. *)
Lemma main_some rows script_dir st :
  let output_dir := path_div script_dir OUTPUT_DIR in
  let log_path := path_div output_dir (lit "download_log.csv") in
  let hospitals := DictReader rows in
  let st0 := emit (Print StartingDownloads)
               (emit (Print (FoundHospitals (length hospitals)))
                  (emit (Print (OutputDirectory output_dir))
                     (makedirs output_dir (emit (Print Banner) st)))) in
  main net (Some rows) script_dir st
  = match mkdir_error output_dir st with
    | Some e => (Raises e, emit (Print Banner) st)
    | None =>
        match for_hospitals net 1 (length hospitals) hospitals output_dir
                (Tally [] 0 0 0) st0 with
        | (Return t, st1) =>
            let summary :=
              [Print (Summary (length hospitals) (successful t) (failed t) (total_bytes t))]
              ++ (if (0 <? failed t)%nat
                  then [Print (FailedDownloads
                          ((λ r, (Result.hospital r, Result.error r)) <$>
                             filter (λ r, ¬ Result.success r) (results t)))]
                  else []) in
            if is_dir (fs st1 !! log_path)
            then (Raises IsADirectoryError,
                  State (fs st1) (calls st1) (trace st1 ++ summary))
            else
              let files := <[log_path := Sheet (log_fieldnames :: (log_row <$> results t))]>
                             (fs st1) in
              (Return (if (failed t =? 0)%nat then 0%nat else 1%nat),
               State files (calls st1)
                 (trace st1 ++ summary
                  ++ [Print (LogSaved log_path); Print (FilesByRegion files)]))
        | (Raises e, st1) => (Raises e, st1)
        | (OutOfFuel, st1) => (OutOfFuel, st1)
        end
    end.
Proof.
  intros output_dir log_path hospitals st0.
  unfold main, mbind, M_bind, act, mret, M_ret, mkdir. fold output_dir hospitals.
  change (mkdir_error output_dir (emit (Print Banner) st))
    with (mkdir_error output_dir st).
  destruct (mkdir_error output_dir st); [done|]. fold st0.
  destruct (for_hospitals net 1 (length hospitals) hospitals output_dir (Tally [] 0 0 0) st0)
    as [[t|e|] st1]; [|done..].
  unfold write_log. fold log_path. cbv zeta.
  destruct (0 <? failed t)%nat; unfold emit; cbn [fs calls trace];
    (destruct (fs st1 !! log_path) as [[| |]|]; cbn [is_dir];
     unfold set_fs; cbn [fs calls trace]; by rewrite <- ?app_assoc).
Qed.



(** How a run over a manifest ends: at its end, with the log written, or
    with an exception: of [mkdir] for the output directory, of a row
    that is fatal where the loop reaches it, or of [open] for the log. *)
Lemma main_outcome rows script_dir st :
  let output_dir := path_div script_dir OUTPUT_DIR in
  let log_path := path_div output_dir (lit "download_log.csv") in
  ∃ o st', main net (Some rows) script_dir st = (o, st')
    ∧ match o with
      | Return status =>
          ∃ t tr, tally_ok t
            ∧ Forall2 (λ h r, h !! lit "hospital_name" = Some (Result.hospital r)
                              ∧ h !! lit "mrf_download_url" = Some (Result.url r))
                (DictReader rows) (results t)
            ∧ Forall (λ h, ∃ st1, fatal_row output_dir st1 h = None) (DictReader rows)
            ∧ status = (if (failed t =? 0)%nat then 0%nat else 1%nat)
            ∧ fs st' !! log_path = Some (Sheet (log_fieldnames :: (log_row <$> results t)))
            ∧ trace st' = tr
                ++ [Print (Summary (length (DictReader rows)) (successful t) (failed t)
                             (total_bytes t))]
                ++ (if (0 <? failed t)%nat
                    then [Print (FailedDownloads
                            ((λ r, (Result.hospital r, Result.error r)) <$>
                               filter (λ r, ¬ Result.success r) (results t)))]
                    else [])
                ++ [Print (LogSaved log_path); Print (FilesByRegion (fs st'))]
      | Raises e =>
          logs st' = logs st ∧ fs st ⊆ fs st'
          ∧ (mkdir_error output_dir st = Some e
             ∨ (∃ pre row rest st1, DictReader rows = pre ++ row :: rest
                  ∧ fatal_row output_dir st1 row = Some e
                  ∧ (∀ name, row !! lit "hospital_name" = Some name →
                       last (trace st')
                       = Some (Print (Downloading (S (length pre))
                                        (length (DictReader rows)) name))))
             ∨ e = IsADirectoryError ∧ is_dir (fs st' !! log_path) = true)
      | OutOfFuel => False
      end.
Proof.
  intros output_dir log_path. rewrite main_some. cbv zeta.
  fold output_dir log_path.
  destruct (mkdir_error output_dir st) as [e|] eqn:Hmk.
  { eexists _, _. split; [done|]. split; [done|]. split; [done|]. by left. }
  set (st0 := emit _ _).
  assert (Hst0 : logs st0 = logs st ∧ fs st ⊆ fs st0).
  { subst st0. unfold emit. cbn [fs].
    destruct (makedirs_same output_dir (emit (Print Banner) st)) as (_ & _ & Hl).
    split; [exact Hl|]. apply (makedirs_fs output_dir (emit (Print Banner) st)). }
  destruct Hst0 as [Hl0 Hfs0].
  destruct (for_hospitals_run 1 (length (DictReader rows)) (DictReader rows) output_dir
              (Tally [] 0 0 0) st0) as (o & st1 & -> & Hlog & Hfs & Hend); [by split|].
  destruct o as [t|e|]; [| |done].
  - destruct Hend as (rs & Ht & Hrs & Hord & Hall). simpl in Hrs. subst rs.
    destruct (is_dir (fs st1 !! log_path)) eqn:Hdir.
    + eexists _, _. split; [done|]. split; [exact (eq_trans Hlog Hl0)|].
      split; [cbn [fs]; by etrans|]. right. right. by split.
    + eexists _, _. split; [done|]. exists t, (trace st1). cbn [fs trace].
      split_and!; [done..| |done]. apply lookup_insert_eq.
  - destruct Hend as (pre & row & rest & st2 & Hrows & Hrow & Htr).
    eexists _, _. split; [done|]. split; [congruence|]. split; [by etrans|].
    right. left. exists pre, row, rest, st2. split_and!; [done..|].
    intros name Hname. by rewrite (Htr name Hname).
Qed.


End Orchestrator.

(** ** The rows of the manifest reader *)








Section OrchestratorClaims.
Context {rt : Runtime} (net : nat → exchange).




End OrchestratorClaims.

(** ** The claims on concrete runs *)

(** A run is its outcome and the world it leaves. *)
Lemma run_value {A} (x : outcome A * state) (o : outcome A) : x.1 = o → x = (o, x.2).
Proof. destruct x. simpl. by intros ->. Qed.

(** Closed equations between a term and its value are settled by
    evaluation; for a run, by the evaluation of its outcome. *)
Ltac evaluated :=
  lazymatch goal with
  | |- _ = (_, _) =>
      apply run_value;
      lazymatch goal with |- ?l = ?r => exact (@eq_refl _ r <: l = r) end
  | |- ?l = ?r => exact (@eq_refl _ r <: l = r)
  end.

Lemma retry_state_machine_witness :
  let u := lit "https://example.org/foo.csv" in
  let run net :=
    download_file (rt:=cpython_fragment) net (Some (lit "Foo Clinic")) (Some u)
      (Some (lit "CSV")) (Some (lit "A")) [lit "public_prices"] empty_world in
  url_path (Runtime:=cpython_fragment) (Some u) = Parsed (lit "/foo.csv")
  ∧ mkdir_error (path_div [lit "public_prices"]
                   (sanitize_filename (rt:=cpython_fragment) (lit "A"))) empty_world = None
  ∧ (∃ r st',
       run (λ _, GetRaises Timeout) = (Return r, st')
       ∧ Result.success r = false ∧ Result.filename r = None ∧ Result.size r = 0
       ∧ Result.error r = Some (lit "Timeout after 120s (attempt 3/3)")
       ∧ calls st' = 3%nat
       ∧ trace st' =
           [ Get (Some u); Sleep (inject_Z (2 ^ 0)); Get (Some u);
             Sleep (inject_Z (2 ^ 1)); Get (Some u);
             Print (FailLine (Some (lit "Foo Clinic"))
                      (Some (lit "Timeout after 120s (attempt 3/3)"))) ])
  ∧ (∃ st',
       run (λ _, not_found)
         = (Return (Result.mk (Some (lit "Foo Clinic")) (Some u) false None
                      (Some (lit "HTTP 404: Not Found")) 0), st')
       ∧ calls st' = 1%nat
       ∧ trace st' =
           [ Get (Some u);
             Print (FailLine (Some (lit "Foo Clinic"))
                      (Some (lit "HTTP 404: Not Found"))) ]).
Proof.
  intros u run. split; [reflexivity|]. split; [reflexivity|]. split.
  - destruct (proj1 (retry_state_machine (rt:=cpython_fragment) (λ _, GetRaises Timeout)
                       (lit "Foo Clinic") u (lit "CSV") (lit "A") (lit "/foo.csv")
                       [lit "public_prices"] empty_world eq_refl eq_refl)
                Timeout Timeout Timeout eq_refl eq_refl eq_refl
                (or_introl eq_refl) (or_introl eq_refl) (or_introl eq_refl))
      as (r & st' & Hrun & Hs & Hf & Hz & Hto & _ & Hc & Htr).
    exists r, st'. rewrite (Hto eq_refl) in Htr.
    exact (conj Hrun (conj Hs (conj Hf (conj Hz (conj (Hto eq_refl) (conj Hc Htr)))))).
  - exact (proj2 (retry_state_machine (rt:=cpython_fragment) (λ _, not_found)
                    (lit "Foo Clinic") u (lit "CSV") (lit "A") (lit "/foo.csv")
                    [lit "public_prices"] empty_world eq_refl eq_refl)
             404 (lit "Not Found") ∅ (Stream [] None) eq_refl
             ltac:(discriminate) eq_refl).
Defined.

(** C2 fails on the code: a row that times out once and then succeeds
    comes back as a success that still carries the error of the first
    attempt, which the success path never clears. *)
Theorem download_file_stale_error :
  ∃ r st',
    download_file (rt:=cpython_fragment) timeout_then_ok
      (Some (lit "General Hospital")) (Some (lit "https://example.org/prices"))
      (Some (lit "JSON")) (Some (lit "Bay Area")) [lit "public_prices"] empty_world
    = (Return r, st')
    ∧ Result.success r = true
    ∧ Result.filename r = Some (lit "public_prices/bay_area/general_hospital.json")
    ∧ Result.size r = 2
    ∧ Result.error r = Some (lit "Timeout after 120s (attempt 1/3)")
    ∧ calls st' = 2%nat.
Proof.
  exists (Result.mk (Some (lit "General Hospital")) (Some (lit "https://example.org/prices"))
            true (Some (lit "public_prices/bay_area/general_hospital.json"))
            (Some (lit "Timeout after 120s (attempt 1/3)")) 2).
  exists (download_file (rt:=cpython_fragment) timeout_then_ok
            (Some (lit "General Hospital")) (Some (lit "https://example.org/prices"))
            (Some (lit "JSON")) (Some (lit "Bay Area")) [lit "public_prices"]
            empty_world).2.
  split; [evaluated|]. by split_and!; [..|evaluated].
Qed.

Lemma failed_result_size_zero_witness :
  let net := λ _ : nat, ok_response
    (Stream [[Byte.x7b]; []; [Byte.x7d]] (Some (Exception (lit "No space left on device")))) in
  url_path (Runtime:=cpython_fragment) (Some (lit "https://example.org/foo.csv"))
    = Parsed (lit "/foo.csv")
  ∧ mkdir_error (path_div [lit "public_prices"]
                   (sanitize_filename (rt:=cpython_fragment) (lit "A"))) empty_world = None
  ∧ is_error_status 200 = false
  ∧ ∃ filepath r st',
      download_file (rt:=cpython_fragment) net (Some (lit "Foo Clinic"))
        (Some (lit "https://example.org/foo.csv")) (Some (lit "CSV")) (Some (lit "A"))
        [lit "public_prices"] empty_world = (Return r, st')
      ∧ fs empty_world !! filepath = None
      ∧ fs st' !! filepath = Some (File [Byte.x7b; Byte.x7d])
      ∧ (transport_failure (net 0%nat) = false → Result.success r = false)
      ∧ (Result.success r = false → Result.size r = 0).
Proof.
  intros net. split; [reflexivity|]. split; [reflexivity|]. split; [reflexivity|].
  exact (proj2 (failed_result_size_zero (rt:=cpython_fragment) net)
           (lit "Foo Clinic") (lit "https://example.org/foo.csv") (lit "CSV") (lit "A")
           (lit "/foo.csv") [lit "public_prices"] empty_world 200 (lit "OK") ∅
           [[Byte.x7b]; []; [Byte.x7d]] (Exception (lit "No space left on device"))
           eq_refl eq_refl eq_refl eq_refl).
Defined.

Lemma destination_filename_witness :
  let net := λ _ : nat, ok_response (Stream [[Byte.x7b; Byte.x7d]] None) in
  let region_dir := [lit "public_prices"; lit "bay_area"] in
  sanitize_filename (rt:=cpython_fragment) (lit "Mercy Hospital")
    = sanitize_filename (rt:=cpython_fragment) (lit "mercy  hospital")
  ∧ mkdir_error region_dir empty_world = None
  ∧ fs (makedirs region_dir empty_world) !! (region_dir ++ [lit "mercy_hospital.json"]) = None
  ∧ fs (makedirs region_dir empty_world) !! (region_dir ++ [lit "mercy_hospital_1.json"]) = None
  ∧ ∃ l r1 st1 r2 st2,
      download_file (rt:=cpython_fragment) net (Some (lit "Mercy Hospital"))
        (Some (lit "https://example.org/a")) (Some (lit "JSON")) (Some (lit "Bay Area"))
        [lit "public_prices"] empty_world = (Return r1, st1)
      ∧ download_file (rt:=cpython_fragment) net (Some (lit "mercy  hospital"))
          (Some (lit "https://example.org/b")) (Some (lit "API")) (Some (lit "bay area"))
          [lit "public_prices"] st1 = (Return r2, st2)
      ∧ [lit "public_prices"] = parent [lit "public_prices"] ++ l
      ∧ Result.filename r1
        = Some (path_str (l ++ [lit "bay_area"] ++ [lit "mercy_hospital.json"]))
      ∧ Result.filename r2
        = Some (path_str (l ++ [lit "bay_area"] ++ [lit "mercy_hospital_1.json"]))
      ∧ region_dir ++ [lit "mercy_hospital.json"]
        ≠ region_dir ++ [lit "mercy_hospital_1.json"]
      ∧ fs st2 !! (region_dir ++ [lit "mercy_hospital.json"])
        = Some (File [Byte.x7b; Byte.x7d])
      ∧ fs st2 !! (region_dir ++ [lit "mercy_hospital_1.json"])
        = Some (File [Byte.x7b; Byte.x7d]).
Proof.
  intros net region_dir. split; [reflexivity|]. split; [reflexivity|].
  assert (H1 : fs (makedirs region_dir empty_world)
                 !! (region_dir ++ [lit "mercy_hospital.json"]) = None) by evaluated.
  assert (H2 : fs (makedirs region_dir empty_world)
                 !! (region_dir ++ [lit "mercy_hospital_1.json"]) = None) by evaluated.
  split; [exact H1|]. split; [exact H2|].
  exact (proj2 (proj2 (destination_filename (rt:=cpython_fragment) net))
           (lit "Mercy Hospital") (lit "mercy  hospital")
           (lit "https://example.org/a") (lit "https://example.org/b")
           (lit "JSON") (lit "API") (lit "Bay Area") (lit "bay area")
           [lit "public_prices"] empty_world (lit ".json") (lit ".json")
           200 200 (lit "OK") (lit "OK") ∅ ∅
           [[Byte.x7b; Byte.x7d]] [[Byte.x7b; Byte.x7d]]
           eq_refl eq_refl eq_refl eq_refl eq_refl eq_refl eq_refl eq_refl eq_refl
           eq_refl H1 H2).
Defined.




Lemma two_row_run_ok :
  main (rt:=cpython_fragment) always_ok (Some two_row_manifest) [lit "repo"] empty_world
  = (Return 0%nat,
     (main (rt:=cpython_fragment) always_ok (Some two_row_manifest) [lit "repo"]
        empty_world).2).
Proof. evaluated. Qed.








(** * Further properties *)

(** ** The sanitizer and case *)

Lemma filter_fmap_commute {A} (P : A → Prop) `{∀ x, Decision (P x)} (f : A → A) (l : list A) :
  Forall (λ x, P (f x) ↔ P x) l → filter P (f <$> l) = f <$> filter P l.
Proof.
  induction 1 as [|x l Hx Hl IH]; [done|]. csimpl.
  destruct (decide (P x)) as [Hp|Hp].
  - rewrite (filter_cons_True P (f x)) by (by apply Hx).
    rewrite (filter_cons_True P x) by done. csimpl. by rewrite IH.
  - rewrite (filter_cons_False P (f x)) by (by rewrite Hx).
    by rewrite (filter_cons_False P x) by done.
Qed.

Lemma ascii_lower_bound c : c < 128 → ascii_lower c < 128.
Proof. unfold ascii_lower. intros Hc. char_cases. Qed.

Lemma ascii_lower_idemp c : ascii_lower (ascii_lower c) = ascii_lower c.
Proof. unfold ascii_lower. char_cases. Qed.

Section SanitizerCase.
Context {rt : Runtime}.
Hypothesis faithful : ascii_faithful rt.

Lemma sub_spaces_lower b name :
  is_ascii name → sub_spaces b (ascii_lower <$> name) = ascii_lower <$> sub_spaces b name.
Proof.
  intros Hname. revert b. induction Hname as [|c name Hc Hname IH]; intros b; [done|].
  rewrite fmap_cons. cbn [sub_spaces].
  rewrite (af_isspace rt faithful _ (ascii_lower_bound c Hc)), (af_isspace rt faithful c Hc).
  assert (E : ascii_isspace (ascii_lower c) = ascii_isspace c).
  { unfold ascii_isspace, ascii_lower. char_cases. }
  rewrite E. destruct (ascii_isspace c); [destruct b|]; rewrite ?fmap_cons, IH; done.
Qed.

(** X1: on ASCII names the sanitizer ignores case: two names that
    differ only in the case of their letters get the same filename, so
    that their files are told apart by the counter only. *)
Theorem sanitize_filename_ignores_case (name1 name2 : list N) :
  is_ascii name1 → is_ascii name2 →
  ascii_lower <$> name1 = ascii_lower <$> name2 →
  sanitize_filename name1 = sanitize_filename name2.
Proof.
  assert (Hlow : ∀ name, is_ascii name →
            sanitize_filename (ascii_lower <$> name) = sanitize_filename name).
  { intros name Hname. unfold sanitize_filename.
    rewrite filter_fmap_commute.
    2:{ eapply Forall_impl; [exact Hname|]. intros c Hc; cbv beta.
        assert (E : char_in (ascii_lower c) (dquote :: lit "<>:/\|?*")
                    = char_in c (dquote :: lit "<>:/\|?*")).
        { unfold char_in, dquote, ascii_lower.
          change (lit "<>:/\|?*") with [60; 62; 58; 47; 92; 124; 63; 42]. simpl.
          char_cases. }
        by rewrite E. }
    set (a := filter _ name).
    assert (Ha : is_ascii a) by (by apply Forall_filter_keep).
    rewrite (sub_spaces_lower false a Ha).
    set (b := sub_spaces false a).
    assert (Hb : is_ascii b) by (apply sub_spaces_forall; [lia|done]).
    rewrite filter_fmap_commute.
    2:{ eapply Forall_impl; [exact Hb|]. intros c Hc; cbv beta.
        assert (E : is_word (ascii_lower c) || char_in (ascii_lower c) (lit "-_.")
                    = is_word c || char_in c (lit "-_.")).
        { unfold is_word.
          rewrite (af_isalnum rt faithful _ (ascii_lower_bound c Hc)),
            (af_isalnum rt faithful c Hc).
          unfold ascii_isalnum, char_in, ascii_lower.
          change (lit "-_.") with [45; 95; 46]. simpl. char_cases. }
        by rewrite E. }
    set (d := filter _ b).
    assert (Hd : is_ascii d) by (by apply Forall_filter_keep).
    rewrite !(af_lower rt faithful).
    - rewrite <- list_fmap_compose. f_equal. apply list_fmap_ext.
      intros i c _. apply ascii_lower_idemp.
    - done.
    - apply Forall_fmap. eapply Forall_impl; [exact Hd|].
      intros c Hc. by apply ascii_lower_bound. }
  intros H1 H2 E. by rewrite <- (Hlow name1 H1), <- (Hlow name2 H2), E.
Qed.

End SanitizerCase.

(** ** The range of the extensions *)

Section ExtensionRange.
Context {rt : Runtime}.

(** X2: the extension chosen before the request is always one of
    .csv, .json, .zip, .xlsx and .xml, and it is .xlsx or .xml only when
    the URL path ends with it: the declared type never gives these two. *)
Theorem get_extension_from_url_range (url file_type : option (list N)) (ext : list N) :
  get_extension_from_url url file_type = Return ext →
  ext ∈ recognized_suffixes
  ∧ (ext = lit ".xlsx" ∨ ext = lit ".xml" →
     ∃ path, url_path url = Parsed path ∧ endswith path ext = true).
Proof.
  unfold get_extension_from_url, recognized_suffixes.
  destruct (url_path url) as [path|e]; [|done].
  repeat case_match; intros [= <-]; (split; [set_solver|]);
    intros [E|E]; try discriminate E; by exists path.
Qed.

(** X3: the extension chosen after the response is a recognized
    suffix, or the expected extension, or a dot followed by the
    lowercased text after the last dot of the filename of the
    [Content-Disposition] header, a text without a dot; and it starts
    with a dot whenever the expected extension does. *)
Theorem get_extension_from_response_shape (headers : gmap (list N) (list N))
    (default_ext : list N) :
  let ext := get_extension_from_response headers default_ext in
  (ext ∈ recognized_suffixes
   ∨ ext = default_ext
   ∨ ∃ pre filename,
       disposition_filename (headers_get headers (lit "Content-Disposition") [])
         = Some filename
       ∧ filename = pre ++ 46 :: after_last 46 filename
       ∧ char_in 46 (after_last 46 filename) = false
       ∧ ext = lit "." ++ str_lower (after_last 46 filename))
  ∧ (startswith (lit ".") default_ext = true → startswith (lit ".") ext = true).
Proof.
  intros ext. unfold ext, get_extension_from_response, recognized_suffixes.
  repeat case_match; (split; [|done]); try (left; set_solver); try (by right; left).
  right. right.
  match goal with H : char_in 46 ?f = true |- _ =>
    destruct (after_last_split 46 f H) as [pre Hpre]; exists pre, f end.
  split; [done|]. split; [done|]. split; [apply after_last_no_sep|done].
Qed.

End ExtensionRange.

(** ** What the filename expression captures *)

Lemma first_down_some {A} (f : nat → option A) n r :
  first_down f n = Some r → ∃ k, (k ≤ n)%nat ∧ f k = Some r.
Proof.
  induction n as [|n IH]; cbn [first_down]; destruct (f _) eqn:E.
  - intros [= <-]. by exists 0%nat.
  - done.
  - intros [= <-]. by exists (S n).
  - intros H. destruct (IH H) as (k & Hk & Hf). exists k. split; [lia|done].
Qed.

Lemma first_down_none {A} (f : nat → option A) n :
  (∀ k, (k ≤ n)%nat → f k = None) → first_down f n = None.
Proof.
  induction n as [|n IH]; intros H; cbn [first_down]; rewrite (H _ (le_n _)); [done|].
  apply IH. intros k Hk. apply H. lia.
Qed.

Lemma run_not_all excl s :
  Forall (λ c, char_in c excl = false) s → run_not excl s = length s.
Proof. induction 1 as [|c s Hc Hs IH]; simpl; [done|]. by rewrite Hc, IH. Qed.

(** After the equals sign the expression always matches, with two groups. *)
Lemma match_value_some (t : list N) :
  ∃ g1 g2, match_here [GroupOpt [squote; dquote];
                       GroupStarNot [squote; dquote; newline]; Backref 1] t []
           = Some [g1; g2].
Proof.
  assert (Hplain : match_here [GroupStarNot [squote; dquote; newline]; Backref 1] t
                     ([] ++ [[]])
                   = Some [[]; take (run_not [squote; dquote; newline] t) t]).
  { cbn [match_here]. by apply first_down_hit. }
  cbn [match_here] in *. destruct t as [|c t]; [by eexists _, _|].
  destruct (char_in c [squote; dquote]); [|by eexists _, _].
  destruct (first_down _ (run_not [squote; dquote; newline] t)) as [r|] eqn:E.
  - apply first_down_some in E as (k & _ & E). cbn in E.
    destruct (match drop k t with [] => false | b :: _ => (c =? b) && true end); [|done].
    injection E as <-. by eexists _, _.
  - by eexists _, _.
Qed.

Lemma match_filename_eq (t : list N) :
  ∃ g1 g2, match_here filename_re (lit "filename=" ++ t) [] = Some [g1; g2].
Proof.
  destruct (match_value_some t) as (g1 & g2 & H). exists g1, g2.
  unfold filename_re. cbn [match_here].
  change (startswith (lit "filename") (lit "filename=" ++ t)) with true. cbv iota.
  change (drop (length (lit "filename")) (lit "filename=" ++ t)) with (61 :: t).
  change (run_not (lit ";=" ++ [newline]) (61 :: t)) with 0%nat.
  cbn [first_down drop].
  change (startswith (lit "=") (61 :: t)) with true. cbv iota.
  change (drop (length (lit "=")) (61 :: t)) with t.
  cbn [match_here] in H. by rewrite H.
Qed.

Lemma match_filename_groups s g :
  match_here filename_re s [] = Some g → length g = 2%nat.
Proof.
  unfold filename_re. cbn [match_here].
  destruct (startswith (lit "filename") s); [|done].
  intros H. apply first_down_some in H as (k & _ & H). cbv beta in H.
  destruct (startswith (lit "=") _); [|done].
  set (t := drop (length (lit "=")) _) in H.
  assert (Hrest : ∀ u g0, length g0 = 1%nat →
            first_down (λ j, match (g0 ++ [take j u]) !! pred 1 with
                             | Some w => if startswith w (drop j u)
                                         then Some (g0 ++ [take j u]) else None
                             | None => None
                             end) (run_not [squote; dquote; newline] u) = Some g →
            length g = 2%nat).
  { intros u g0 Hg0 Hf. apply first_down_some in Hf as (j & _ & Hf). cbv beta in Hf.
    destruct (_ !! _); [|done]. destruct (startswith _ _); [|done].
    injection Hf as <-. rewrite length_app, Hg0. done. }
  destruct t as [|c t']; [by eapply (Hrest [] [[]])|].
  destruct (char_in c [squote; dquote]); [|by eapply (Hrest (c :: t') [[]])].
  destruct (first_down _ (run_not [squote; dquote; newline] t')) eqn:E.
  - injection H as <-. by eapply (Hrest t' [[c]]).
  - by eapply (Hrest (c :: t') [[]]).
Qed.

Lemma re_search_some s :
  contains (lit "filename=") s = true →
  ∃ g1 g2, re_search filename_re s = Some [g1; g2].
Proof.
  assert (Hshape : ∀ u g, match_here filename_re u [] = Some g → ∃ g1 g2, g = [g1; g2]).
  { intros u g Hg. apply match_filename_groups in Hg.
    destruct g as [|g1 [|g2 [|]]]; try done. by exists g1, g2. }
  induction s as [|c s IH]; cbn [contains re_search]; intros H.
  - rewrite orb_false_r in H. apply startswith_spec in H as [post H]. done.
  - destruct (match_here filename_re (c :: s) []) as [g|] eqn:E.
    + destruct (Hshape _ _ E) as (g1 & g2 & ->). by exists g1, g2.
    + apply orb_true_iff in H as [H|H]; [|by apply IH].
      apply startswith_spec in H as [post H]. rewrite H in E.
      destruct (match_filename_eq post) as (g1 & g2 & E'). congruence.
Qed.

(** X4: the filename expression finds a match in every header that
    contains the text [filename=], so that the test on the match in the
    source never fails; and a header without that text gives no
    filename. *)
Theorem disposition_filename_defined (content_disp : list N) :
  is_Some (disposition_filename content_disp)
  ↔ contains (lit "filename=") content_disp = true.
Proof.
  unfold disposition_filename. split.
  - destruct (contains _ _); [done|]. by intros [? ?].
  - intros H. rewrite H. destruct (re_search_some _ H) as (g1 & g2 & ->). by eexists.
Qed.

Lemma re_search_skip c t : c ≠ 102 → re_search filename_re (c :: t) = re_search filename_re t.
Proof.
  intros Hc. cbn [re_search]. unfold filename_re at 1. cbn [match_here].
  change (lit "filename") with (102 :: lit "ilename"). cbn [startswith].
  apply N.eqb_neq in Hc. rewrite N.eqb_sym in Hc. by rewrite Hc.
Qed.

Lemma re_search_prefix pre s :
  Forall (λ c, c ≠ 102) pre → re_search filename_re (pre ++ s) = re_search filename_re s.
Proof.
  induction 1 as [|c pre Hc Hpre IH]; [done|]. cbn [app]. by rewrite re_search_skip.
Qed.

Lemma disposition_filename_at pre t g1 g2 :
  Forall (λ c, c ≠ 102) pre →
  match_here filename_re (lit "filename=" ++ t) [] = Some [g1; g2] →
  disposition_filename (pre ++ lit "filename=" ++ t) = Some g2.
Proof.
  intros Hpre Hm. unfold disposition_filename.
  rewrite contains_app by apply contains_here, startswith_refl.
  rewrite re_search_prefix by done.
  by rewrite (re_search_here _ _ _ Hm).
Qed.

Lemma match_filename_value t g :
  match_here [GroupOpt [squote; dquote]; GroupStarNot [squote; dquote; newline]; Backref 1]
    t [] = Some g →
  match_here filename_re (lit "filename=" ++ t) [] = Some g.
Proof.
  intros H. unfold filename_re. cbn [match_here].
  change (startswith (lit "filename") (lit "filename=" ++ t)) with true. cbv iota.
  change (drop (length (lit "filename")) (lit "filename=" ++ t)) with (61 :: t).
  change (run_not (lit ";=" ++ [newline]) (61 :: t)) with 0%nat.
  cbn [first_down drop].
  change (startswith (lit "=") (61 :: t)) with true. cbv iota.
  change (drop (length (lit "=")) (61 :: t)) with t.
  cbn [match_here] in H. by rewrite H.
Qed.

(** X5: a filename value without quotes is taken up to the end of the
    header, with whatever parameters follow it: the match does not stop
    at a semicolon.  (No letter f before [filename=], so that the
    leftmost match starts there.) *)
Theorem disposition_filename_unquoted (pre value : list N) :
  Forall (λ c, c ≠ 102) pre →
  Forall (λ c, char_in c [squote; dquote; newline] = false) value →
  disposition_filename (pre ++ lit "filename=" ++ value) = Some value.
Proof.
  intros Hpre Hvalue. apply (disposition_filename_at pre value []); [done|].
  apply match_filename_value. cbn [match_here].
  assert (Hgo : first_down
            (λ k, match (([] ++ [[]]) ++ [take k value]) !! pred 1 with
                  | Some t => if startswith t (drop k value)
                              then Some (([] ++ [[]]) ++ [take k value]) else None
                  | None => None
                  end) (run_not [squote; dquote; newline] value) = Some [[]; value]).
  { rewrite (run_not_all _ _ Hvalue). apply first_down_hit. cbn.
    by rewrite firstn_all. }
  destruct value as [|c value]; [done|].
  assert (Hc : char_in c [squote; dquote] = false).
  { apply Forall_cons in Hvalue as [Hc _]. revert Hc. unfold char_in. simpl.
    intros Hc. apply orb_false_iff in Hc as [H1 Hc]. apply orb_false_iff in Hc as [H2 _].
    by rewrite H1, H2. }
  by rewrite Hc.
Qed.

(** X6: a filename value that opens with a quote which is never
    closed gives the empty filename, so that the header decides
    nothing. *)
Theorem disposition_filename_unclosed (pre name : list N) (q : N) :
  q = squote ∨ q = dquote →
  Forall (λ c, c ≠ 102) pre →
  Forall (λ c, char_in c [squote; dquote; newline] = false) name →
  disposition_filename (pre ++ lit "filename=" ++ q :: name) = Some [].
Proof.
  intros Hq Hpre Hname. apply (disposition_filename_at pre (q :: name) []); [done|].
  apply match_filename_value. cbn [match_here].
  assert (Hin : char_in q [squote; dquote] = true) by (by destruct Hq as [->| ->]).
  assert (Hin' : char_in q [squote; dquote; newline] = true) by (by destruct Hq as [->| ->]).
  rewrite Hin. rewrite first_down_none.
  - apply first_down_hit. cbn [run_not]. by rewrite Hin'.
  - intros k _. cbn. destruct (drop k name) as [|c rest] eqn:E; [done|].
    assert (Hc : c ∈ name).
    { rewrite <- (take_drop k name), E. apply elem_of_app. right. left. }
    eapply Forall_forall in Hname; [|exact Hc]. cbn in Hname.
    cbn. destruct (N.eqb_spec q c) as [->|]; [|done].
    destruct Hq as [->| ->]; by vm_compute in Hname.
Qed.

(** ** The requests and the file of a call *)








Lemma written_concat chunks : written chunks = concat chunks.
Proof.
  unfold written. induction chunks as [|chunk chunks IH]; [done|].
  destruct chunk as [|b chunk].
  - by rewrite filter_cons_False by (by intros []).
  - rewrite filter_cons_True by done. simpl. by rewrite IH.
Qed.

Section Attempts.
Context {rt : Runtime} (net : nat → exchange).

(** How many requests the loop makes, and how it ends. *)
Lemma for_attempts_count attempts url output_dir mid base_name expected_ext result st :
  let m := leading_failures net (calls st) (length attempts) in
  ∃ e r st',
    for_attempts net attempts url (output_dir ++ mid) output_dir base_name
      expected_ext result st = (e, r, st')
    ∧ calls st' = (calls st + Nat.min (length attempts) (S m))%nat
    ∧ (e = ReturnedResult ↔
       (m < length attempts)%nat ∧ raised_by (net (calls st + m)%nat) = None)
    ∧ (raised_by (net (calls st)) = None ∨ attempts = [] → Result.error r = Result.error result)
    ∧ (raised_by (net (calls st)) ≠ None → attempts ≠ [] → is_Some (Result.error r)).
Proof.
  revert result st. induction attempts as [|attempt rest IH]; intros result st m.
  { exists FellThrough, result, st. subst m. cbn. split_and!; try done; try lia.
    split; [done|]. intros [? _]. lia. }
  subst m. cbn [length leading_failures]. unfold transport_failure.
  destruct (raised_by (net (calls st))) as [e|] eqn:He.
  - destruct (for_attempts_raised net attempt rest url (output_dir ++ mid) output_dir
                base_name expected_ext result st e He)
      as (st1 & Hc1 & _ & _ & _ & ->). cbv zeta.
    set (result' := Result.set_error (Some (error_message attempt e)) result).
    assert (Hstop : e = e →
      ∃ e0 r st',
        (FellThrough, result', st1) = (e0, r, st')
        ∧ calls st' = (calls st + Nat.min (S (length rest)) 1)%nat
        ∧ (e0 = ReturnedResult ↔
           (0 < S (length rest))%nat ∧ raised_by (net (calls st + 0)%nat) = None)
        ∧ (Some e = None ∨ attempt :: rest = [] → Result.error r = Result.error result)
        ∧ (Some e ≠ None → attempt :: rest ≠ [] → is_Some (Result.error r))).
    { intros _. exists FellThrough, result', st1. split; [done|].
      split; [simpl; lia|]. split.
      - split; [done|]. rewrite Nat.add_0_r, He. by intros [_ ?].
      - split; [by intros [?|?]|]. intros _ _. by eexists. }
    assert (Hgo : e = e →
      ∃ e0 r st',
        for_attempts net rest url (output_dir ++ mid) output_dir base_name expected_ext
          result' (backoff attempt st1) = (e0, r, st')
        ∧ calls st' = (calls st + Nat.min (S (length rest))
                         (S (S (leading_failures net (S (calls st)) (length rest)))))%nat
        ∧ (e0 = ReturnedResult ↔
           (S (leading_failures net (S (calls st)) (length rest)) < S (length rest))%nat
           ∧ raised_by (net (calls st
                             + S (leading_failures net (S (calls st)) (length rest)))%nat)
             = None)
        ∧ (Some e = None ∨ attempt :: rest = [] → Result.error r = Result.error result)
        ∧ (Some e ≠ None → attempt :: rest ≠ [] → is_Some (Result.error r))).
    { intros _. destruct (IH result' (backoff attempt st1))
        as (e0 & r & st' & Hrun & Hc & Hret & Hsame & Hsome).
      rewrite backoff_calls, Hc1 in Hc, Hret, Hsame, Hsome.
      exists e0, r, st'. split; [done|]. split; [rewrite Hc; lia|]. split.
      - rewrite Hret. rewrite Nat.add_succ_r. simpl. split; intros [? ?]; split; (lia || done).
      - split; [by intros [?|?]|]. intros _ _.
        destruct rest as [|a rest'].
        + rewrite Hsame by (by right). by eexists.
        + destruct (raised_by (net (S (calls st)))) eqn:E.
          * by apply Hsome.
          * rewrite Hsame by (by left). by eexists. }
    destruct e; [by apply Hgo|by apply Hstop|by apply Hgo|by apply Hstop].
  - destruct (try_download_returned net url output_dir mid base_name expected_ext
                result st He)
      as (status_code & reason & headers & chunks & j & l & _ & _ & _ & Htry).
    cbv zeta in Htry. destruct Htry as (_ & _ & Htry).
    cbn [for_attempts]. rewrite Htry. eexists _, _, _. split; [done|].
    split; [simpl; lia|]. split.
    + split; [|done]. intros _. split; [lia|]. by rewrite Nat.add_0_r.
    + split; [done|]. by intros [].
Qed.

(** The loop ends by its [return] only with the body of a good response
    in a file that was not there. *)
Lemma for_attempts_returned attempts url output_dir mid base_name expected_ext result st
    r st' :
  for_attempts net attempts url (output_dir ++ mid) output_dir base_name expected_ext
    result st = (ReturnedResult, r, st') →
  ∃ k status_code reason headers chunks l j,
    let rel := mid ++ parts (candidate base_name
                               (get_extension_from_response headers expected_ext) j) in
    (calls st ≤ k)%nat ∧ calls st' = S k
    ∧ net k = Response status_code reason headers (Stream chunks None)
    ∧ is_error_status status_code = false
    ∧ output_dir = parent output_dir ++ l
    ∧ Result.filename r = Some (path_str (l ++ rel))
    ∧ fs st !! (output_dir ++ rel) = None
    ∧ fs st' !! (output_dir ++ rel) = Some (File (concat chunks))
    ∧ Result.size r = N.of_nat (length (concat chunks)).
Proof.
  revert result st. induction attempts as [|attempt rest IH]; intros result st; [done|].
  destruct (raised_by (net (calls st))) as [e|] eqn:He.
  - destruct (for_attempts_raised net attempt rest url (output_dir ++ mid) output_dir
                base_name expected_ext result st e He)
      as (st1 & Hc1 & _ & _ & Hfs & ->). cbv zeta.
    assert (Hgo : for_attempts net rest url (output_dir ++ mid) output_dir base_name
                    expected_ext (Result.set_error (Some (error_message attempt e)) result)
                    (backoff attempt st1) = (ReturnedResult, r, st') →
      ∃ k status_code reason headers chunks l j,
        (calls st ≤ k)%nat ∧ calls st' = S k
        ∧ net k = Response status_code reason headers (Stream chunks None)
        ∧ is_error_status status_code = false
        ∧ output_dir = parent output_dir ++ l
        ∧ Result.filename r
          = Some (path_str (l ++ mid ++ parts (candidate base_name
                     (get_extension_from_response headers expected_ext) j)))
        ∧ fs st !! (output_dir ++ mid ++ parts (candidate base_name
                     (get_extension_from_response headers expected_ext) j)) = None
        ∧ fs st' !! (output_dir ++ mid ++ parts (candidate base_name
                     (get_extension_from_response headers expected_ext) j))
          = Some (File (concat chunks))
        ∧ Result.size r = N.of_nat (length (concat chunks))).
    { intros Hrun. destruct (IH _ _ Hrun)
        as (k & sc & rs & hs & cs & l & j & Hk & Hk' & Hnet & Hst & Hl & Hf & Hnone
            & Hfile & Hsz).
      rewrite backoff_calls, Hc1 in Hk. rewrite backoff_fs in Hnone.
      exists k, sc, rs, hs, cs, l, j. split; [lia|]. split_and!; try done.
      by eapply lookup_weaken_None. }
    destruct e; [exact Hgo|done|exact Hgo|done].
  - destruct (try_download_returned net url output_dir mid base_name expected_ext
                result st He)
      as (status_code & reason & headers & chunks & j & l & Hnet & Hst & Hl & Htry).
    cbv zeta in Htry. destruct Htry as (Hfree & _ & Htry).
    cbn [for_attempts]. rewrite Htry. intros [= <- <-].
    exists (calls st), status_code, reason, headers, chunks, l, j. cbv zeta.
    unfold path_div in *. rewrite <- !app_assoc in *. rewrite <- written_concat.
    split; [lia|]. split_and!; try done. simpl. apply lookup_insert_eq.
Qed.

(** What the loop adds to the trace: requests for the URL, waits of one
    or two seconds, and the line of the success. *)
Lemma for_attempts_trace attempts url output_dir mid base_name expected_ext result st
    e r st' :
  for_attempts net attempts url (output_dir ++ mid) output_dir base_name expected_ext
    result st = (e, r, st') →
  ∃ evs, trace st' = trace st ++ evs ∧ Forall (fetch_event url) evs
    ∧ (calls st' = calls st + count_events is_get evs)%nat.
Proof.
  revert result st. induction attempts as [|attempt rest IH]; intros result st.
  { intros [= <- <- <-]. exists []. rewrite app_nil_r. split_and!; [done|done|].
    unfold count_events; simpl; lia. }
  destruct (raised_by (net (calls st))) as [x|] eqn:He.
  - destruct (for_attempts_raised net attempt rest url (output_dir ++ mid) output_dir
                base_name expected_ext result st x He)
      as (st1 & Hc1 & Ht1 & _ & _ & ->). cbv zeta.
    assert (Hstop : (FellThrough,
                     Result.set_error (Some (error_message attempt x)) result, st1)
                    = (e, r, st') →
      ∃ evs, trace st' = trace st ++ evs ∧ Forall (fetch_event url) evs
        ∧ (calls st' = calls st + count_events is_get evs)%nat).
    { intros [= <- <- <-]. exists [Get url]. split; [done|]. split.
      - by repeat constructor.
      - rewrite Hc1. unfold count_events; simpl; lia. }
    assert (Hgo : for_attempts net rest url (output_dir ++ mid) output_dir base_name
                    expected_ext (Result.set_error (Some (error_message attempt x)) result)
                    (backoff attempt st1) = (e, r, st') →
      ∃ evs, trace st' = trace st ++ evs ∧ Forall (fetch_event url) evs
        ∧ (calls st' = calls st + count_events is_get evs)%nat).
    { intros Hrun. destruct (IH _ _ Hrun) as (evs & Htr & Hevs & Hc).
      rewrite backoff_calls, Hc1 in Hc. unfold backoff in Htr.
      destruct (attempt <? RETRY_ATTEMPTS - 1)%nat eqn:Hlt.
      - exists (Get url :: Sleep (inject_Z (2 ^ Z.of_nat attempt)) :: evs).
        split; [|split].
        + rewrite Htr. unfold sleep, emit; cbn [trace]. rewrite Ht1.
          by rewrite <- !app_assoc.
        + constructor; [done|]. constructor; [|done].
          apply Nat.ltb_lt in Hlt. unfold RETRY_ATTEMPTS in Hlt. simpl.
          destruct attempt as [|[|?]]; [by left|by right|lia].
        + rewrite Hc. unfold count_events; simpl; lia.
      - exists (Get url :: evs). split; [|split].
        + rewrite Htr, Ht1. by rewrite <- !app_assoc.
        + by constructor.
        + rewrite Hc. unfold count_events; simpl; lia. }
    destruct x; [exact Hgo|exact Hstop|exact Hgo|exact Hstop].
  - destruct (try_download_returned net url output_dir mid base_name expected_ext
                result st He)
      as (status_code & reason & headers & chunks & j & l & _ & _ & _ & Htry).
    cbv zeta in Htry. destruct Htry as (_ & _ & Htry).
    cbn [for_attempts]. rewrite Htry. intros [= <- <- <-]. eexists. split; [done|].
    split; [by repeat constructor|]. unfold count_events; simpl; lia.
Qed.

End Attempts.

Section FetcherRuns.
Context {rt : Runtime} (net : nat → exchange).

(** How [download_file] divides into what it does before the loop, the
    loop, and the line of the failure. *)
Lemma download_file_returned hospital_name url file_type region output_dir st r st' :
  download_file net hospital_name url file_type region output_dir st = (Return r, st') →
  ∃ name reg expected_ext e st1,
    let mid := parts (sanitize_filename reg) in
    hospital_name = Some name ∧ region = Some reg
    ∧ get_extension_from_url url file_type = Return expected_ext
    ∧ for_attempts net (seq 0 RETRY_ATTEMPTS) url (output_dir ++ mid) output_dir
        (sanitize_filename name) expected_ext
        (Result.mk hospital_name url false None None 0) (makedirs (output_dir ++ mid) st)
      = (e, r, st1)
    ∧ (e = ReturnedResult ∧ st' = st1 ∧ Result.success r = true
       ∨ e = FellThrough ∧ st' = emit (Print (FailLine hospital_name (Result.error r))) st1
         ∧ Result.success r = false).
Proof.
  unfold download_file.
  pose proof (prepare_inv hospital_name url file_type region output_dir st) as Hprep.
  destruct (prepare hospital_name url file_type region output_dir st)
    as [[[[region_dir base_name] expected_ext]|e|] st0]; [|done..].
  destruct Hprep as (name & reg & -> & -> & -> & -> & Hext & -> & _).
  destruct (for_attempts_inv net (seq 0 RETRY_ATTEMPTS) url output_dir
              (parts (sanitize_filename reg)) (sanitize_filename name) expected_ext
              (Result.mk (Some name) url false None None 0)
              (makedirs (output_dir ++ parts (sanitize_filename reg)) st))
    as (e & r0 & st1 & Hrun & _ & _ & _ & _ & _ & Hend).
  rewrite Hrun. destruct e; [| |done].
  - intros [= <- <-]. exists name, reg, expected_ext, ReturnedResult, st1.
    cbv zeta. split_and!; [done..|]. left. by destruct Hend.
  - intros [= <- <-]. exists name, reg, expected_ext, FellThrough, st1.
    cbv zeta. split_and!; [done..|]. right. by destruct Hend as (-> & _).
Qed.

(** The number of requests of a call that returns. *)
Lemma download_file_calls hospital_name url file_type region output_dir st r st' :
  download_file net hospital_name url file_type region output_dir st = (Return r, st') →
  let k := calls st in
  let m := leading_failures net k RETRY_ATTEMPTS in
  calls st' = (k + Nat.min RETRY_ATTEMPTS (S m))%nat
  ∧ (Result.success r = true
     ↔ (m < RETRY_ATTEMPTS)%nat ∧ raised_by (net (k + m)%nat) = None).
Proof.
  intros Hrun k m.
  destruct (download_file_returned _ _ _ _ _ _ _ _ Hrun)
    as (name & reg & expected_ext & e & st1 & _ & _ & _ & Hloop & Hend).
  destruct (makedirs_same (output_dir ++ parts (sanitize_filename reg)) st) as (Hc & _ & _).
  destruct (for_attempts_count net (seq 0 RETRY_ATTEMPTS) url output_dir
              (parts (sanitize_filename reg)) (sanitize_filename name) expected_ext
              (Result.mk hospital_name url false None None 0)
              (makedirs (output_dir ++ parts (sanitize_filename reg)) st))
    as (e' & r' & st1' & Hloop' & Hcalls & Hret & Hsame & Hsome).
  rewrite Hloop in Hloop'. injection Hloop' as <- <- <-.
  rewrite Hc in Hcalls, Hret, Hsame, Hsome. rewrite length_seq in Hcalls, Hret.
  fold k in Hcalls, Hret, Hsame, Hsome. fold m in Hcalls, Hret.
  split.
  - destruct Hend as [(_ & -> & _)|(_ & -> & _)]; exact Hcalls.
  - rewrite <- Hret. destruct Hend as [(-> & _ & ->)|(-> & _ & ->)]; by split.
Qed.

(** The file of a successful result. *)
Lemma download_file_written hospital_name url file_type region output_dir st r st' :
  download_file net hospital_name url file_type region output_dir st = (Return r, st') →
  Result.success r = true →
  ∃ name reg expected_ext k status_code reason headers chunks l j,
    let filename := candidate (sanitize_filename name)
                      (get_extension_from_response headers expected_ext) j in
    let rel := parts (sanitize_filename reg) ++ parts filename in
    hospital_name = Some name ∧ region = Some reg
    ∧ get_extension_from_url url file_type = Return expected_ext
    ∧ calls st' = S k
    ∧ net k = Response status_code reason headers (Stream chunks None)
    ∧ is_error_status status_code = false
    ∧ output_dir = parent output_dir ++ l
    ∧ Result.filename r = Some (path_str (l ++ rel))
    ∧ fs st !! (output_dir ++ rel) = None
    ∧ fs st' !! (output_dir ++ rel) = Some (File (concat chunks))
    ∧ Result.size r = N.of_nat (length (concat chunks)).
Proof.
  intros Hrun Hok.
  destruct (download_file_returned _ _ _ _ _ _ _ _ Hrun)
    as (name & reg & expected_ext & e & st1 & Hn & Hr & Hext & Hloop & Hend).
  destruct Hend as [(-> & -> & _)|(_ & _ & Hfail)]; [|congruence].
  destruct (for_attempts_returned net _ _ _ _ _ _ _ _ _ _ Hloop)
    as (k & sc & rs & hs & cs & l & j & _ & Hk & Hnet & Hst & Hl & Hf & Hnone & Hfile & Hsz).
  exists name, reg, expected_ext, k, sc, rs, hs, cs, l, j. cbv zeta.
  split_and!; try done.
  eapply lookup_weaken_None; [exact Hnone|]. apply makedirs_fs.
Qed.

(** What a call that returns adds to the trace. *)
Lemma download_file_trace hospital_name url file_type region output_dir st r st' :
  download_file net hospital_name url file_type region output_dir st = (Return r, st') →
  ∃ evs, trace st' = trace st ++ evs ∧ Forall (fetch_event url) evs
    ∧ (calls st' = calls st + count_events is_get evs)%nat
    ∧ (1 ≤ count_events is_get evs ≤ RETRY_ATTEMPTS)%nat.
Proof.
  intros Hrun.
  destruct (download_file_calls _ _ _ _ _ _ _ _ Hrun) as (Hcalls & _).
  cbv zeta in Hcalls. unfold RETRY_ATTEMPTS in *.
  destruct (download_file_returned _ _ _ _ _ _ _ _ Hrun)
    as (name & reg & expected_ext & e & st1 & _ & _ & _ & Hloop & Hend).
  destruct (makedirs_same (output_dir ++ parts (sanitize_filename reg)) st)
    as (Hc & Ht & _).
  destruct (for_attempts_trace net _ _ _ _ _ _ _ _ _ _ _ Hloop)
    as (evs & Htr & Hevs & Hn).
  rewrite Hc in Hn. rewrite Ht in Htr.
  destruct Hend as [(_ & -> & _)|(_ & -> & _)].
  - exists evs. split_and!; [done..|lia|lia].
  - exists (evs ++ [Print (FailLine hospital_name (Result.error r))]).
    unfold emit; cbn [trace calls]. rewrite Htr, <- app_assoc.
    assert (count_events is_get (evs ++ [Print (FailLine hospital_name (Result.error r))])
            = count_events is_get evs) as ->.
    { unfold count_events. rewrite List.filter_app, length_app. simpl. lia. }
    unfold emit in Hcalls; cbn [calls] in Hcalls. split_and!; [done| |done|lia|lia].
    apply Forall_app. split; [done|]. by repeat constructor.
Qed.

(** X7: a call that returns has made min(3, m + 1) requests, where m
    is the number of attempts in a row, from the first, that failed at
    the transport level; and it is a success exactly when m < 3 and the
    attempt after these raised nothing. *)
Theorem download_file_requests hospital_name url file_type region output_dir st r st' :
  download_file net hospital_name url file_type region output_dir st = (Return r, st') →
  let k := calls st in
  let m := leading_failures net k RETRY_ATTEMPTS in
  calls st' = (k + Nat.min RETRY_ATTEMPTS (S m))%nat
  ∧ (Result.success r = true
     ↔ (m < RETRY_ATTEMPTS)%nat ∧ raised_by (net (k + m)%nat) = None).
Proof. apply download_file_calls. Qed.

(** X8: a successful result belongs to a response with a good status
    whose body was streamed to its end, the answer to the last request
    of the call: the file that it names, relative to the parent of the
    output directory, did not exist before the call, holds all the
    chunks of that body, and has the size of the result. *)
Theorem download_file_success_file hospital_name url file_type region output_dir st r st' :
  download_file net hospital_name url file_type region output_dir st = (Return r, st') →
  Result.success r = true →
  ∃ name reg expected_ext k status_code reason headers chunks l j,
    let filename := candidate (sanitize_filename name)
                      (get_extension_from_response headers expected_ext) j in
    let rel := parts (sanitize_filename reg) ++ parts filename in
    hospital_name = Some name ∧ region = Some reg
    ∧ get_extension_from_url url file_type = Return expected_ext
    ∧ calls st' = S k
    ∧ net k = Response status_code reason headers (Stream chunks None)
    ∧ is_error_status status_code = false
    ∧ output_dir = parent output_dir ++ l
    ∧ Result.filename r = Some (path_str (l ++ rel))
    ∧ fs st !! (output_dir ++ rel) = None
    ∧ fs st' !! (output_dir ++ rel) = Some (File (concat chunks))
    ∧ Result.size r = N.of_nat (length (concat chunks)).
Proof. apply download_file_written. Qed.

End FetcherRuns.

Section LastFailure.
Context {rt : Runtime} (net : nat → exchange).

(** The error that the loop leaves in the result is that of the last
    attempt that raised. *)
Lemma for_attempts_error len a0 url output_dir mid base_name expected_ext result st :
  ∃ x r st',
    for_attempts net (seq a0 len) url (output_dir ++ mid) output_dir base_name expected_ext
      result st = (x, r, st')
    ∧ (Result.error r = Result.error result
       ∧ (len = 0%nat ∧ x = FellThrough ∧ calls st' = calls st
          ∨ raised_by (net (calls st)) = None ∧ x = ReturnedResult
            ∧ calls st' = S (calls st))
       ∨ ∃ j e, (j < len)%nat
           ∧ raised_by (net (calls st + j)%nat) = Some e
           ∧ Result.error r = Some (error_message (a0 + j) e)
           ∧ calls st' = (calls st + j + 1 + match x with ReturnedResult => 1 | _ => 0 end)%nat
           ∧ x ≠ Stuck).
Proof.
  revert a0 result st. induction len as [|len IH]; intros a0 result st.
  { exists FellThrough, result, st. split; [done|]. left. split; [done|]. by left. }
  cbn [seq]. destruct (raised_by (net (calls st))) as [e|] eqn:He.
  - destruct (for_attempts_raised net a0 (seq (S a0) len) url (output_dir ++ mid) output_dir
                base_name expected_ext result st e He)
      as (st1 & Hc1 & _ & _ & _ & ->). cbv zeta.
    set (result' := Result.set_error (Some (error_message a0 e)) result).
    assert (Hstop :
      ∃ x r st',
        (FellThrough, result', st1) = (x, r, st')
        ∧ (Result.error r = Result.error result
           ∧ (S len = 0%nat ∧ x = FellThrough ∧ calls st' = calls st
              ∨ Some e = None ∧ x = ReturnedResult ∧ calls st' = S (calls st))
           ∨ ∃ j e0, (j < S len)%nat
               ∧ raised_by (net (calls st + j)%nat) = Some e0
               ∧ Result.error r = Some (error_message (a0 + j) e0)
               ∧ calls st'
                 = (calls st + j + 1 + match x with ReturnedResult => 1 | _ => 0 end)%nat
               ∧ x ≠ Stuck)).
    { exists FellThrough, result', st1. split; [done|]. right. exists 0%nat, e.
      rewrite !Nat.add_0_r. split; [lia|]. split; [done|]. split; [done|].
      split; [|done]. lia. }
    assert (Hgo :
      ∃ x r st',
        for_attempts net (seq (S a0) len) url (output_dir ++ mid) output_dir base_name
          expected_ext result' (backoff a0 st1) = (x, r, st')
        ∧ (Result.error r = Result.error result
           ∧ (S len = 0%nat ∧ x = FellThrough ∧ calls st' = calls st
              ∨ Some e = None ∧ x = ReturnedResult ∧ calls st' = S (calls st))
           ∨ ∃ j e0, (j < S len)%nat
               ∧ raised_by (net (calls st + j)%nat) = Some e0
               ∧ Result.error r = Some (error_message (a0 + j) e0)
               ∧ calls st'
                 = (calls st + j + 1 + match x with ReturnedResult => 1 | _ => 0 end)%nat
               ∧ x ≠ Stuck)).
    { destruct (IH (S a0) result' (backoff a0 st1)) as (x & r & st' & Hrun & Hend).
      rewrite backoff_calls, Hc1 in Hend.
      exists x, r, st'. split; [done|]. right.
      destruct Hend as [(Herr & [(-> & -> & Hc)|(Hnone & -> & Hc)])|(j & e0 & Hj & He0 & Herr & Hc & Hx)].
      - exists 0%nat, e. rewrite !Nat.add_0_r. split; [lia|]. split; [done|].
        split; [by rewrite Herr|]. split; [|done]. lia.
      - exists 0%nat, e. rewrite !Nat.add_0_r. split; [lia|]. split; [done|].
        split; [by rewrite Herr|]. split; [|done]. lia.
      - exists (S j), e0. split; [lia|].
        split; [by rewrite Nat.add_succ_r|].
        split; [by rewrite Nat.add_succ_r|]. split; [|done]. rewrite Hc. lia. }
    destruct e; [exact Hgo|exact Hstop|exact Hgo|exact Hstop].
  - destruct (try_download_returned net url output_dir mid base_name expected_ext
                result st He)
      as (status_code & reason & headers & chunks & j & l & _ & _ & _ & Htry).
    cbv zeta in Htry. destruct Htry as (_ & _ & Htry).
    cbn [for_attempts]. rewrite Htry. eexists _, _, _. split; [done|]. left.
    split; [done|]. right. by split_and!.
Qed.

End LastFailure.

Section LastFailureFetcher.
Context {rt : Runtime} (net : nat → exchange).

(** X9: the error of a result describes the last attempt that raised.
    A result without an error is a success whose first attempt raised
    nothing; the error of any other result is the message for an
    attempt that raised, which was the last request of a failed call and
    the one before the last of a successful call. *)
Theorem download_file_error hospital_name url file_type region output_dir st r st' :
  download_file net hospital_name url file_type region output_dir st = (Return r, st') →
  match Result.error r with
  | None => raised_by (net (calls st)) = None ∧ Result.success r = true
  | Some msg =>
      ∃ a e, (a < RETRY_ATTEMPTS)%nat
        ∧ raised_by (net (calls st + a)%nat) = Some e
        ∧ msg = error_message a e
        ∧ calls st' = (calls st + a + 1 + (if Result.success r then 1 else 0))%nat
  end.
Proof.
  intros Hrun.
  destruct (download_file_returned net _ _ _ _ _ _ _ _ Hrun)
    as (name & reg & expected_ext & x & st1 & _ & _ & _ & Hloop & Hend).
  destruct (makedirs_same (output_dir ++ parts (sanitize_filename reg)) st) as (Hc & _ & _).
  destruct (for_attempts_error net RETRY_ATTEMPTS 0 url output_dir
              (parts (sanitize_filename reg)) (sanitize_filename name) expected_ext
              (Result.mk hospital_name url false None None 0)
              (makedirs (output_dir ++ parts (sanitize_filename reg)) st))
    as (x' & r' & st1' & Hloop' & Herr).
  rewrite Hloop in Hloop'. injection Hloop' as <- <- <-. rewrite Hc in Herr.
  destruct Herr as [(Herr & [(Hlen & _)|(Hnone & -> & _)])|(a & e & Ha & He & Herr & Hcalls & _)].
  - done.
  - rewrite Herr. cbn [Result.error]. split; [done|].
    by destruct Hend as [(_ & _ & ->)|(? & _)].
  - rewrite Herr. exists a, e. split; [done|]. split; [done|]. split; [done|].
    destruct Hend as [(-> & -> & ->)|(-> & -> & ->)]; unfold emit; cbn [calls]; lia.
Qed.

End LastFailureFetcher.

(** ** The rows of a run *)



Lemma count_events_app p a b :
  count_events p (a ++ b) = (count_events p a + count_events p b)%nat.
Proof. unfold count_events. by rewrite List.filter_app, length_app. Qed.

Lemma fetch_events_quiet url evs :
  Forall (fetch_event url) evs →
  count_events is_delay evs = 0%nat ∧ omap progress_of evs = [].
Proof.
  induction 1 as [|ev evs Hev _ [IH1 IH2]]; [done|].
  change (ev :: evs) with ([ev] ++ evs). rewrite count_events_app, omap_app, IH1, IH2.
  destruct ev as [u|seconds|l]; [done| |].
  - by destruct Hev as [-> | ->].
  - by destruct l.
Qed.

Lemma result_on_disk_weaken output_dir files files' r :
  files ⊆ files' → result_on_disk output_dir files r → result_on_disk output_dir files' r.
Proof.
  intros Hsub. unfold result_on_disk. destruct (Result.success r); [|done].
  intros (l & rel & content & ? & ? & Hfile & ?). exists l, rel, content.
  split_and!; [done..| |done]. by eapply lookup_weaken.
Qed.

Lemma total_size_app rs1 rs2 : total_size (rs1 ++ rs2) = total_size rs1 + total_size rs2.
Proof. unfold total_size. induction rs1 as [|r rs1 IH]; simpl; [done|]. rewrite IH. lia. Qed.

Section Rows.
Context {rt : Runtime} (net : nat → exchange).

(** What a row that is processed leaves behind. *)
Lemma process_row_returned i n hospital output_dir st r st' :
  process_row net i n hospital output_dir st = (Return r, st') →
  ∃ name evs,
    hospital !! lit "hospital_name" = Some name
    ∧ fs st ⊆ fs st' ∧ logs st' = logs st
    ∧ result_on_disk output_dir (fs st') r
    ∧ trace st' = trace st ++ Print (Downloading i n name) :: evs
    ∧ Forall (fetch_event (Result.url r)) evs
    ∧ (calls st' = calls st + count_events is_get evs)%nat
    ∧ (1 ≤ count_events is_get evs ≤ RETRY_ATTEMPTS)%nat.
Proof.
  unfold process_row, mbind, M_bind, lift, act, getitem.
  destruct (hospital !! lit "hospital_name") as [name|]; [|done].
  destruct (hospital !! lit "mrf_download_url") as [url|]; [|done].
  destruct (hospital !! lit "file_type") as [file_type|]; [|done].
  destruct (hospital !! lit "region") as [region|]; [|done].
  set (st0 := emit (Print (Downloading i n name)) st). intros Hrun.
  destruct (download_file_inv net name url file_type region output_dir st0)
    as (o & st'' & Hrun' & Hlog & Hfs & Hinv).
  rewrite Hrun in Hrun'. injection Hrun' as <- <-.
  destruct Hinv as (_ & Hurl & Hres).
  destruct (download_file_trace net _ _ _ _ _ _ _ _ Hrun) as (evs & Htr & Hevs & Hc & Hn).
  exists name, evs. split; [done|]. split; [done|]. split; [done|]. split.
  - unfold result_on_disk. destruct Hres as [[Hs _]|(Hs & Hf & Hz & _)]; rewrite Hs; [|done].
    destruct (download_file_written net _ _ _ _ _ _ _ _ Hrun Hs)
      as (nm & reg & ext & k & sc & rs & hs & cs & l & j & _ & _ & _ & _ & _ & _ & Hl & Hf
          & _ & Hfile & Hsz).
    by eexists l, _, _.
  - split; [|by rewrite Hurl].
    rewrite Htr. subst st0. unfold emit; cbn [trace]. by rewrite <- app_assoc.
Qed.

(** What the loop over the rows has done when it ends. *)
Lemma for_hospitals_returned i n hospitals output_dir t st t' st' :
  for_hospitals net i n hospitals output_dir t st = (Return t', st') →
  ∃ rs evs,
    results t' = results t ++ rs ∧ length rs = length hospitals
    ∧ successful t' = (successful t + length (filter (λ r, Result.success r = true) rs))%nat
    ∧ failed t' = (failed t + length (filter (λ r, Result.success r = false) rs))%nat
    ∧ total_bytes t' = total_bytes t + total_size rs
    ∧ Forall (result_on_disk output_dir (fs st')) rs
    ∧ fs st ⊆ fs st' ∧ logs st' = logs st
    ∧ trace st' = trace st ++ evs
    ∧ (calls st' = calls st + count_events is_get evs)%nat
    ∧ (length hospitals ≤ count_events is_get evs ≤ RETRY_ATTEMPTS * length hospitals)%nat
    ∧ count_events is_delay evs
      = (Nat.min (i + length hospitals) n - Nat.min i n)%nat
    ∧ omap progress_of evs
      = zip_with (λ j h, (j, n, mjoin (h !! lit "hospital_name")))
          (seq i (length hospitals)) hospitals.
Proof.
  revert i t st. induction hospitals as [|h hospitals IH]; intros i t st.
  { intros [= <- <-]. exists [], []. rewrite !app_nil_r. cbn [length].
    split_and!; try done; try lia; try (unfold count_events; simpl; lia). }
  rewrite for_hospitals_cons.
  destruct (process_row net i n h output_dir st) as [[r|e|] st1] eqn:Hrow; [|done..].
  intros Hrun.
  destruct (process_row_returned _ _ _ _ _ _ _ Hrow)
    as (name & evs1 & Hname & Hfs1 & Hlog1 & Hdisk & Htr1 & Hevs1 & Hc1 & Hn1).
  destruct (IH _ _ _ Hrun)
    as (rs & evs & Hres & Hlen & Hok & Hfail & Hbytes & Hdisks & Hfs & Hlog & Htr & Hc
        & Hn & Hd & Hp).
  destruct (fetch_events_quiet _ _ Hevs1) as [Hq1 Hq2].
  set (pause := if (i <? n)%nat then [Sleep DELAY_BETWEEN_REQUESTS] else []).
  assert (Hst : fs (if (i <? n)%nat then sleep DELAY_BETWEEN_REQUESTS st1 else st1) = fs st1
                ∧ logs (if (i <? n)%nat then sleep DELAY_BETWEEN_REQUESTS st1 else st1)
                  = logs st1
                ∧ calls (if (i <? n)%nat then sleep DELAY_BETWEEN_REQUESTS st1 else st1)
                  = calls st1
                ∧ trace (if (i <? n)%nat then sleep DELAY_BETWEEN_REQUESTS st1 else st1)
                  = trace st1 ++ pause).
  { subst pause. destruct (i <? n)%nat; simpl; by rewrite ?app_nil_r. }
  destruct Hst as (Hs1 & Hs2 & Hs3 & Hs4).
  rewrite Hs1 in Hfs. rewrite Hs2 in Hlog. rewrite Hs3 in Hc. rewrite Hs4 in Htr.
  exists (r :: rs), (Print (Downloading i n name) :: evs1 ++ pause ++ evs).
  rewrite record_result_results in Hres.
  assert (Hcount : count_events is_get
                     (Print (Downloading i n name) :: evs1 ++ pause ++ evs)
                   = (count_events is_get evs1 + count_events is_get evs)%nat).
  { change (Print (Downloading i n name) :: evs1 ++ pause ++ evs)
      with ([Print (Downloading i n name)] ++ evs1 ++ pause ++ evs).
    rewrite !count_events_app. subst pause. by destruct (i <? n)%nat. }
  split_and!.
  - by rewrite Hres, <- app_assoc.
  - simpl. by rewrite Hlen.
  - rewrite Hok. unfold record_result. destruct (Result.success r) eqn:E; simpl.
    + rewrite filter_cons_True by done. simpl. lia.
    + rewrite filter_cons_False by (by rewrite E). lia.
  - rewrite Hfail. unfold record_result. destruct (Result.success r) eqn:E; simpl.
    + rewrite filter_cons_False by (by rewrite E). lia.
    + rewrite filter_cons_True by done. simpl. lia.
  - rewrite Hbytes. unfold record_result. unfold result_on_disk in Hdisk.
    destruct (Result.success r) eqn:E; simpl; [lia|].
    destruct Hdisk as [_ ->]. lia.
  - constructor; [|done]. by eapply result_on_disk_weaken.
  - by etrans.
  - congruence.
  - rewrite Htr, Htr1. by rewrite <- !app_assoc.
  - rewrite Hcount, Hc, Hc1. lia.
  - rewrite Hcount. cbn [length]. unfold RETRY_ATTEMPTS in *. lia.
  - rewrite Hcount. cbn [length]. unfold RETRY_ATTEMPTS in *. lia.
  - change (Print (Downloading i n name) :: evs1 ++ pause ++ evs)
      with ([Print (Downloading i n name)] ++ evs1 ++ pause ++ evs).
    rewrite !count_events_app, Hq1, Hd. cbn [length]. subst pause.
    change (count_events is_delay [Print (Downloading i n name)]) with 0%nat.
    destruct (Nat.ltb_spec i n).
    + change (count_events is_delay [Sleep DELAY_BETWEEN_REQUESTS]) with 1%nat. lia.
    + change (count_events is_delay []) with 0%nat. lia.
  - change (Print (Downloading i n name) :: evs1 ++ pause ++ evs)
      with ([Print (Downloading i n name)] ++ evs1 ++ pause ++ evs).
    rewrite !omap_app, Hq2, Hp. cbn [length seq zip_with]. rewrite Hname.
    subst pause. by destruct (i <? n)%nat.
Qed.

End Rows.

(** ** Whole runs *)


Lemma filter_success_length (rs : list Result.t) :
  (length (filter (λ r, Result.success r = true) rs)
   + length (filter (λ r, Result.success r = false) rs) = length rs)%nat.
Proof.
  induction rs as [|r rs IH]; [done|]. destruct (Result.success r) eqn:E.
  - rewrite filter_cons_True, filter_cons_False by (by rewrite ?E). simpl. lia.
  - rewrite filter_cons_False, filter_cons_True by (by rewrite ?E). simpl. lia.
Qed.

Lemma total_size_success output_dir files (rs : list Result.t) :
  Forall (result_on_disk output_dir files) rs →
  total_size rs = total_size (filter (λ r, Result.success r = true) rs).
Proof.
  induction 1 as [|r rs Hr _ IH]; [done|]. unfold result_on_disk in Hr.
  destruct (Result.success r) eqn:E.
  - rewrite filter_cons_True by done. simpl. by rewrite IH.
  - rewrite filter_cons_False by (by rewrite E). simpl. destruct Hr as [_ ->]. by rewrite IH.
Qed.

Lemma output_dir_parts script_dir :
  path_div script_dir OUTPUT_DIR = script_dir ++ [OUTPUT_DIR].
Proof. unfold path_div. by f_equal. Qed.

(** The keys of a row of [csv.DictReader] are the field names. *)
Lemma foldl_insert_keys {V} (f : list N * list N → V)
    (l : list (list N * list N)) (d : gmap (list N) V) key :
  is_Some (foldl (λ d kv, <[kv.1 := f kv]> d) d l !! key)
  ↔ is_Some (d !! key) ∨ key ∈ l.*1.
Proof.
  revert d. induction l as [|kv l IH]; intros d; simpl.
  { split; [by left|]. intros [?|Hin]; [done|]. by apply elem_of_nil in Hin. }
  rewrite IH, elem_of_cons. destruct (decide (key = kv.1)) as [->|Hne].
  - rewrite lookup_insert_eq. split; [intros _; right; by left|]. intros _. left. by eexists.
  - rewrite lookup_insert_ne by done. tauto.
Qed.

Lemma foldl_insert_none_keys (l : list (list N)) (d : gmap (list N) (option (list N))) key :
  is_Some (foldl (λ d k, <[k := None]> d) d l !! key) ↔ is_Some (d !! key) ∨ key ∈ l.
Proof.
  revert d. induction l as [|k l IH]; intros d; simpl.
  { split; [by left|]. intros [?|Hin]; [done|]. by apply elem_of_nil in Hin. }
  rewrite IH, elem_of_cons. destruct (decide (key = k)) as [->|Hne].
  - rewrite lookup_insert_eq. split; [intros _; right; by left|]. intros _. left. by eexists.
  - rewrite lookup_insert_ne by done. tauto.
Qed.

Lemma zip_drop_keys (fieldnames row : list (list N)) key :
  key ∈ (zip fieldnames row).*1 ∨ key ∈ drop (length row) fieldnames ↔ key ∈ fieldnames.
Proof.
  revert row. induction fieldnames as [|f fieldnames IH]; intros row.
  { rewrite drop_nil. simpl. tauto. }
  destruct row as [|cell row]; simpl.
  { rewrite elem_of_nil. tauto. }
  rewrite !elem_of_cons, <- (IH row). tauto.
Qed.

Lemma mk_row_keys fieldnames row key :
  is_Some (mk_row fieldnames row !! key) ↔ key ∈ fieldnames.
Proof.
  unfold mk_row. etrans; [apply foldl_insert_none_keys|].
  etrans; [|apply (zip_drop_keys fieldnames row key)].
  pose proof (foldl_insert_keys (λ kv : list N * list N, Some kv.2)
                (zip fieldnames row) ∅ key) as H.
  rewrite lookup_empty in H. simpl in H. rewrite H. split.
  - intros [[Hs|Hin]|Hin]; [by destruct Hs|by left|by right].
  - intros [Hin|Hin]; [left; by right|by right].
Qed.

Lemma DictReader_keys fieldnames body h key :
  h ∈ DictReader (fieldnames :: body) → is_Some (h !! key) ↔ key ∈ fieldnames.
Proof.
  unfold DictReader. intros (row & -> & _)%list_elem_of_fmap. apply mk_row_keys.
Qed.

Section Runs.
Context {rt : Runtime} (net : nat → exchange).

(** The parts of a run of [main] that reaches the end. *)
Lemma main_run rows script_dir st status st' :
  main net (Some rows) script_dir st = (Return status, st') →
  let output_dir := path_div script_dir OUTPUT_DIR in
  let log_path := path_div output_dir (lit "download_log.csv") in
  let n := length (DictReader rows) in
  ∃ t st0 st1 tail,
    for_hospitals net 1 n (DictReader rows) output_dir (Tally [] 0 0 0) st0 = (Return t, st1)
    ∧ fs st ⊆ fs st0 ∧ calls st0 = calls st
    ∧ trace st0 = trace st ++ [Print Banner; Print (OutputDirectory output_dir);
                               Print (FoundHospitals n); Print StartingDownloads]
    ∧ fs st' = <[log_path := Sheet (log_fieldnames :: (log_row <$> results t))]> (fs st1)
    ∧ calls st' = calls st1
    ∧ status = (if (failed t =? 0)%nat then 0%nat else 1%nat)
    ∧ trace st' = trace st1
        ++ Print (Summary n (successful t) (failed t) (total_bytes t)) :: tail
    ∧ count_events is_get tail = 0%nat ∧ count_events is_delay tail = 0%nat
    ∧ omap progress_of tail = [].
Proof.
  rewrite main_some. cbv zeta.
  set (output_dir := path_div script_dir OUTPUT_DIR).
  destruct (mkdir_error output_dir st) eqn:Hmk; [done|].
  set (st0 := emit _ _).
  destruct (for_hospitals net 1 (length (DictReader rows)) (DictReader rows) output_dir
              (Tally [] 0 0 0) st0) as [[t|e|] st1] eqn:Hloop; [|done..].
  destruct (is_dir _); [done|].
  intros [= <- <-]. eexists t, st0, st1, _. split; [done|].
  destruct (makedirs_same output_dir (emit (Print Banner) st)) as (Hc & Htr & _).
  split; [|split; [|split]].
  - subst st0. unfold emit at 1 2 3; cbn [fs]. etrans; [|apply makedirs_fs]. done.
  - subst st0. unfold emit at 1 2 3; cbn [calls]. by rewrite Hc.
  - subst st0. unfold emit at 1 2 3; cbn [trace]. rewrite Htr. unfold emit; cbn [trace].
    by rewrite <- !app_assoc.
  - cbn [fs calls trace]. split_and!; [done..| | | |].
    + reflexivity.
    + by destruct (0 <? failed t)%nat.
    + by destruct (0 <? failed t)%nat.
    + by destruct (0 <? failed t)%nat.
Qed.

(** X10: the summary line counts every row once, as a success or as a
    failure, and its byte total is the sum of the size column of the
    log, to which the failed rows contribute nothing. *)
Theorem main_summary_counts rows script_dir st status st' :
  main net (Some rows) script_dir st = (Return status, st') →
  let log_path := path_div (path_div script_dir OUTPUT_DIR) (lit "download_log.csv") in
  ∃ rs tr tl,
    let n_ok := length (filter (λ r, Result.success r = true) rs) in
    let n_failed := length (filter (λ r, Result.success r = false) rs) in
    fs st' !! log_path = Some (Sheet (log_fieldnames :: (log_row <$> rs)))
    ∧ trace st' = tr ++ Print (Summary (length (DictReader rows)) n_ok n_failed
                                 (total_size rs)) :: tl
    ∧ (n_ok + n_failed = length (DictReader rows))%nat
    ∧ total_size rs = total_size (filter (λ r, Result.success r = true) rs).
Proof.
  intros Hrun log_path. destruct (main_run _ _ _ _ _ Hrun)
    as (t & st0 & st1 & tail & Hloop & _ & _ & _ & Hfs & _ & _ & Htr & _).
  destruct (for_hospitals_returned net _ _ _ _ _ _ _ _ Hloop)
    as (rs & evs & Hres & Hlen & Hok & Hfail & Hbytes & Hdisk & _).
  simpl in Hres, Hok, Hfail, Hbytes. subst rs.
  exists (results t), (trace st1), tail. cbv zeta. split.
  { rewrite Hfs. apply lookup_insert_eq. }
  split.
  - by rewrite Htr, Hok, Hfail, Hbytes.
  - split; [by rewrite filter_success_length|]. by eapply total_size_success.
Qed.

(** X11: a run that reaches the end makes at least one and at most
    three requests per row, and every one of them is in the trace. *)
Theorem main_requests rows script_dir st status st' :
  main net (Some rows) script_dir st = (Return status, st') →
  let n := length (DictReader rows) in
  ∃ evs, trace st' = trace st ++ evs
    ∧ (calls st' = calls st + count_events is_get evs)%nat
    ∧ (n ≤ count_events is_get evs ≤ RETRY_ATTEMPTS * n)%nat.
Proof.
  intros Hrun n. destruct (main_run _ _ _ _ _ Hrun)
    as (t & st0 & st1 & tail & Hloop & _ & Hc0 & Ht0 & _ & Hc1 & _ & Htr & Hg & _).
  destruct (for_hospitals_returned net _ _ _ _ _ _ _ _ Hloop)
    as (rs & evs & _ & _ & _ & _ & _ & _ & _ & _ & Htr1 & Hc & Hn & _).
  eexists. split.
  - rewrite Htr, Htr1, Ht0. rewrite <- !app_assoc. reflexivity.
  - rewrite !count_events_app.
    change (?a :: tail) with ([a] ++ tail). rewrite count_events_app, Hg.
    change (count_events is_get [Print _; Print _; Print _; Print _]) with 0%nat.
    change (count_events is_get [Print _]) with 0%nat.
    fold n in Hn. rewrite Hc1, Hc, Hc0. lia.
Qed.

(** X12: a run over n rows that reaches the end pauses between the
    rows n - 1 times, never after the last row, and prints the progress
    lines of the rows in the order of the manifest, numbered from 1 out
    of n, each with the name of its row. *)
Theorem main_pacing rows script_dir st status st' :
  main net (Some rows) script_dir st = (Return status, st') →
  let n := length (DictReader rows) in
  ∃ evs, trace st' = trace st ++ evs
    ∧ count_events is_delay evs = (n - 1)%nat
    ∧ omap progress_of evs
      = zip_with (λ j h, (j, n, mjoin (h !! lit "hospital_name"))) (seq 1 n)
          (DictReader rows).
Proof.
  intros Hrun n. destruct (main_run _ _ _ _ _ Hrun)
    as (t & st0 & st1 & tail & Hloop & _ & _ & Ht0 & _ & _ & _ & Htr & _ & Hd & Hp).
  destruct (for_hospitals_returned net _ _ _ _ _ _ _ _ Hloop)
    as (rs & evs & _ & _ & _ & _ & _ & _ & _ & _ & Htr1 & _ & _ & Hd1 & Hp1).
  eexists. split; [|split].
  - rewrite Htr, Htr1, Ht0. rewrite <- !app_assoc. reflexivity.
  - rewrite !count_events_app.
    change (?a :: tail) with ([a] ++ tail). rewrite count_events_app, Hd, Hd1.
    change (count_events is_delay [Print _; Print _; Print _; Print _]) with 0%nat.
    change (count_events is_delay [Print _]) with 0%nat. fold n. lia.
  - rewrite !omap_app. change (?a :: tail) with ([a] ++ tail).
    rewrite omap_app, Hp, Hp1. by rewrite app_nil_r.
Qed.

(** X13: at the end of a run the log stands at its path, with one
    record for every row.  Every successful record names, under the
    output directory, the file of its row and has the size of what was
    written to it; that file is still there with that content, which no
    later row has overwritten, unless its path is the path of the log:
    a download at the path of the log is replaced by the log.  Every
    failed record has no filename and size 0. *)
Theorem main_log_matches_files rows script_dir st status st' :
  main net (Some rows) script_dir st = (Return status, st') →
  let log_path := path_div (path_div script_dir OUTPUT_DIR) (lit "download_log.csv") in
  ∃ rs, fs st' !! log_path = Some (Sheet (log_fieldnames :: (log_row <$> rs)))
    ∧ length rs = length (DictReader rows)
    ∧ Forall (λ r,
        if Result.success r
        then ∃ rel content,
               Result.filename r = Some (path_str (OUTPUT_DIR :: rel))
               ∧ Result.size r = N.of_nat (length content)
               ∧ (script_dir ++ OUTPUT_DIR :: rel ≠ log_path →
                  fs st' !! (script_dir ++ OUTPUT_DIR :: rel) = Some (File content))
               ∧ (script_dir ++ OUTPUT_DIR :: rel = log_path →
                  rel = [lit "download_log.csv"])
        else Result.filename r = None ∧ Result.size r = 0) rs.
Proof.
  intros Hrun log_path. destruct (main_run _ _ _ _ _ Hrun)
    as (t & st0 & st1 & tail & Hloop & _ & _ & _ & Hfs & _).
  destruct (for_hospitals_returned net _ _ _ _ _ _ _ _ Hloop)
    as (rs & evs & Hres & Hlen & _ & _ & _ & Hdisk & _).
  simpl in Hres. subst rs. exists (results t).
  split; [rewrite Hfs; apply lookup_insert_eq|]. split; [done|].
  eapply Forall_impl; [exact Hdisk|]. intros r. unfold result_on_disk.
  destruct (Result.success r); [|done].
  intros (l & rel & content & Hl & Hf & Hfile & Hsz).
  rewrite output_dir_parts in Hl, Hfile. unfold parent in Hl.
  rewrite removelast_last in Hl. apply app_inv_head in Hl. subst l.
  rewrite <- app_assoc in Hfile.
  exists rel, content. split; [done|]. split; [done|]. split.
  - intros Hne. rewrite Hfs. rewrite lookup_insert_ne by done. exact Hfile.
  - unfold log_path. rewrite output_dir_parts. unfold path_div at 1.
    change (parts (lit "download_log.csv")) with [lit "download_log.csv"].
    rewrite <- app_assoc. intros E. apply app_inv_head in E. by injection E.
Qed.

(** X14: over a manifest whose header lacks one of the four columns
    that [main] reads, and which has a row that is not blank, [main]
    never reaches the end: it raises before any request and without a
    log, and unless the output directory cannot be made the exception
    is a [KeyError] for a missing column, raised at the first row. *)
Theorem main_missing_column fieldnames body key script_dir st :
  key ∈ required_columns → key ∉ fieldnames → Exists (λ row, row ≠ []) body →
  ∃ e st', main net (Some (fieldnames :: body)) script_dir st = (Raises e, st')
    ∧ calls st' = calls st ∧ logs st' = logs st
    ∧ match mkdir_error (path_div script_dir OUTPUT_DIR) st with
      | Some e' => e = e'
      | None => ∃ k, e = KeyError k ∧ k ∈ required_columns ∧ (k ∉ fieldnames)
      end.
Proof.
  intros Hkey Hnot Hbody.
  assert (∃ row rest, DictReader (fieldnames :: body) = mk_row fieldnames row :: rest)
    as (row & rest & Hrows).
  { unfold DictReader. apply Exists_exists in Hbody as (row & Hin & Hrow).
    assert (Hin' : row ∈ filter (λ row, row ≠ []) body) by (by apply list_elem_of_filter).
    destruct (filter (λ row, row ≠ []) body) as [|row0 rest]; [by apply elem_of_nil in Hin'|].
    by exists row0, (mk_row fieldnames <$> rest). }
  set (h := mk_row fieldnames row) in *.
  assert (Hkeys : ∀ k, is_Some (h !! k) ↔ k ∈ fieldnames) by (intros k; apply mk_row_keys).
  assert (∀ st1, ∃ k, fatal_row (path_div script_dir OUTPUT_DIR) st1 h = Some (KeyError k)
                      ∧ k ∈ required_columns ∧ k ∉ fieldnames) as Hfatal.
  { intros st1.
    assert (Hnone : ∀ k, k ∉ fieldnames → h !! k = None).
    { intros k Hk. destruct (h !! k) eqn:E; [|done]. exfalso. apply Hk, Hkeys. by eexists. }
    assert (Hsome : ∀ k, h !! k = None → k ∉ fieldnames).
    { intros k E Hin. apply Hkeys in Hin as [? ?]. congruence. }
    unfold fatal_row, required_columns in *.
    destruct (h !! lit "hospital_name") eqn:E1.
    2:{ eexists. split; [done|]. split; [|by apply Hsome]. repeat constructor. }
    destruct (h !! lit "mrf_download_url") eqn:E2.
    2:{ eexists. split; [done|]. split; [|by apply Hsome]. repeat constructor. }
    destruct (h !! lit "file_type") eqn:E3.
    2:{ eexists. split; [done|]. split; [|by apply Hsome]. repeat constructor. }
    destruct (h !! lit "region") eqn:E4.
    2:{ eexists. split; [done|]. split; [|by apply Hsome]. repeat constructor. }
    exfalso. apply Hnone in Hnot.
    repeat (apply elem_of_cons in Hkey as [->|Hkey]); [congruence..|by apply elem_of_nil in Hkey]. }
  rewrite main_some. cbv zeta.
  destruct (mkdir_error (path_div script_dir OUTPUT_DIR) st) eqn:Hmk.
  { eexists _, _. split; [done|]. by unfold emit. }
  rewrite Hrows. set (st0 := emit _ _).
  rewrite for_hospitals_cons.
  destruct (Hfatal st0) as (k & Hk0 & Hk & Hknot).
  destruct (process_row_fatal net 1 (length (h :: rest)) h (path_div script_dir OUTPUT_DIR)
              st0 (KeyError k) Hk0) as (st' & -> & Hc & Hlog & _).
  exists (KeyError k), st'. split; [done|].
  destruct (makedirs_same (path_div script_dir OUTPUT_DIR) (emit (Print Banner) st))
    as (Hc0 & _ & Hlog0).
  split; [|split].
  - rewrite Hc. subst st0. unfold emit at 1 2 3; cbn [calls]. by rewrite Hc0.
  - rewrite Hlog. subst st0. unfold emit at 1 2 3. unfold logs in *. cbn [fs] in *.
    by rewrite Hlog0.
  - by exists k.
Qed.

(** X15: whatever its outcome, [main] leaves every file and directory
    that was there as it was, except what stood at the path of the log,
    which a run that reaches the end replaces by the log; the exit
    status of such a run is 0 or 1; a run that raises changes nothing
    that was there and writes no log, and a run without the manifest
    changes no file at all. *)
Theorem main_keeps_files manifest script_dir st :
  let log_path := path_div (path_div script_dir OUTPUT_DIR) (lit "download_log.csv") in
  ∃ o st', main net manifest script_dir st = (o, st')
    ∧ (∀ p node, p ≠ log_path → fs st !! p = Some node → fs st' !! p = Some node)
    ∧ (∀ status, o = Return status → status = 0%nat ∨ status = 1%nat)
    ∧ (∀ status, is_Some manifest → o = Return status →
         ∃ records, fs st' !! log_path = Some (Sheet records))
    ∧ (∀ e, o = Raises e → fs st ⊆ fs st' ∧ logs st' = logs st)
    ∧ (manifest = None → fs st' = fs st).
Proof.
  intros log_path. destruct manifest as [rows|].
  2:{ rewrite main_missing. eexists _, _. split; [done|]. split; [done|].
      split; [intros ? [= <-]; by right|]. split; [by intros ? [? ?]|done]. }
  destruct (main net (Some rows) script_dir st) as [o st'] eqn:Hrun.
  exists o, st'. split; [done|].
  destruct o as [status|e|].
  - destruct (main_run _ _ _ _ _ Hrun)
      as (t & st0 & st1 & tail & Hloop & Hfs0 & _ & _ & Hfs & _ & Hst & _).
    destruct (for_hospitals_returned net _ _ _ _ _ _ _ _ Hloop)
      as (rs & evs & _ & _ & _ & _ & _ & _ & Hfs1 & _).
    split; [|split; [|split; [|done]]].
    + intros p node Hp Hnode. rewrite Hfs, lookup_insert_ne by done.
      eapply lookup_weaken; [|exact Hfs1]. eapply lookup_weaken; [|exact Hfs0]. done.
    + intros ? [= <-]. rewrite Hst. destruct (failed t =? 0)%nat; auto.
    + intros ? _ _. eexists. rewrite Hfs. apply lookup_insert_eq.
  - destruct (main_outcome net rows script_dir st) as (o & st'' & Hrun' & Hend).
    rewrite Hrun in Hrun'. injection Hrun' as <- <-.
    destruct Hend as (Hlog & Hfs & _).
    split; [|split; [done|split; [done|split; [|done]]]].
    + intros p node _ Hnode. by eapply lookup_weaken.
    + by intros ? _.
  - destruct (main_outcome net rows script_dir st) as (o & st'' & Hrun' & Hend).
    rewrite Hrun in Hrun'. injection Hrun' as <- <-. done.
Qed.

End Runs.

(** ** The region directory *)

Lemma parts_one s :
  Forall (λ c, c ≠ 47) s →
  parts s = if decide (s ≠ [] ∧ s ≠ lit ".") then [s] else [].
Proof.
  intros Hs. unfold parts.
  pose proof (split_on_no_sep 47 s [] [] [] Hs eq_refl) as E.
  rewrite !app_nil_r in E. rewrite E.
  destruct (decide (s ≠ [] ∧ s ≠ lit ".")) as [H|H].
  - by rewrite filter_cons_True.
  - by rewrite filter_cons_False.
Qed.

Section Layout.
Context {rt : Runtime}.
Hypothesis faithful : ascii_faithful rt.

(** X16: for an ASCII region the region directory is the output
    directory followed by the sanitized region; but a region that
    sanitizes to the empty string or to a single dot adds no part, so
    that the files of such a region go straight into the output
    directory. *)
Theorem region_directory (output_dir : list (list N)) (region : list N) :
  is_ascii region →
  let s := sanitize_filename region in
  (s = [] ∨ s = lit "." → path_div output_dir s = output_dir)
  ∧ (s ≠ [] → s ≠ lit "." → path_div output_dir s = output_dir ++ [s]).
Proof.
  intros Hregion s.
  assert (Hs : Forall (λ c, c ≠ 47) s).
  { eapply Forall_impl; [exact (sanitize_filename_safe faithful region Hregion)|].
    intros c Hc ->. done. }
  unfold path_div. rewrite (parts_one s Hs). split.
  - intros H. rewrite decide_False; [by rewrite app_nil_r|]. intros [? ?]. by destruct H.
  - intros H1 H2. by rewrite decide_True.
Qed.

End Layout.

(** ** Concrete runs of the further properties *)


Lemma sanitize_filename_ignores_case_witness :
  ascii_faithful cpython_fragment
  ∧ is_ascii (lit "St. Mary") ∧ is_ascii (lit "ST. MARY")
  ∧ ascii_lower <$> lit "St. Mary" = ascii_lower <$> lit "ST. MARY"
  ∧ sanitize_filename (rt:=cpython_fragment) (lit "St. Mary")
    = sanitize_filename (rt:=cpython_fragment) (lit "ST. MARY").
Proof.
  assert (H1 : is_ascii (lit "St. Mary")) by (repeat constructor).
  assert (H2 : is_ascii (lit "ST. MARY")) by (repeat constructor).
  split; [exact cpython_fragment_faithful|]. split; [exact H1|]. split; [exact H2|].
  split; [reflexivity|].
  exact (sanitize_filename_ignores_case cpython_fragment_faithful _ _ H1 H2 eq_refl).
Defined.

Lemma get_extension_from_url_range_witness :
  get_extension_from_url (rt:=cpython_fragment)
    (Some (lit "https://example.org/prices.xml")) (Some (lit "CSV")) = Return (lit ".xml")
  ∧ lit ".xml" ∈ recognized_suffixes
  ∧ ∃ path, url_path (Runtime:=cpython_fragment) (Some (lit "https://example.org/prices.xml"))
            = Parsed path
      ∧ endswith path (lit ".xml") = true.
Proof.
  split; [reflexivity|].
  destruct (get_extension_from_url_range (rt:=cpython_fragment)
              (Some (lit "https://example.org/prices.xml")) (Some (lit "CSV")) (lit ".xml")
              eq_refl) as [H1 H2].
  split; [exact H1|]. apply H2. by right.
Defined.

Lemma get_extension_from_response_shape_witness :
  startswith (lit ".") (lit ".json") = true
  ∧ startswith (lit ".")
      (get_extension_from_response (rt:=cpython_fragment)
         {[ lit "content-disposition" := lit "attachment; filename=data.CSV" ]}
         (lit ".json")) = true.
Proof.
  split; [reflexivity|].
  exact (proj2 (get_extension_from_response_shape (rt:=cpython_fragment)
                  {[ lit "content-disposition" := lit "attachment; filename=data.CSV" ]}
                  (lit ".json")) eq_refl).
Defined.

Lemma disposition_filename_unquoted_witness :
  Forall (λ c, c ≠ 102) (lit "attachment; ")
  ∧ Forall (λ c, char_in c [squote; dquote; newline] = false) (lit "data.csv; size=3")
  ∧ disposition_filename (lit "attachment; " ++ lit "filename=" ++ lit "data.csv; size=3")
    = Some (lit "data.csv; size=3").
Proof.
  assert (H1 : Forall (λ c, c ≠ 102) (lit "attachment; "))
    by (repeat (constructor; [done|]); constructor).
  assert (H2 : Forall (λ c, char_in c [squote; dquote; newline] = false)
                 (lit "data.csv; size=3")) by (repeat constructor).
  split; [exact H1|]. split; [exact H2|].
  exact (disposition_filename_unquoted _ _ H1 H2).
Defined.

Lemma disposition_filename_unclosed_witness :
  Forall (λ c, c ≠ 102) (lit "attachment; ")
  ∧ Forall (λ c, char_in c [squote; dquote; newline] = false) (lit "data.csv")
  ∧ disposition_filename (lit "attachment; " ++ lit "filename=" ++ dquote :: lit "data.csv")
    = Some [].
Proof.
  assert (H1 : Forall (λ c, c ≠ 102) (lit "attachment; "))
    by (repeat (constructor; [done|]); constructor).
  assert (H2 : Forall (λ c, char_in c [squote; dquote; newline] = false) (lit "data.csv"))
    by (repeat constructor).
  split; [exact H1|]. split; [exact H2|].
  exact (disposition_filename_unclosed _ _ dquote (or_intror eq_refl) H1 H2).
Defined.

Lemma download_file_requests_witness :
  get_extension_from_url (rt:=cpython_fragment) (Some (lit "https://example.org/prices"))
    (Some (lit "JSON")) = Return (lit ".json")
  ∧ is_error_status 200 = false
  ∧ ∃ r st',
      download_file (rt:=cpython_fragment) always_ok
        (Some (lit "General Hospital")) (Some (lit "https://example.org/prices"))
        (Some (lit "JSON")) (Some (lit "Bay Area")) [lit "public_prices"] empty_world
      = (Return r, st')
      ∧ calls st' = 1%nat
      ∧ (Result.success r = true ↔ (0 < 3)%nat ∧ raised_by (always_ok 0) = None).
Proof.
  split; [reflexivity|]. split; [reflexivity|].
  destruct (download_file_first_success (rt:=cpython_fragment) always_ok
              (lit "General Hospital") (lit "https://example.org/prices") (lit "JSON")
              (lit "Bay Area") [lit "public_prices"] empty_world (lit ".json") 200 (lit "OK")
              ∅ [[Byte.x7b; Byte.x7d]] eq_refl eq_refl eq_refl eq_refl)
    as (j & l & _ & _ & _ & Hrun).
  eexists _, _. split; [exact Hrun|].
  exact (download_file_requests (rt:=cpython_fragment) always_ok _ _ _ _ _ _ _ _ Hrun).
Defined.

Lemma download_file_success_file_witness :
  get_extension_from_url (rt:=cpython_fragment) (Some (lit "https://example.org/prices"))
    (Some (lit "JSON")) = Return (lit ".json")
  ∧ is_error_status 200 = false
  ∧ ∃ r st',
      download_file (rt:=cpython_fragment) always_ok
        (Some (lit "General Hospital")) (Some (lit "https://example.org/prices"))
        (Some (lit "JSON")) (Some (lit "Bay Area")) [lit "public_prices"] empty_world
      = (Return r, st')
      ∧ Result.success r = true
      ∧ ∃ name reg expected_ext k status_code reason headers chunks l j,
          let filename := candidate (sanitize_filename (rt:=cpython_fragment) name)
                            (get_extension_from_response (rt:=cpython_fragment) headers
                               expected_ext) j in
          let rel := parts (sanitize_filename (rt:=cpython_fragment) reg)
                     ++ parts filename in
          Some (lit "General Hospital") = Some name ∧ Some (lit "Bay Area") = Some reg
          ∧ get_extension_from_url (rt:=cpython_fragment)
              (Some (lit "https://example.org/prices")) (Some (lit "JSON"))
            = Return expected_ext
          ∧ calls st' = S k
          ∧ always_ok k = Response status_code reason headers (Stream chunks None)
          ∧ is_error_status status_code = false
          ∧ [lit "public_prices"] = parent [lit "public_prices"] ++ l
          ∧ Result.filename r = Some (path_str (l ++ rel))
          ∧ fs empty_world !! ([lit "public_prices"] ++ rel) = None
          ∧ fs st' !! ([lit "public_prices"] ++ rel) = Some (File (concat chunks))
          ∧ Result.size r = N.of_nat (length (concat chunks)).
Proof.
  split; [reflexivity|]. split; [reflexivity|].
  destruct (download_file_first_success (rt:=cpython_fragment) always_ok
              (lit "General Hospital") (lit "https://example.org/prices") (lit "JSON")
              (lit "Bay Area") [lit "public_prices"] empty_world (lit ".json") 200 (lit "OK")
              ∅ [[Byte.x7b; Byte.x7d]] eq_refl eq_refl eq_refl eq_refl)
    as (j & l & _ & _ & _ & Hrun).
  eexists _, _. split; [exact Hrun|]. split; [reflexivity|].
  exact (download_file_success_file (rt:=cpython_fragment) always_ok _ _ _ _ _ _ _ _
           Hrun eq_refl).
Defined.

Lemma download_file_error_witness :
  get_extension_from_url (rt:=cpython_fragment) (Some (lit "https://example.org/prices"))
    (Some (lit "JSON")) = Return (lit ".json")
  ∧ is_error_status 200 = false
  ∧ ∃ r st',
      download_file (rt:=cpython_fragment) always_ok
        (Some (lit "General Hospital")) (Some (lit "https://example.org/prices"))
        (Some (lit "JSON")) (Some (lit "Bay Area")) [lit "public_prices"] empty_world
      = (Return r, st')
      ∧ Result.error r = None
      ∧ raised_by (always_ok (calls empty_world)) = None ∧ Result.success r = true.
Proof.
  split; [reflexivity|]. split; [reflexivity|].
  destruct (download_file_first_success (rt:=cpython_fragment) always_ok
              (lit "General Hospital") (lit "https://example.org/prices") (lit "JSON")
              (lit "Bay Area") [lit "public_prices"] empty_world (lit ".json") 200 (lit "OK")
              ∅ [[Byte.x7b; Byte.x7d]] eq_refl eq_refl eq_refl eq_refl)
    as (j & l & _ & _ & _ & Hrun).
  eexists _, _. split; [exact Hrun|]. split; [reflexivity|].
  exact (download_file_error (rt:=cpython_fragment) always_ok _ _ _ _ _ _ _ _ Hrun).
Defined.

(** The two-row manifest over a network that times out once and then
    delivers every time, from an empty world. *)
Lemma two_row_run_retry :
  main (rt:=cpython_fragment) timeout_then_ok (Some two_row_manifest) [lit "repo"]
    empty_world
  = (Return 0%nat,
     (main (rt:=cpython_fragment) timeout_then_ok (Some two_row_manifest) [lit "repo"]
        empty_world).2).
Proof. evaluated. Qed.

Lemma main_summary_counts_witness :
  let log_path := [lit "repo"; lit "public_prices"; lit "download_log.csv"] in
  ∃ st',
    main (rt:=cpython_fragment) timeout_then_ok (Some two_row_manifest) [lit "repo"]
      empty_world = (Return 0%nat, st')
    ∧ ∃ rs tr tl,
        let n_ok := length (filter (λ r, Result.success r = true) rs) in
        let n_failed := length (filter (λ r, Result.success r = false) rs) in
        fs st' !! log_path = Some (Sheet (log_fieldnames :: (log_row <$> rs)))
        ∧ trace st' = tr ++ Print (Summary 2 n_ok n_failed (total_size rs)) :: tl
        ∧ (n_ok + n_failed = 2)%nat
        ∧ total_size rs = total_size (filter (λ r, Result.success r = true) rs).
Proof.
  intros log_path. eexists. split; [exact two_row_run_retry|].
  exact (main_summary_counts (rt:=cpython_fragment) timeout_then_ok _ _ _ _ _
           two_row_run_retry).
Defined.

Lemma main_requests_witness :
  ∃ st',
    main (rt:=cpython_fragment) timeout_then_ok (Some two_row_manifest) [lit "repo"]
      empty_world = (Return 0%nat, st')
    ∧ calls st' = 3%nat
    ∧ ∃ evs, trace st' = trace empty_world ++ evs
        ∧ (calls st' = calls empty_world + count_events is_get evs)%nat
        ∧ (2 ≤ count_events is_get evs ≤ RETRY_ATTEMPTS * 2)%nat.
Proof.
  eexists. split; [exact two_row_run_retry|]. split; [evaluated|].
  exact (main_requests (rt:=cpython_fragment) timeout_then_ok _ _ _ _ _
           two_row_run_retry).
Defined.

Lemma main_pacing_witness :
  ∃ st',
    main (rt:=cpython_fragment) timeout_then_ok (Some two_row_manifest) [lit "repo"]
      empty_world = (Return 0%nat, st')
    ∧ ∃ evs, trace st' = trace empty_world ++ evs
        ∧ count_events is_delay evs = 1%nat
        ∧ omap progress_of evs
          = [ (1%nat, 2%nat, Some (lit "Foo Clinic"));
              (2%nat, 2%nat, Some (lit "Bar Clinic")) ].
Proof.
  eexists. split; [exact two_row_run_retry|].
  exact (main_pacing (rt:=cpython_fragment) timeout_then_ok _ _ _ _ _ two_row_run_retry).
Defined.

Lemma main_log_matches_files_witness :
  let log_path := [lit "repo"; lit "public_prices"; lit "download_log.csv"] in
  ∃ st',
    main (rt:=cpython_fragment) always_ok (Some two_row_manifest) [lit "repo"]
      empty_world = (Return 0%nat, st')
    ∧ fs st' !! [lit "repo"; lit "public_prices"; lit "a"; lit "foo_clinic.csv"]
      = Some (File [Byte.x7b; Byte.x7d])
    ∧ ∃ rs, fs st' !! log_path = Some (Sheet (log_fieldnames :: (log_row <$> rs)))
        ∧ length rs = 2%nat
        ∧ Forall (λ r,
            if Result.success r
            then ∃ rel content,
                   Result.filename r = Some (path_str (OUTPUT_DIR :: rel))
                   ∧ Result.size r = N.of_nat (length content)
                   ∧ ([lit "repo"] ++ OUTPUT_DIR :: rel ≠ log_path →
                      fs st' !! ([lit "repo"] ++ OUTPUT_DIR :: rel) = Some (File content))
                   ∧ ([lit "repo"] ++ OUTPUT_DIR :: rel = log_path →
                      rel = [lit "download_log.csv"])
            else Result.filename r = None ∧ Result.size r = 0) rs.
Proof.
  intros log_path. eexists. split; [exact two_row_run_ok|]. split; [evaluated|].
  exact (main_log_matches_files (rt:=cpython_fragment) always_ok _ _ _ _ _
           two_row_run_ok).
Defined.

Lemma main_missing_column_witness :
  let fieldnames := [lit "hospital_name"; lit "mrf_download_url"; lit "file_type"] in
  let body := [[lit "Foo Clinic"; lit "https://example.org/foo.csv"; lit "CSV"]] in
  lit "region" ∈ required_columns
  ∧ (lit "region" ∉ fieldnames)
  ∧ Exists (λ row : list (list N), row ≠ []) body
  ∧ mkdir_error (path_div [lit "repo"] OUTPUT_DIR) empty_world = None
  ∧ ∃ k st',
      main (rt:=cpython_fragment) always_ok (Some (fieldnames :: body)) [lit "repo"]
        empty_world = (Raises (KeyError k), st')
      ∧ k ∈ required_columns ∧ (k ∉ fieldnames)
      ∧ calls st' = calls empty_world ∧ logs st' = logs empty_world.
Proof.
  intros fieldnames body.
  assert (H1 : lit "region" ∈ required_columns) by (repeat constructor).
  assert (H2 : lit "region" ∉ fieldnames).
  { intros H. repeat (apply elem_of_cons in H as [H|H]; [by apply lit_inj in H|]).
    by apply elem_of_nil in H. }
  assert (H3 : Exists (λ row : list (list N), row ≠ []) body) by (by constructor).
  split; [exact H1|]. split; [exact H2|]. split; [exact H3|]. split; [reflexivity|].
  destruct (main_missing_column (rt:=cpython_fragment) always_ok fieldnames body
              (lit "region") [lit "repo"] empty_world H1 H2 H3)
    as (e & st' & Hrun & Hc & Hlog & k & -> & Hk & Hknot).
  exists k, st'. exact (conj Hrun (conj Hk (conj Hknot (conj Hc Hlog)))).
Defined.

Lemma region_directory_witness :
  ascii_faithful cpython_fragment ∧ is_ascii (lit "?")
  ∧ sanitize_filename (rt:=cpython_fragment) (lit "?") = []
  ∧ path_div [lit "public_prices"] (sanitize_filename (rt:=cpython_fragment) (lit "?"))
    = [lit "public_prices"].
Proof.
  assert (H1 : is_ascii (lit "?")) by (repeat constructor).
  split; [exact cpython_fragment_faithful|]. split; [exact H1|]. split; [reflexivity|].
  exact (proj1 (region_directory cpython_fragment_faithful [lit "public_prices"] (lit "?") H1)
           (or_introl eq_refl)).
Defined.

Lemma disposition_filename_defined_witness :
  contains (lit "filename=") (lit "attachment; filename=prices.csv") = true
  ∧ is_Some (disposition_filename (lit "attachment; filename=prices.csv")).
Proof.
  split; [reflexivity|].
  exact (proj2 (disposition_filename_defined (lit "attachment; filename=prices.csv")) eq_refl).
Defined.

Lemma main_keeps_files_witness :
  let log_path := [lit "repo"; lit "public_prices"; lit "download_log.csv"] in
  let st := State {[ log_path := File [Byte.x7b]; [lit "repo"; lit "notes"] := File [] ]}
              0 [] in
  ∃ st',
    main (rt:=cpython_fragment) always_ok (Some two_row_manifest) [lit "repo"] st
    = (Return 0%nat, st')
    ∧ fs st !! [lit "repo"; lit "notes"] = Some (File [])
    ∧ fs st' !! [lit "repo"; lit "notes"] = Some (File [])
    ∧ fs st !! log_path = Some (File [Byte.x7b])
    ∧ ∃ records, fs st' !! log_path = Some (Sheet records).
Proof.
  intros log_path st.
  assert (Hrun : main (rt:=cpython_fragment) always_ok (Some two_row_manifest)
                   [lit "repo"] st
                 = (Return 0%nat,
                    (main (rt:=cpython_fragment) always_ok (Some two_row_manifest)
                       [lit "repo"] st).2)) by evaluated.
  assert (Hnotes : fs st !! [lit "repo"; lit "notes"] = Some (File [])) by evaluated.
  assert (Hlog : fs st !! log_path = Some (File [Byte.x7b])) by evaluated.
  destruct (main_keeps_files (rt:=cpython_fragment) always_ok (Some two_row_manifest)
              [lit "repo"] st) as (o & st' & Hrun' & Hkeep & _ & Hsheet & _).
  assert (Ho : o = Return 0%nat) by exact (f_equal fst (eq_trans (eq_sym Hrun') Hrun)).
  subst o. exists st'. split; [exact Hrun'|]. split; [exact Hnotes|].
  split; [refine (Hkeep _ _ _ Hnotes); discriminate|]. split; [exact Hlog|].
  refine (Hsheet 0%nat _ eq_refl). by eexists.
Defined.
